(** * AliMuonAccEffSubmitter: a shallow embedding of the Acc x Eff submitter

    The development follows PWG/muondep/AliMuonAccEffSubmitter.cxx.
    Pure helpers (TString operations, TMath::Nint, the chunk search, the JDL
    key printer) come first; the methods that talk to the grid, the shell and
    the local file system are written in a small monad that records every
    external call together with the answer it received. *)

From Stdlib Require Import ZArith QArith Qround Lia List Bool Ascii String DecimalString.
From stdpp Require Import base strings gmap list.

Local Open Scope Z_scope.
Local Open Scope string_scope.

(** ** TString and libc helpers *)

Module TStr.

Definition isdigit (c : ascii) : bool :=
  let n := nat_of_ascii c in (Nat.leb 48 n && Nat.leb n 57)%bool.

Definition isupper (c : ascii) : bool :=
  let n := nat_of_ascii c in (Nat.leb 65 n && Nat.leb n 90)%bool.

Definition islower (c : ascii) : bool :=
  let n := nat_of_ascii c in (Nat.leb 97 n && Nat.leb n 122)%bool.

Definition isalnum (c : ascii) : bool :=
  (isdigit c || isupper c || islower c)%bool.

(** isspace of the C locale: blank, \t, \n, \v, \f, \r. *)
Definition isspace (c : ascii) : bool :=
  let n := nat_of_ascii c in (Nat.eqb n 32 || (Nat.leb 9 n && Nat.leb n 13))%bool.

Definition toupper (c : ascii) : ascii :=
  if islower c then ascii_of_nat (nat_of_ascii c - 32) else c.

Definition tolower (c : ascii) : ascii :=
  if isupper c then ascii_of_nat (nat_of_ascii c + 32) else c.

Fixpoint map_chars (f : ascii -> ascii) (s : string) : string :=
  match s with
  | EmptyString => EmptyString
  | String c r => String (f c) (map_chars f r)
  end.

Definition ToUpper := map_chars toupper.
Definition ToLower := map_chars tolower.

(** pat is an initial segment of s. *)
Fixpoint starts_with (pat s : string) : bool :=
  match pat with
  | EmptyString => true
  | String a pat' =>
      match s with
      | EmptyString => false
      | String b s' => (Ascii.eqb a b && starts_with pat' s')%bool
      end
  end.

Definition BeginsWith (s pat : string) : bool := starts_with pat s.

(** TString::Contains(pat): pat occurs somewhere in s (exact case). *)
Fixpoint Contains (s pat : string) : bool :=
  (starts_with pat s ||
   match s with
   | EmptyString => false
   | String _ r => Contains r pat
   end)%bool.

(** TString::Contains(pat, kIgnoreCase). *)
Definition ContainsNoCase (s pat : string) : bool :=
  Contains (ToLower s) (ToLower pat).

(** TString::Index(pat): position of the first occurrence. *)
Fixpoint Index (s pat : string) : option nat :=
  if starts_with pat s then Some O
  else match s with
       | EmptyString => None
       | String _ r => option_map S (Index r pat)
       end.

(** TString::ReplaceAll(pat, rep): left to right, the search resumes after
    the inserted text; an empty pattern replaces nothing.  [skip] counts the
    characters of a match that are still to be dropped. *)
Fixpoint replace_go (pat rep : string) (skip : nat) (s : string) : string :=
  match s with
  | EmptyString => EmptyString
  | String c r =>
      match skip with
      | S k => replace_go pat rep k r
      | O =>
          if starts_with pat s
          then rep ++ replace_go pat rep (String.length pat - 1) r
          else String c (replace_go pat rep O r)
      end
  end.

Definition ReplaceAll (s pat rep : string) : string :=
  match pat with
  | EmptyString => s
  | _ => replace_go pat rep O s
  end.

(** TString::Strip(kTrailing, c). *)
Fixpoint StripTrailing (c : ascii) (s : string) : string :=
  match s with
  | EmptyString => EmptyString
  | String a r =>
      match StripTrailing c r with
      | EmptyString => if Ascii.eqb a c then EmptyString else String a EmptyString
      | r' => String a r'
      end
  end.

(** TString::IsDigit(): non empty, only digits and blanks, at least one
    digit. *)
Fixpoint only_digits_or_blanks (s : string) : bool :=
  match s with
  | EmptyString => true
  | String c r => ((isdigit c || Ascii.eqb c " ") && only_digits_or_blanks r)%bool
  end.

Fixpoint has_digit (s : string) : bool :=
  match s with
  | EmptyString => false
  | String c r => (isdigit c || has_digit r)%bool
  end.

Definition IsDigit (s : string) : bool :=
  match s with
  | EmptyString => false
  | _ => (only_digits_or_blanks s && has_digit s)%bool
  end.

(** TString::IsDec(): non empty and only decimal digits. *)
Fixpoint all_digits (s : string) : bool :=
  match s with
  | EmptyString => true
  | String c r => (isdigit c && all_digits r)%bool
  end.

Definition IsDec (s : string) : bool :=
  match s with
  | EmptyString => false
  | _ => all_digits s
  end.

(** atoi: leading white space, an optional sign, then the longest run of
    digits.  The value is kept in Z; the C result is defined only when it
    fits an int. *)
Fixpoint digits_value (acc : Z) (s : string) : Z :=
  match s with
  | EmptyString => acc
  | String c r =>
      if isdigit c
      then digits_value (10 * acc + Z.of_nat (nat_of_ascii c - 48)) r
      else acc
  end.

Fixpoint skip_space (s : string) : string :=
  match s with
  | String c r => if isspace c then skip_space r else s
  | EmptyString => EmptyString
  end.

Definition atoi (s : string) : Z :=
  match skip_space s with
  | String "-" r => - digits_value 0 r
  | String "+" r => digits_value 0 r
  | r => digits_value 0 r
  end.

Fixpoint remove_blanks (s : string) : string :=
  match s with
  | EmptyString => EmptyString
  | String c r => if Ascii.eqb c " " then remove_blanks r else String c (remove_blanks r)
  end.

(** TString::Atoi(): blanks are dropped, then atoi. *)
Definition Atoi (s : string) : Z := atoi (remove_blanks s).

(** printf("%d") and operator<<(int). *)
Definition of_int (z : Z) : string := NilZero.string_of_int (Z.to_int z).

(** printf("%09d") for a non negative argument. *)
Definition of_int09 (z : Z) : string :=
  let d := of_int z in
  String.concat EmptyString (repeat "0" (9 - String.length d)) ++ d.

End TStr.

(** ** TSystem path helpers *)

Module Path.

(** Text after the last '/', if any. *)
Fixpoint after_last_slash (s : string) : option string :=
  match s with
  | EmptyString => None
  | String c r =>
      match after_last_slash r with
      | Some t => Some t
      | None => if Ascii.eqb c "/" then Some r else None
      end
  end.

(** TSystem::BaseName. *)
Definition BaseName (name : string) : string :=
  if String.eqb name "/" then name
  else match after_last_slash name with
       | Some t => t
       | None => name
       end.

(** Text before the last '/', if any. *)
Fixpoint before_last_slash (s : string) : option string :=
  match s with
  | EmptyString => None
  | String c r =>
      match before_last_slash r with
      | Some t => Some (String c t)
      | None => if Ascii.eqb c "/" then Some EmptyString else None
      end
  end.

(** TSystem::DirName: "." without a slash, "/" when the only slash leads. *)
Definition DirName (pathname : string) : string :=
  match before_last_slash pathname with
  | None => "."
  | Some EmptyString => "/"
  | Some d => d
  end.

End Path.

(** ** TMath::Nint on exactly represented values

    Every floating value the submitter rounds is either an int plus 0.5 or a
    product small enough to be exact, so a rational stands for the double. *)

Definition Double := Q.

Definition trunc_to_int (x : Q) : Z := if Qle_bool 0 x then Qfloor x else Qceiling x.

Definition Qeqb (x y : Q) : bool := (Qle_bool x y && Qle_bool y x)%bool.

Definition Qgtb (x y : Q) : bool := negb (Qle_bool x y).

Definition half : Q := 1 # 2.

(** TMath::Nint: nearest integer, halves go to the even neighbour. *)
Definition Nint (x : Double) : Z :=
  if Qle_bool 0 x then
    let i := trunc_to_int (x + half)%Q in
    if (Z.odd i && Qeqb (x + half)%Q (inject_Z i))%bool then i - 1 else i
  else
    let i := trunc_to_int (x - half)%Q in
    if (Z.odd i && Qeqb (x - half)%Q (inject_Z i))%bool then i + 1 else i.

(** ** Chunk planning (the arithmetic of Submit) *)

(** The double nEvtRun/nChunk+0.5: the division is the truncating int
    division, the sum is exact. *)
Definition chunk_size_plus_half (nEvtRun nChunk : Z) : Double :=
  (inject_Z (Z.quot nEvtRun nChunk) + half)%Q.

(** while (nEvtRun/nChunk+0.5 > MaxEventsPerChunk()) ++nChunk; *)
Fixpoint chunk_loop (fuel : nat) (nEvtRun maxEvt nChunk : Z) : option Z :=
  match fuel with
  | O => None
  | S fuel' =>
      if Qgtb (chunk_size_plus_half nEvtRun nChunk) (inject_Z maxEvt)
      then chunk_loop fuel' nEvtRun maxEvt (nChunk + 1)
      else Some nChunk
  end.

(** Int_t nEvtChunk = TMath::Nint(nEvtRun/nChunk + 0.5); *)
Definition events_per_chunk (nEvtRun nChunk : Z) : Z :=
  Nint (chunk_size_plus_half nEvtRun nChunk).

(** nEvtRun = TMath::Nint(fRatio * trigger->Value()); *)
Definition ratio_events (fRatio : Double) (value : Z) : Z :=
  Nint (fRatio * inject_Z value)%Q.

(** ** Characters used by the printers *)

Definition nl : string := String (ascii_of_nat 10) EmptyString.
Definition tab : string := String (ascii_of_nat 9) EmptyString.
Definition dquote : string := String (ascii_of_nat 34) EmptyString.
Definition quoted (v : string) : string := dquote ++ v ++ dquote.

(** ** JDL key printer: Output(std::ostream&, key, const TObjArray&)

    The text sent to the stream, or None when values.At(0) is a null
    pointer (an empty array). *)

Fixpoint Output_values (n : Z) (values : list string) : string :=
  match values with
  | [] => EmptyString
  | v :: rest =>
      let n' := n - 1 in
      tab ++ quoted v ++ (if Z.eqb n' 0 then EmptyString else ",") ++ nl
      ++ Output_values n' rest
  end.

Definition Output (key : string) (values : list string) : option string :=
  let n := Z.of_nat (length values) in
  if Z.ltb 1 n then
    Some (key ++ " = " ++ "{" ++ nl ++ Output_values n values ++ "}" ++ ";" ++ nl)
  else
    match values with
    | [] => None
    | v1 :: _ =>
        Some (key ++ " = "
              ++ (if TStr.IsDigit v1 then TStr.of_int (TStr.Atoi v1) else quoted v1)
              ++ ";" ++ nl)
    end.

(** Output(out, key, v1, v2="", ..., v9=""): v1 is always kept, the empty
    ones among the others are dropped. *)
Definition Output_args (key v1 : string) (others : list string) : option string :=
  Output key (v1 :: List.filter (fun v => negb (String.length v =? 0)%nat) others).

(** ** The remote listing objects *)

(** A value stored in a TMap: a TObjString or some other TObject (of which
    only GetName matters). *)
Inductive TValue :=
| ObjString (s : string)
| OtherObject (name : string).

Definition GetName (o : TValue) : string :=
  match o with
  | ObjString s => s
  | OtherObject n => n
  end.

(** An element of a TGridResult: a TMap, or an object on which
    dynamic_cast<TMap*> yields null. *)
Inductive Entry :=
| MapEntry (m : gmap string TValue)
| NotAMap.

Abbreviation TGridResult := (list Entry).

(** TGridResult::GetKey(i, key), converted to a TString (a null char*
    gives the empty string). *)
Definition GetKey (res : TGridResult) (i : nat) (key : string) : string :=
  match res !! i with
  | Some (MapEntry m) =>
      match m !! key with
      | Some o => GetName o
      | None => EmptyString
      end
  | _ => EmptyString
  end.

(** ** External calls and their answers *)

Inductive LogLevel := LError | LWarning | LInfo | LDebug.

Inductive Call :=
| GridConnect (url : string)                  (* TGrid::Connect *)
| GridLs (path option : string)               (* gGrid->Ls *)
| GridMkdir (dir option : string)             (* gGrid->Mkdir *)
| GridCd (dir : string)                       (* gGrid->Cd *)
| GridRm (path : string)                      (* gGrid->Rm *)
| GridCommand (query : string)                (* gGrid->Command *)
| GridStdout                                  (* gGrid->Stdout *)
| GridStderr                                  (* gGrid->Stderr *)
| TFileCp (src dst : string)                  (* TFile::Cp *)
| Exec (cmd : string)                         (* gSystem->Exec *)
| Unlink (path : string)                      (* gSystem->Unlink *)
| AccessPathName (path : string)              (* gSystem->AccessPathName *)
| SysCopyFile (src dst : string) (overwrite : bool) (* gSystem->CopyFile *)
| ExpandPathName (path : string)              (* gSystem->ExpandPathName *)
| ReadLines (file : string)                   (* std::ifstream read line by line *)
| ReadLine (file : string)                    (* TString::ReadLine on a fresh ifstream *)
| CreateStream (file : string)                (* std::ofstream opened on file *)
| StreamWrite (file text : string)            (* operator<< on that stream *)
| GetTriggerScaler (run : Z) (level trigger : string)
| StdinGets                                   (* TString::Gets(stdin) *)
| Cout (text : string)                        (* std::cout and printf *)
| Log (level : LogLevel) (msg : string).      (* AliError, AliWarning, ... *)

Inductive Resp :=
| RUnit
| RBool (b : bool)
| RInt (z : Z)
| RStr (s : string)
| RLines (l : list string)
| RResult (r : option TGridResult)
| RScaler (v : option Z).

Definition as_bool (r : Resp) : bool := match r with RBool b => b | _ => false end.
Definition as_int (r : Resp) : Z := match r with RInt z => z | _ => 0 end.
Definition as_str (r : Resp) : string := match r with RStr s => s | _ => EmptyString end.
Definition as_lines (r : Resp) : list string := match r with RLines l => l | _ => [] end.
Definition as_result (r : Resp) : option TGridResult :=
  match r with RResult x => x | _ => None end.
Definition as_scaler (r : Resp) : option Z := match r with RScaler v => v | _ => None end.

Abbreviation Event := (Call * Resp)%type.

(** ** The submitter object *)

Record Submitter := mkSubmitter {
  fScalers : option (list Z);          (* the run list of the scalers object; None = null *)
  fRemoteDir : string;
  fReferenceTrigger : string;
  fRatio : Double;
  fFixedNofEvents : Z;
  fMaxEventsPerChunk : Z;
  fLocalDir : string;
  fOCDBPath : string;
  fTemplateDir : string;
  fPackageAliroot : string;
  fPackageGeant3 : string;
  fPackageRoot : string;
  fPackageApi : string;
  fMergedDir : string;
  fSplitMaxInputFileNumber : Z;
  fCompactMode : Z;
  fShouldOverwriteFiles : bool;
  fVars : list (string * string);      (* the TMap, in the order its iterator yields the keys *)
  fExternalConfig : string;
  fUseOCDBSnapshots : bool;
  fIsValid : bool;
  fTemplateFileList : option (list string);
  fLocalFileList : option (list string);
  fSnapshotDir : string;
  fUseAODMerging : bool
}.

Definition set_fTemplateFileList (l : option (list string)) (s : Submitter) : Submitter :=
  mkSubmitter (fScalers s) (fRemoteDir s) (fReferenceTrigger s) (fRatio s)
    (fFixedNofEvents s) (fMaxEventsPerChunk s) (fLocalDir s) (fOCDBPath s)
    (fTemplateDir s) (fPackageAliroot s) (fPackageGeant3 s) (fPackageRoot s)
    (fPackageApi s) (fMergedDir s) (fSplitMaxInputFileNumber s) (fCompactMode s)
    (fShouldOverwriteFiles s) (fVars s) (fExternalConfig s) (fUseOCDBSnapshots s)
    (fIsValid s) l (fLocalFileList s) (fSnapshotDir s) (fUseAODMerging s).

Definition set_fLocalFileList (l : option (list string)) (s : Submitter) : Submitter :=
  mkSubmitter (fScalers s) (fRemoteDir s) (fReferenceTrigger s) (fRatio s)
    (fFixedNofEvents s) (fMaxEventsPerChunk s) (fLocalDir s) (fOCDBPath s)
    (fTemplateDir s) (fPackageAliroot s) (fPackageGeant3 s) (fPackageRoot s)
    (fPackageApi s) (fMergedDir s) (fSplitMaxInputFileNumber s) (fCompactMode s)
    (fShouldOverwriteFiles s) (fVars s) (fExternalConfig s) (fUseOCDBSnapshots s)
    (fIsValid s) (fTemplateFileList s) l (fSnapshotDir s) (fUseAODMerging s).

(** namespace { Int_t splitLevel=10; } *)
Definition splitLevel : Z := 10.

(** ** Worlds and the monad of the methods *)

(** The program state: the external world (grid, file system, terminal),
    the record of the calls made so far with their answers (oldest first),
    the global gGrid pointer (true = not null) and the object. *)
Record World (ExtState : Type) := mkWorld {
  ext : ExtState;
  trace : list Event;
  gGrid : bool;
  self : Submitter
}.
Arguments mkWorld {ExtState}.
Arguments ext {ExtState}.
Arguments trace {ExtState}.
Arguments gGrid {ExtState}.
Arguments self {ExtState}.

(** A method returns, runs out of loop fuel, or dereferences a null
    pointer. *)
Inductive Outcome (ExtState A : Type) :=
| Done (a : A) (w : World ExtState)
| OutOfFuel
| Crash (w : World ExtState).
Arguments Done {ExtState A}.
Arguments OutOfFuel {ExtState A}.
Arguments Crash {ExtState A}.

Definition M (ExtState A : Type) : Type := World ExtState -> Outcome ExtState A.

Definition ret {E A} (a : A) : M E A := fun w => Done a w.

Definition bind {E A B} (m : M E A) (k : A -> M E B) : M E B := fun w =>
  match m w with
  | Done a w' => k a w'
  | OutOfFuel => OutOfFuel
  | Crash w' => Crash w'
  end.

Declare Scope method_scope.
Delimit Scope method_scope with method.
Notation "'let*' x ':=' m 'in' k" := (bind m (fun x => k))
  (at level 10, x name, m at level 100, k at level 200) : method_scope.
Notation "m '>>' k" := (bind m (fun _ => k))
  (at level 100, k at level 200, right associativity) : method_scope.
Local Open Scope method_scope.

Definition diverge {E A} : M E A := fun _ => OutOfFuel.
Definition crash {E A} : M E A := fun w => Crash w.

Definition get_self {E} : M E Submitter := fun w => Done (self w) w.
Definition get_gGrid {E} : M E bool := fun w => Done (gGrid w) w.
Definition modify_self {E} (f : Submitter -> Submitter) : M E unit :=
  fun w => Done tt (mkWorld (ext w) (trace w) (gGrid w) (f (self w))).
Definition set_gGrid {E} (b : bool) : M E unit :=
  fun w => Done tt (mkWorld (ext w) (trace w) b (self w)).

(** Loops over a container. *)
Fixpoint for_each {E A} (l : list A) (body : A -> M E unit) : M E unit :=
  match l with
  | [] => ret tt
  | x :: r => body x >> for_each r body
  end.

Fixpoint fold_each {E A S} (l : list A) (body : S -> A -> M E S) (s : S) : M E S :=
  match l with
  | [] => ret s
  | x :: r => let* s' := body s x in fold_each r body s'
  end.

(** a && b with b evaluated only when a holds. *)
Definition and_then {E} (a b : M E bool) : M E bool :=
  let* x := a in if x then b else ret false.

(** ** Reading and rewriting template lines *)

(** in.getline(line,1023): the reading loop stops at the first line that
    does not fit the buffer. *)
Fixpoint getlines (content : list string) : list string :=
  match content with
  | [] => []
  | l :: rest => if (String.length l <=? 1022)%nat then l :: getlines rest else []
  end.

(** The while over the keys of fVars: the first key, in iteration order,
    that occurs in the line. *)
Fixpoint find_key (vars : list (string * string)) (sline : string)
    : option (string * string) :=
  match vars with
  | [] => None
  | (key, value) :: rest =>
      if TStr.Contains sline key then Some (key, value) else find_key rest sline
  end.

(** while (sline.Contains("VAR_") && !sline.BeginsWith("//")) of ReplaceVars,
    with the counters nvars and nreplaced; None when the fuel runs out. *)
Fixpoint replace_in_line (k : nat) (vars : list (string * string)) (sline : string)
    (nvars nreplaced : Z) : option (string * Z * Z) :=
  if (TStr.Contains sline "VAR_" && negb (TStr.BeginsWith sline "//"))%bool then
    match k with
    | O => None
    | S k' =>
        match find_key vars sline with
        | Some (key, value) =>
            replace_in_line k' vars (TStr.ReplaceAll sline key value)
              (nvars + 1) (nreplaced + 1)
        | None => replace_in_line k' vars sline (nvars + 1) nreplaced
        end
    end
  else Some (sline, nvars, nreplaced).

(** The loop over the lines read; the rewritten lines come back in file
    order. *)
Fixpoint replace_in_lines (k : nat) (vars : list (string * string))
    (content : list string) (nvars nreplaced : Z) : option (list string * Z * Z) :=
  match content with
  | [] => Some ([], nvars, nreplaced)
  | line :: rest =>
      match replace_in_line k vars line nvars nreplaced with
      | None => None
      | Some (sline, nvars', nreplaced') =>
          match replace_in_lines k vars rest nvars' nreplaced' with
          | None => None
          | Some (lines, n, r) => Some (sline :: lines, n, r)
          end
      end
  end.

(** ** The methods *)

Section Methods.

(** The external world is a state machine answering each call. *)
Context {ExtState : Type}.
Variable env : ExtState -> Call -> Resp * ExtState.

(** Bound on the iterations of each while loop. *)
Variable fuel : nat.

(** Inline members of AliMuonAccEffSubmitter.h, which is not part of the
    sources at hand: the two JDL names and the text form of the split
    size handed to Output. *)
Variable RunJDLName : string.
Variable MergeJDLName : bool -> string.
Variable GetSplitMaxInputFileNumber : Submitter -> string.

Abbreviation Method := (M ExtState).

(** One external call: the world answers and the pair is recorded. *)
Definition call (c : Call) : Method Resp := fun w =>
  let '(r, e') := env (ext w) c in
  Done r (mkWorld e' (trace w ++ [(c, r)])%list (gGrid w) (self w)).

(** A call through the gGrid pointer. *)
Definition grid_call (c : Call) : Method Resp :=
  let* g := get_gGrid in
  if g then call c else crash.

Definition AliError (msg : string) : Method unit := call (Log LError msg) >> ret tt.
Definition AliWarning (msg : string) : Method unit := call (Log LWarning msg) >> ret tt.
Definition AliInfo (msg : string) : Method unit := call (Log LInfo msg) >> ret tt.
Definition AliDebug (msg : string) : Method unit := call (Log LDebug msg) >> ret tt.
Definition print (text : string) : Method unit := call (Cout text) >> ret tt.
Definition exec (cmd : string) : Method Z :=
  let* r := call (Exec cmd) in ret (as_int r).
Definition access_path_name (path : string) : Method bool :=
  let* r := call (AccessPathName path) in ret (as_bool r).

(** Header accessors. *)
Definition IsValid : Method bool := let* s := get_self in ret (fIsValid s).

(** *** Remote existence checks *)

(** The while loop of RemoteDirectoryExists over the listing: it ends at
    the first element that is not a TMap or has no name entry. *)
Fixpoint listing_has_name (dir : string) (res : TGridResult) : bool :=
  match res with
  | MapEntry m :: rest =>
      match m !! "name" with
      | None => false
      | Some obj => if String.eqb dir (GetName obj) then true else listing_has_name dir rest
      end
  | _ => false
  end.

Definition stripped_dir (dirname : string) : string :=
  TStr.StripTrailing "/" (TStr.StripTrailing " " dirname).

Definition RemoteDirectoryExists (dirname : string) : Method bool :=
  let* g := get_gGrid in
  if negb g then ret false else
  let dirstripped := stripped_dir dirname in
  let dir := Path.BaseName dirstripped ++ "/" in
  let path := Path.DirName dirstripped in
  let* r := call (GridLs path "-F") in
  match as_result r with
  | None => ret false
  | Some res => ret (listing_has_name dir res)
  end.

(** The test RemoteFileExists applies to the answer of gGrid->Ls(lfn). *)
Definition first_entry_named (res : TGridResult) : bool :=
  match res !! 0%nat with
  | Some (MapEntry m) =>
      match m !! "name" with
      | Some (ObjString objs) => negb (String.length objs =? 0)%nat
      | _ => false
      end
  | _ => false
  end.

Definition RemoteFileExists (lfn : string) : Method bool :=
  let* g := get_gGrid in
  if negb g then ret false else
  let* r := call (GridLs lfn EmptyString) in
  match as_result r with
  | None => ret false
  | Some res => ret (first_entry_named res)
  end.

(** *** File lists *)

Definition default_template_files (s : Submitter) : list string :=
  (["CheckESD.C"; "CheckAOD.C"; "AODtrain.C"; "validation.sh"]
   ++ [if (0 <? String.length (fExternalConfig s))%nat then fExternalConfig s else "Config.C"]
   ++ ["rec.C"; "sim.C"; "simrun.C"; RunJDLName]
   ++ (if fUseAODMerging s
       then [MergeJDLName false; MergeJDLName true; "AOD_merge.sh"; "validation_merge.sh"]
       else []))%list.

Definition TemplateFileList : Method (list string) :=
  let* s := get_self in
  match fTemplateFileList s with
  | Some l => ret l
  | None =>
      let l := default_template_files s in
      modify_self (set_fTemplateFileList (Some l)) >> ret l
  end.

Definition LocalFileList : Method (list string) :=
  let* s := get_self in
  match fLocalFileList s with
  | Some l => ret l
  | None =>
      let* l := TemplateFileList in
      modify_self (set_fLocalFileList (Some l)) >> ret l
  end.

(** LocalFileList()->Add(new TObjString(f)) *)
Definition LocalFileList_Add (f : string) : Method unit :=
  let* l := LocalFileList in
  modify_self (set_fLocalFileList (Some (l ++ [f])%list)).

(** *** CleanLocal *)

Definition CleanLocal (cleanSnapshots : bool) : Method unit :=
  let* files := LocalFileList in
  for_each files (fun file =>
    if (negb cleanSnapshots && TStr.Contains file "OCDB_")%bool then ret tt
    else call (Unlink file) >> ret tt).

(** *** GetLastStage *)

(** Form("grep Stage_%d/ __stage__ 2>&1 >/dev/null", n) *)
Definition grep_stage_cmd (n : Z) : string :=
  "grep Stage_" ++ TStr.of_int n ++ "/ __stage__ 2>&1 >/dev/null".

(** while (n > 0) if (gSystem->Exec(grep Stage_<++lastStage>/ ...) == 0) n--; *)
Fixpoint stage_loop (k : nat) (n lastStage : Z) : Method Z :=
  if Z.gtb n 0 then
    match k with
    | O => diverge
    | S k' =>
        let lastStage' := lastStage + 1 in
        let* rc := exec (grep_stage_cmd lastStage') in
        if Z.eqb rc 0 then stage_loop k' (n - 1) lastStage'
        else stage_loop k' n lastStage'
    end
  else ret lastStage.

(** The body of GetLastStage up to its return statement: the Int_t
    lastStage. *)
Definition GetLastStage_count (remoteDir : string) : Method Z :=
  exec ("alien_ls -F " ++ remoteDir ++ " | grep Stage_.*/ > __stage__") >>
  let* r := call (ReadLines "__stage__") in
  let n := Z.of_nat (length (as_lines r)) in
  let* lastStage := stage_loop fuel n 0 in
  exec "rm -f __stage__" >>
  ret lastStage.

(** Bool_t GetLastStage(...): return lastStage converts the int to bool. *)
Definition GetLastStage (remoteDir : string) : Method bool :=
  let* lastStage := GetLastStage_count remoteDir in
  ret (negb (Z.eqb lastStage 0)).

(** *** Merge *)

(** What Merge makes of the answer to its submit command: true when a
    result came back whose jobId key is a decimal number. *)
Definition merge_job_accepted (res : option TGridResult) : bool :=
  match res with
  | Some r => TStr.IsDec (GetKey r 0 "jobId")
  | None => false
  end.

Definition merge_query (jdl : string) (stage run : Z) : string :=
  if Z.gtb stage 0
  then "submit " ++ jdl ++ " " ++ TStr.of_int run ++ " " ++ TStr.of_int stage
  else "submit " ++ jdl ++ " " ++ TStr.of_int run.

Definition processing_msg (run : Z) : string :=
  nl ++ " --- processing run " ++ TStr.of_int run ++ " ---" ++ nl.

Definition failed_cmd (run : Z) : string :=
  "echo " ++ TStr.of_int run ++ " >> __failed__".

(** One iteration of the for loop of Merge.  The state carried from run
    to run is (reply, failedRun). *)
Definition Merge_run (jdl : string) (stage : Z) (dryRun : bool)
    (st : string * bool) (run : Z) : Method (string * bool) :=
  let reply := fst st in
  let failedRun := snd st in
  let* s := get_self in
  AliInfo (processing_msg run) >>
  let runDir := fMergedDir s ++ "/" ++ TStr.of_int run in
  let* e := RemoteDirectoryExists runDir in
  (if negb e
   then AliInfo (" - creating output directory " ++ runDir ++ nl) >>
        exec ("alien_mkdir -p " ++ runDir) >> ret tt
   else ret tt) >>
  let* merged := RemoteFileExists (runDir ++ "/root_archive.zip") in
  if merged then AliWarning " ! final merging already done" >> ret st else
  let* b := GetLastStage runDir in
  let lastStage := Z.b2z b in
  if (Z.gtb stage 0 && negb (Z.eqb stage (lastStage + 1)))%bool
  then AliError (" ! lastest merging stage = " ++ TStr.of_int lastStage
                 ++ ". Next must be stage " ++ TStr.of_int (lastStage + 1)
                 ++ " or final stage" ++ nl) >> ret st
  else
  let wn := if Z.gtb stage 0 then "Stage_" ++ TStr.of_int stage ++ ".xml" else "wn.xml" in
  let find :=
    if Z.eqb lastStage 0
    then "alien_find -x " ++ wn ++ " " ++ fRemoteDir s ++ "/" ++ TStr.of_int run
         ++ " *root_archive.zip"
    else "alien_find -x " ++ wn ++ " " ++ fRemoteDir s ++ "/" ++ TStr.of_int run
         ++ "/Stage_" ++ TStr.of_int lastStage ++ " *root_archive.zip" in
  exec (find ++ " 1> " ++ wn ++ " 2>/dev/null") >>
  exec ("grep -c /event " ++ wn ++ " > __nfiles__") >>
  let* r := call (ReadLine "__nfiles__") in
  let nFiles := as_str r in
  exec "rm -f __nfiles__" >>
  print (" - number of files to merge = " ++ TStr.of_int (TStr.Atoi nFiles) ++ nl) >>
  if Z.eqb (TStr.Atoi nFiles) 0
  then print (" ! collection of files to merge is empty" ++ nl) >>
       exec ("rm -f " ++ wn) >> ret st
  else
  (* the question asked when few files are left: inl = skip this run *)
  let* answer :=
    if (Z.gtb stage 0 && Z.leb (TStr.Atoi nFiles) splitLevel
        && negb (TStr.BeginsWith reply "y"))%bool
    then
      let* reply1 :=
        if negb (TStr.BeginsWith reply "n")
        then print (" ! number of files to merge <= split level ("
                    ++ TStr.of_int splitLevel ++ "). Continue? [Y/n] ") >>
             let* g := call StdinGets in ret (TStr.ToLower (as_str g))
        else ret reply in
      if TStr.BeginsWith reply1 "n"
      then exec ("rm -f " ++ wn) >> ret (inl reply1)
      else ret (inr "y")
    else ret (inr reply) in
  match answer with
  | inl reply' => ret (reply', failedRun)
  | inr reply' =>
      (if negb dryRun
       then
         let dirwn := runDir ++ "/" ++ wn in
         let* e := RemoteFileExists dirwn in
         (if e then grid_call (GridRm dirwn) >> ret tt else ret tt) >>
         exec ("alien_cp file:" ++ wn ++ " alien://" ++ dirwn) >>
         exec ("rm -f " ++ wn) >> ret tt
       else ret tt) >>
      let query := merge_query jdl stage run in
      print (" - " ++ query ++ " ...") >>
      if dryRun then AliInfo " dry run" >> ret (reply', failedRun) else
      let* r := grid_call (GridCommand query) in
      let* done :=
        match as_result r with
        | Some res =>
            let cjobId1 := GetKey res 0 "jobId" in
            if negb (TStr.IsDec cjobId1)
            then AliError " FAILED" >>
                 grid_call GridStdout >> grid_call GridStderr >> ret false
            else AliInfo (" DONE" ++ nl ++ "   --> the job Id is: " ++ cjobId1
                          ++ " " ++ nl) >> ret true
        | None => AliError " FAILED" >> ret false
        end in
      if negb done
      then exec (failed_cmd run) >> ret (reply', true)
      else ret (reply', failedRun)
  end.

(** The end of Merge: the list of failed runs is shown and the call
    fails when failedRun is set. *)
Definition Merge_report (failedRun : bool) : Method bool :=
  if failedRun
  then AliInfo (nl ++ "--------------------" ++ nl) >>
       AliInfo ("list of failed runs:" ++ nl) >>
       exec "cat __failed__" >>
       exec "rm -f __failed__" >>
       ret false
  else ret true.

(** Merge from the declaration of reply on: the loop and the report. *)
Definition Merge_loop (jdl : string) (stage : Z) (dryRun : bool)
    (runs : list Z) : Method bool :=
  exec "rm -f __failed__" >>
  let* st := fold_each runs (Merge_run jdl stage dryRun) (EmptyString, false) in
  Merge_report (snd st).

Definition Merge (stage : Z) (dryRun : bool) : Method bool :=
  let* s := get_self in
  let* e := RemoteDirectoryExists (fMergedDir s) in
  if negb e
  then AliError ("directory " ++ fMergedDir s ++ " does not exist") >> ret false
  else
  grid_call (GridCd (fMergedDir s)) >>
  let jdl := MergeJDLName (Z.eqb stage 0) in
  let* e := RemoteFileExists jdl in
  if negb e
  then AliError ("file " ++ jdl ++ " does not exist in " ++ fRemoteDir s ++ nl) >>
       ret false
  else
  match fScalers s with
  | None => crash
  | Some runs =>
      match runs with
      | [] => AliError "No run to work with" >> ret false
      | _ => Merge_loop jdl stage dryRun runs
      end
  end.


(** *** Submit *)

Definition submit_query (runNumber nChunk nEvtChunk : Z) : string :=
  "submit " ++ RunJDLName ++ " " ++ TStr.of_int runNumber ++ " "
  ++ TStr.of_int nChunk ++ " " ++ TStr.of_int nEvtChunk.

Definition plan_line (runNumber nChunk nEvtChunk : Z) : string :=
  TStr.of_int runNumber ++ tab ++ TStr.of_int nChunk ++ tab
  ++ TStr.of_int nEvtChunk ++ nl.

(** The number of events wanted for a run; None stands for the continue
    taken when the reference trigger has no scaler. *)
Definition Submit_events (runNumber : Z) : Method (option Z) :=
  let* s := get_self in
  if Qgtb (fRatio s) 0 then
    let* r := call (GetTriggerScaler runNumber "L2A" (fReferenceTrigger s)) in
    match as_scaler r with
    | None =>
        AliError ("Could not get trigger " ++ fReferenceTrigger s ++ " for run "
                  ++ TStr.of_int09 runNumber) >> ret None
    | Some value => ret (Some (ratio_events (fRatio s) value))
    end
  else ret (Some (fFixedNofEvents s)).

(** One iteration of the for loop of Submit; the state is (nJobs, nEvts). *)
Definition Submit_run (dryRun : bool) (st : Z * Z) (runNumber : Z) : Method (Z * Z) :=
  let nJobs := fst st in
  let nEvts := snd st in
  let* s := get_self in
  let* events := Submit_events runNumber in
  match events with
  | None => ret st
  | Some nEvtRun =>
      match chunk_loop fuel nEvtRun (fMaxEventsPerChunk s) 1 with
      | None => diverge
      | Some nChunk =>
          let nEvtChunk := events_per_chunk nEvtRun nChunk in
          print (plan_line runNumber nChunk nEvtChunk) >>
          let query := submit_query runNumber nChunk nEvtChunk in
          print (query ++ " ...") >>
          let* res :=
            if negb dryRun
            then let* r := grid_call (GridCommand query) in ret (as_result r)
            else ret None in
          match res with
          | Some r =>
              let cjobId1 := GetKey r 0 "jobId" in
              if (String.length cjobId1 =? 0)%nat
              then print (" FAILED" ++ nl ++ nl) >>
                   grid_call GridStdout >> grid_call GridStderr >> ret tt
              else print ("DONE" ++ nl) >>
                   print ("   --> the job Id is: " ++ cjobId1 ++ nl ++ nl)
          | None => print (" FAILED" ++ nl ++ nl)
          end >>
          ret (nJobs + nChunk, nEvts + nChunk * nEvtChunk)
      end
  end.

Definition Submit_loop (dryRun : bool) (runs : list Z) : Method Z :=
  print ("run" ++ tab ++ "chunks" ++ tab ++ "events" ++ nl) >>
  print ("----------------------" ++ nl) >>
  let* st := fold_each runs (Submit_run dryRun) (0, 0) in
  print (nl ++ "total number of jobs = " ++ TStr.of_int (fst st) ++ nl
         ++ "total number of generated events = " ++ TStr.of_int (snd st) ++ nl
         ++ nl) >>
  ret (fst st).

(** The tests Submit makes before its loop: the run list when they all
    pass, None after a return 0. *)
Definition Submit_guards : Method (option (list Z)) :=
  let* valid := IsValid in
  if negb valid then ret None else
  AliDebug EmptyString >>
  let* s := get_self in
  grid_call (GridCd (fRemoteDir s)) >>
  let* e := RemoteFileExists RunJDLName in
  if negb e
  then AliError ("file " ++ RunJDLName ++ " does not exist in " ++ fRemoteDir s) >>
       ret None
  else
  match fScalers s with
  | None => AliError "No run list set. Use SetRunList" >> ret None
  | Some runs =>
      match runs with
      | [] => AliError "No run to work with" >> ret None
      | _ => ret (Some runs)
      end
  end.

Definition Submit (dryRun : bool) : Method Z :=
  let* runs := Submit_guards in
  match runs with
  | None => ret 0
  | Some runs => Submit_loop dryRun runs
  end.

(** *** Variable substitution *)

(** HasVars: some line holds VAR_ and is not a // comment. *)
Definition line_has_var (sline : string) : bool :=
  (TStr.Contains sline "VAR_" && negb (TStr.BeginsWith sline "//"))%bool.

Definition HasVars (file : string) : Method bool :=
  let* r := call (ReadLines file) in
  ret (existsb line_has_var (getlines (as_lines r))).

Definition ReplaceVars (file : string) : Method bool :=
  let* s := get_self in
  let* r := call (ReadLines file) in
  match replace_in_lines fuel (fVars s) (getlines (as_lines r)) 0 0 with
  | None => diverge
  | Some (lines, nvars, nreplaced) =>
      if Z.gtb nvars 0 then
        if negb (Z.eqb nreplaced nvars)
        then AliError ("nvars=" ++ TStr.of_int nvars ++ " nreplaced="
                       ++ TStr.of_int nreplaced) >> ret false
        else
          call (CreateStream file) >>
          for_each lines (fun l => call (StreamWrite file (l ++ nl)) >> ret tt) >>
          ret true
      else ret true
  end.

(** *** JDL generation *)

(** CreateJDLFile: the name of the opened stream, None for a null
    pointer. *)
Definition CreateJDLFile (name : string) : Method (option string) :=
  AliDebug EmptyString >>
  let* s := get_self in
  let jdl := fLocalDir s ++ "/" ++ name in
  let* present :=
    if negb (fShouldOverwriteFiles s)
    then let* a := access_path_name jdl in ret (negb a)
    else ret false in
  if present
  then AliError ("File " ++ jdl ++ " already exists. Remove it if you want to overwrite it")
       >> ret None
  else
  let* p := call (ExpandPathName jdl) in
  let* bad := call (CreateStream (as_str p)) in
  if as_bool bad
  then AliError ("Cannot create file " ++ jdl) >> ret None
  else ret (Some (as_str p)).

Definition output (os key v1 : string) (others : list string) : Method unit :=
  match Output_args key v1 others with
  | Some text => call (StreamWrite os text) >> ret tt
  | None => crash
  end.

Definition output_array (os key : string) (values : list string) : Method unit :=
  match Output key values with
  | Some text => call (StreamWrite os text) >> ret tt
  | None => crash
  end.

Definition GenerateMergeJDL (name : string) : Method bool :=
  AliDebug EmptyString >>
  let* os := CreateJDLFile name in
  match os with
  | None => ret false
  | Some os =>
      let* s := get_self in
      let final := TStr.ContainsNoCase name "merge" in
      call (StreamWrite os
              ("# Generated merging jdl (production mode)" ++ nl
               ++ "# $1 = run number" ++ nl
               ++ "# $2 = merging stage" ++ nl
               ++ "# Stage_<n>.xml made via: find <OutputDir> *Stage<n-1>/*root_archive.zip"
               ++ nl)) >>
      output os "Packages" (fPackageAliroot s)
        [fPackageGeant3 s; fPackageRoot s; fPackageApi s] >>
      output os "Executable" "AOD_merge.sh" [] >>
      output os "Price" "1" [] >>
      (if final
       then output os "Jobtag" "comment: AliMuonAccEffSubmitter final merging" []
       else output os "Jobtag" "comment: AliMuonAccEffSubmitter merging stage $2" []) >>
      output os "Workdirectorysize" "5000MB" [] >>
      output os "Validationcommand" (fRemoteDir s ++ "/validation_merge.sh") [] >>
      output os "TTL" "7200" [] >>
      output os "OutputArchive" "log_archive.zip:stderr,stdout@disk=1"
        ["root_archive.zip:AliAOD.root,AliAOD.Muons.root,AnalysisResults.root@disk=3"] >>
      output os "Arguments" (if final then "2" else "1") [] >>
      (if negb final
       then
         output os "InputFile" ("LF:" ++ fRemoteDir s ++ "/AODtrain.C") [] >>
         output os "OutputDir" (fRemoteDir s ++ "/$1/Stage_$2/#alien_counter_03i#") [] >>
         output os "InputDataCollection" (fRemoteDir s ++ "/$1/Stage_$2.xml,nodownload") [] >>
         output os "split" "se" [] >>
         output os "SplitMaxInputFileNumber" (GetSplitMaxInputFileNumber s) [] >>
         output os "InputDataListFormat" "xml-single" [] >>
         output os "InputDataList" "wn.xml" []
       else
         output os "InputFile" ("LF:" ++ fRemoteDir s ++ "/AODtrain.C")
           ["LF:" ++ fRemoteDir s ++ "/$1/wn.xml"] >>
         output os "OutputDir" (fRemoteDir s ++ "/$1") []) >>
      ret true
  end.

Definition remote_lfn (s : Submitter) (file : string) : string :=
  "LF:" ++ fRemoteDir s ++ "/" ++ file.

Definition listed_in_run_jdl (file : string) : bool :=
  (negb (TStr.ContainsNoCase file ".jdl") || negb (TStr.Contains file "OCDB_"))%bool.

Definition run_jdl_input_files (s : Submitter) (templates : list string) : list string :=
  let snapshots :=
    if fUseOCDBSnapshots s
    then [remote_lfn s "OCDB/$1/OCDB_sim.root"; remote_lfn s "OCDB/$1/OCDB_rec.root"]
    else [] in
  (map (remote_lfn s) (List.filter listed_in_run_jdl templates) ++ snapshots)%list.

Definition GenerateRunJDL (name : string) : Method bool :=
  AliDebug EmptyString >>
  let* os := CreateJDLFile name in
  match os with
  | None => ret false
  | Some os =>
      let* s := get_self in
      output os "Packages" (fPackageAliroot s)
        [fPackageGeant3 s; fPackageRoot s; fPackageApi s] >>
      output os "Jobtag" "comment: AliMuonAccEffSubmitter RUN $1" [] >>
      output os "split" "production:1-$2" [] >>
      output os "Price" "1" [] >>
      output os "OutputDir" (fRemoteDir s ++ "/$1/#alien_counter_03i#") [] >>
      output os "Executable" "/alice/bin/aliroot_new" [] >>
      let* templates := TemplateFileList in
      output_array os "InputFile" (run_jdl_input_files s templates) >>
      let logs := "log_archive.zip:stderr,stdout,aod.log,checkaod.log,checkesd.log,rec.log,sim.log@disk=1" in
      let* known :=
        if Z.eqb (fCompactMode s) 0
        then output os "OutputArchive" logs
               ["root_archive.zip:galice*.root,Kinematics*.root,TrackRefs*.root,AliESDs.root,AliAOD.root,AliAOD.Muons.root,Merged.QA.Data.root,Run*.root@disk=2"]
             >> ret true
        else if Z.eqb (fCompactMode s) 1
        then output os "OutputArchive" logs
               ["root_archive.zip:galice*.root,AliAOD.Muons.root@disk=2"]
             >> ret true
        else AliError ("Unknown CompactMode " ++ TStr.of_int (fCompactMode s)) >> ret false in
      if negb known then ret false else
      output os "splitarguments"
        "simrun.C --run $1 --chunk #alien_counter# --event $3" [] >>
      output os "Workdirectorysize" "5000MB" [] >>
      output os "JDLVariables" "Packages" ["OutputDir"] >>
      output os "Validationcommand" (fRemoteDir s ++ "/validation.sh") [] >>
      output os "TTL" "72000" [] >>
      ret true
  end.

(** *** CopyTemplateFilesToLocal *)

(** One iteration; the state is (err, potentialProblem). *)
Definition CopyTemplate_file (st : Z * bool) (file : string) : Method (Z * bool) :=
  let err := fst st in
  let* s := get_self in
  if TStr.Contains file "OCDB" then ret st else
  let* present :=
    if negb (fShouldOverwriteFiles s)
    then let* a := access_path_name file in ret (negb a)
    else ret false in
  if present
  then AliError ("Local file " ++ file
                 ++ " already exists. Remove it first if you want to update overwrite it")
       >> ret (err, true)
  else
    let stemplate := fTemplateDir s ++ "/" ++ file in
    let slocal := fLocalDir s ++ "/" ++ file in
    let* r := call (SysCopyFile stemplate slocal (fShouldOverwriteFiles s)) in
    let c := as_int r in
    let* c' :=
      if negb (Z.eqb c 0) then
        let* ok :=
          if TStr.ContainsNoCase stemplate ".jdl"
          then if TStr.ContainsNoCase stemplate "merge"
               then GenerateMergeJDL file
               else GenerateRunJDL file
          else ret false in
        if negb ok
        then AliError ("Error " ++ TStr.of_int c ++ " copying file " ++ stemplate) >> ret c
        else ret 0
      else
        let* hv := HasVars slocal in
        if hv then
          let* ok := ReplaceVars slocal in
          if negb ok then AliError "pb in ReplaceVars" >> ret 1 else ret c
        else ret c in
    ret (err + c', snd st).

Definition CopyTemplateFilesToLocal : Method bool :=
  let* valid := IsValid in
  if negb valid then ret false else
  AliDebug EmptyString >>
  let* files := TemplateFileList in
  let* st := fold_each files CopyTemplate_file (0, false) in
  if snd st
  then AliWarning "At least one local file could not be overwritten. Cross-check that the local files are OK before we try to upload them to the Grid !"
       >> ret false
  else ret (Z.eqb (fst st) 0).

(** *** Upload *)

(** TSystem::IsAbsoluteFileName on Unix. *)
Definition IsAbsoluteFileName (f : string) : bool := TStr.BeginsWith f "/".

Definition CopyFile (localFile : string) : Method bool :=
  let* s := get_self in
  let* local :=
    if IsAbsoluteFileName localFile then ret localFile
    else let* p := call (ExpandPathName localFile) in
         ret (fLocalDir s ++ "/" ++ as_str p) in
  let* missing := access_path_name local in
  if missing
  then AliError ("Local file " ++ local ++ " does not exist") >> ret false
  else
  let remote :=
    fRemoteDir s ++ "/"
    ++ (if IsAbsoluteFileName localFile
        then TStr.ReplaceAll localFile (fSnapshotDir s) EmptyString
        else localFile) in
  let dirName := Path.DirName remote in
  let* e := RemoteDirectoryExists dirName in
  let* ok :=
    if negb e
    then let* r := grid_call (GridMkdir dirName "-p") in ret (as_bool r)
    else ret true in
  if ok then
    AliDebug ("cp " ++ local ++ " alien://" ++ remote) >>
    let* r := call (TFileCp local ("alien://" ++ remote)) in ret (as_bool r)
  else ret false.

Definition CheckRemoteDir : Method bool :=
  let* s := get_self in
  if (String.length (fRemoteDir s) =? 0)%nat
  then AliError "you must provide the grid location where to copy the files" >> ret false
  else
  let* g := get_gGrid in
  let* connected :=
    if negb g then
      let* r := call (GridConnect "alien://") in
      if as_bool r then set_gGrid true >> ret true
      else AliError "Cannot connect to grid" >> ret false
    else ret true in
  if negb connected then ret false else
  let* e := RemoteDirectoryExists (fRemoteDir s) in
  if negb e
  then AliError ("directory " ++ fRemoteDir s ++ " does not exist") >> ret false
  else ret true.

Definition CopyLocalFilesToRemote : Method bool :=
  let* valid := IsValid in
  if negb valid then ret false else
  AliDebug EmptyString >>
  let* ok := CheckRemoteDir in
  if ok then
    let* s := get_self in
    call (ExpandPathName (fLocalDir s)) >>
    let* files := LocalFileList in
    fold_each files (fun allok ftc => and_then (ret allok) (CopyFile ftc)) true
  else ret false.

(** *** OCDB snapshots *)

Definition Snapshot_run (ok : bool) (runNumber : Z) : Method bool :=
  let* s := get_self in
  let ocdbSim := fSnapshotDir s ++ "/OCDB/" ++ TStr.of_int runNumber ++ "/OCDB_sim.root" in
  let ocdbRec := fSnapshotDir s ++ "/OCDB/" ++ TStr.of_int runNumber ++ "/OCDB_rec.root" in
  let* there :=
    and_then (let* a := access_path_name ocdbSim in ret (negb a))
             (let* a := access_path_name ocdbRec in ret (negb a)) in
  if there
  then AliWarning ("Local OCDB snapshots already there for run " ++ TStr.of_int runNumber
                   ++ ". Will not redo them. If you want to force them, delete them by hand !")
       >> ret ok
  else
    exec ("aliroot -b -q -x simrun.C --run " ++ TStr.of_int runNumber ++ " --snapshot") >>
    let* noSim := access_path_name ocdbSim in
    let* ok1 :=
      if noSim then AliError "Could not create OCDB snapshot for simulation" >> ret false
      else ret ok in
    let* noRec := access_path_name ocdbRec in
    let* ok2 :=
      if noRec then AliError "Could not create OCDB snapshot for reconstruction" >> ret false
      else ret ok1 in
    LocalFileList_Add ocdbSim >>
    LocalFileList_Add ocdbRec >>
    ret ok2.

Definition MakeOCDBSnapshots : Method bool :=
  let* valid := IsValid in
  if negb valid then ret false else
  let* s := get_self in
  if negb (fUseOCDBSnapshots s) then ret true else
  match fScalers s with
  | None => ret false
  | Some runs =>
      AliDebug EmptyString >>
      fold_each runs Snapshot_run true
  end.

(** *** Run *)

(** Run re-enters itself through mode names; [depth] bounds the nesting
    (FULL, then OCDB, then LOCAL is the deepest chain). *)
Fixpoint Run_depth (depth : nat) (mode : string) : Method bool :=
  match depth with
  | O => diverge
  | S d =>
      let Run := Run_depth d in
      let* valid := IsValid in
      if negb valid then ret false else
      let smode := TStr.ToUpper mode in
      if String.eqb smode "FULL"
      then and_then (Run "LOCAL")
             (and_then (Run "OCDB") (and_then (Run "UPLOAD") (Run "SUBMIT")))
      else if String.eqb smode "LOCAL" then CopyTemplateFilesToLocal
      else if String.eqb smode "UPLOAD" then CopyLocalFilesToRemote
      else if String.eqb smode "OCDB"
      then let* ok := Run "LOCAL" in
           if ok then MakeOCDBSnapshots else ret ok
      else if String.eqb smode "TEST"
      then let* ok := and_then (Run "LOCAL") (and_then (Run "OCDB") (Run "UPLOAD")) in
           if ok then let* n := Submit true in ret (Z.gtb n 0) else ret ok
      else if String.eqb smode "SUBMIT"
      then let* n := Submit false in ret (Z.gtb n 0)
      else ret false
  end.

Definition Run : string -> Method bool := Run_depth 3.

End Methods.

(** ** Worlds used in the scenarios *)

Module Scenario.

Definition named (key value : string) : Entry := MapEntry {[ key := ObjString value ]}.

(** A grid holding the merge directory and the directories of runs 1000
    and 1001; every file exists except archives and collections.  The
    answers to submit commands, the trigger scalers and the contents of
    local files are left open.  Shell commands exit with status 0. *)
Definition env (command : string -> option TGridResult) (scaler : Z -> option Z)
    (content : string -> list string) (u : unit) (c : Call) : Resp * unit :=
  (match c with
   | GridLs path option =>
       if String.eqb option "-F"
       then RResult (Some [named "name" "AODs/"; named "name" "1000/";
                           named "name" "1001/"])
       else if (TStr.Contains path ".zip" || TStr.Contains path ".xml")%bool
            then RResult (Some [])
            else RResult (Some [named "name" path])
   | GridCommand query => RResult (command query)
   | GetTriggerScaler run _ _ => RScaler (scaler run)
   | ReadLines file => RLines (content file)
   | ReadLine _ => RStr "5"
   | _ => RUnit
   end, u).

Definition accepted (query : string) : option TGridResult :=
  Some [named "jobId" "4242"].
Definition no_answer (query : string) : option TGridResult := None.
Definition no_job_id (query : string) : option TGridResult :=
  Some [named "jobId" "error"].

(** Run 1001 is turned down, the others are accepted. *)
Definition rejects_1001 (query : string) : option TGridResult :=
  if TStr.Contains query " 1001" then None else accepted query.

Definition scalers_500_800 (run : Z) : option Z :=
  if Z.eqb run 1000 then Some 500 else if Z.eqb run 1001 then Some 800 else None.
Definition no_scaler (run : Z) : option Z := None.

Definition empty_files (file : string) : list string := [].

(** Two merging stages are already on the grid. *)
Definition two_stages (file : string) : list string :=
  if String.eqb file "__stage__" then ["Stage_1/"; "Stage_2/"] else [].

(** A macro using a variable nobody defined. *)
Definition macro_with_unknown_var (file : string) : list string :=
  ["void Config()"; "{"; "  Int_t pdg = VAR_UNDEFINED_CODE;"; "}"].

Definition RunJDLName : string := "run.jdl".
Definition MergeJDLName (final : bool) : string :=
  if final then "AOD_merge_final.jdl" else "AOD_merge.jdl".
Definition GetSplitMaxInputFileNumber (s : Submitter) : string :=
  TStr.of_int (fSplitMaxInputFileNumber s).

(** Run list [1000, 1001], ratio 2.0, at most 600 events per chunk. *)
Definition submitter (valid : bool) (ratio : Double) : Submitter :=
  mkSubmitter (Some [1000; 1001]) "/alice/sim" "CMUL7-B-NOPF-MUON" ratio 10000 600
    "/home/user/work" "raw://" "/opt/AccEffTemplates"
    "VO_ALICE@AliRoot::v5-03-Rev-18" "VO_ALICE@ROOT::v5-34-05-1"
    "VO_ALICE@GEANT3::v1-14-8" EmptyString "/alice/sim/AODs" 20 1 false
    [("VAR_OCDB_PATH", "raw://"); ("VAR_GENERATOR", "GenParamCustom")]
    EmptyString true valid None
    (Some ["CheckESD.C"; "run.jdl"; "/home/user/work/OCDB/1000/OCDB_sim.root";
           "/home/user/work/OCDB/1000/OCDB_rec.root"])
    "/home/user/work" false.

Definition world (valid : bool) (ratio : Double) : World unit :=
  mkWorld tt [] true (submitter valid ratio).

(** The worlds of the scenarios: ratio 2.0 on a valid or an invalid
    object, and a fixed event count (ratio 0) on a valid one. *)
Definition valid_world : World unit := world true (2 # 1).

(** Every submission accepted, scalers 500 and 800. *)
Definition grid_ok : unit -> Call -> Resp * unit :=
  env accepted scalers_500_800 empty_files.
(** No submission gets an answer. *)
Definition grid_silent : unit -> Call -> Resp * unit :=
  env no_answer scalers_500_800 empty_files.
(** Run 1001 is turned down. *)
Definition grid_rejecting_1001 : unit -> Call -> Resp * unit :=
  env rejects_1001 scalers_500_800 empty_files.
(** Two merging stages done. *)
Definition grid_two_stages : unit -> Call -> Resp * unit :=
  env accepted scalers_500_800 two_stages.
(** Whatever is listed, the answer names one unrelated file. *)
Definition grid_unrelated_listing (u : unit) (c : Call) : Resp * unit :=
  (match c with
   | GridLs _ _ => RResult (Some [named "name" "unrelated.txt"])
   | _ => RUnit
   end, u).
(** Local macros use an undefined variable. *)
Definition grid_unknown_var : unit -> Call -> Resp * unit :=
  env accepted scalers_500_800 macro_with_unknown_var.

End Scenario.

(** ** A local disk *)

(** The local files as a set of paths: Unlink removes a path and tells
    whether it was there, AccessPathName tells whether a path is missing. *)
Definition local_disk (fs : gset string) (c : Call) : Resp * gset string :=
  match c with
  | Unlink path => (RInt (if bool_decide (path ∈ fs) then 0 else -1), fs ∖ {[ path ]})
  | AccessPathName path => (RBool (negb (bool_decide (path ∈ fs))), fs)
  | _ => (RUnit, fs)
  end.

(** ** Derived views of the object *)

(** The list LocalFileList() yields: the local list once it exists, else
    a clone of the template list. *)
Definition current_local_files (RunJDLName : string) (MergeJDLName : bool -> string)
    (s : Submitter) : list string :=
  match fLocalFileList s with
  | Some l => l
  | None =>
      match fTemplateFileList s with
      | Some l => l
      | None => default_template_files RunJDLName MergeJDLName s
      end
  end.

(** The name CleanLocal looks for. *)
Definition is_snapshot (file : string) : bool := TStr.Contains file "OCDB_".

(** ** Reading the record of calls *)

(** The "processing run" notes of Merge, one per iteration. *)
Definition processing_notes (new : list Event) : list string :=
  omap (fun e : Event =>
          match fst e with
          | Log LInfo msg =>
              if TStr.BeginsWith msg (nl ++ " --- processing run ") then Some msg else None
          | _ => None
          end) new.

(** The submit commands that came back without a decimal job id. *)
Definition rejected_queries (new : list Event) : list string :=
  omap (fun e : Event =>
          match fst e with
          | GridCommand query =>
              if merge_job_accepted (as_result (snd e)) then None else Some query
          | _ => None
          end) new.

(** The lines appended to the __failed__ file. *)
Definition failure_notes (new : list Event) : list string :=
  omap (fun e : Event =>
          match fst e with
          | Exec cmd => if TStr.BeginsWith cmd "echo " then Some cmd else None
          | _ => None
          end) new.

(** The grid commands issued. *)
Definition grid_commands (new : list Event) : list string :=
  omap (fun e : Event =>
          match fst e with
          | GridCommand query => Some query
          | _ => None
          end) new.

(** A stretch of calls that takes no part in the failure bookkeeping. *)
Definition quiet (new : list Event) : Prop :=
  processing_notes new = [] /\ rejected_queries new = [] /\ failure_notes new = []
  /\ grid_commands new = [].

(** What a method added to the record of calls; gGrid and the object are
    as before. *)
Definition extends {E} (w : World E) (new : list Event) (w' : World E) : Prop :=
  trace w' = (trace w ++ new)%list /\ gGrid w' = gGrid w /\ self w' = self w.

(** A method run from w to w' whose new calls carry the given processing
    notes, rejected submissions, failure notes and grid commands. *)
Definition steps {E} (w : World E) (P R F C : list string) (w' : World E) : Prop :=
  exists new,
    extends w new w'
    /\ processing_notes new = P /\ rejected_queries new = R
    /\ failure_notes new = F /\ grid_commands new = C.

(** A method that, started with gGrid set, returns and leaves gGrid set. *)
Definition safe {E A} (m : M E A) : Prop :=
  forall w, gGrid w = true -> exists a w', m w = Done a w' /\ gGrid w' = true.


(** ** The plan of Submit as a function of the scalers *)







(** ** Statements in the words of the specification *)





(** ** The configuration methods *)

(** *** Writing the fields *)

Definition set_fVars (v : list (string * string)) (s : Submitter) : Submitter :=
  mkSubmitter (fScalers s) (fRemoteDir s) (fReferenceTrigger s) (fRatio s)
    (fFixedNofEvents s) (fMaxEventsPerChunk s) (fLocalDir s) (fOCDBPath s)
    (fTemplateDir s) (fPackageAliroot s) (fPackageGeant3 s) (fPackageRoot s)
    (fPackageApi s) (fMergedDir s) (fSplitMaxInputFileNumber s) (fCompactMode s)
    (fShouldOverwriteFiles s) v (fExternalConfig s) (fUseOCDBSnapshots s)
    (fIsValid s) (fTemplateFileList s) (fLocalFileList s) (fSnapshotDir s)
    (fUseAODMerging s).

Definition set_fIsValid (b : bool) (s : Submitter) : Submitter :=
  mkSubmitter (fScalers s) (fRemoteDir s) (fReferenceTrigger s) (fRatio s)
    (fFixedNofEvents s) (fMaxEventsPerChunk s) (fLocalDir s) (fOCDBPath s)
    (fTemplateDir s) (fPackageAliroot s) (fPackageGeant3 s) (fPackageRoot s)
    (fPackageApi s) (fMergedDir s) (fSplitMaxInputFileNumber s) (fCompactMode s)
    (fShouldOverwriteFiles s) (fVars s) (fExternalConfig s) (fUseOCDBSnapshots s)
    b (fTemplateFileList s) (fLocalFileList s) (fSnapshotDir s) (fUseAODMerging s).

Definition set_fRemoteDir (d : string) (s : Submitter) : Submitter :=
  mkSubmitter (fScalers s) d (fReferenceTrigger s) (fRatio s)
    (fFixedNofEvents s) (fMaxEventsPerChunk s) (fLocalDir s) (fOCDBPath s)
    (fTemplateDir s) (fPackageAliroot s) (fPackageGeant3 s) (fPackageRoot s)
    (fPackageApi s) (fMergedDir s) (fSplitMaxInputFileNumber s) (fCompactMode s)
    (fShouldOverwriteFiles s) (fVars s) (fExternalConfig s) (fUseOCDBSnapshots s)
    (fIsValid s) (fTemplateFileList s) (fLocalFileList s) (fSnapshotDir s)
    (fUseAODMerging s).

Definition set_fMergedDir (d : string) (s : Submitter) : Submitter :=
  mkSubmitter (fScalers s) (fRemoteDir s) (fReferenceTrigger s) (fRatio s)
    (fFixedNofEvents s) (fMaxEventsPerChunk s) (fLocalDir s) (fOCDBPath s)
    (fTemplateDir s) (fPackageAliroot s) (fPackageGeant3 s) (fPackageRoot s)
    (fPackageApi s) d (fSplitMaxInputFileNumber s) (fCompactMode s)
    (fShouldOverwriteFiles s) (fVars s) (fExternalConfig s) (fUseOCDBSnapshots s)
    (fIsValid s) (fTemplateFileList s) (fLocalFileList s) (fSnapshotDir s)
    (fUseAODMerging s).

Definition set_fSnapshotDir (d : string) (s : Submitter) : Submitter :=
  mkSubmitter (fScalers s) (fRemoteDir s) (fReferenceTrigger s) (fRatio s)
    (fFixedNofEvents s) (fMaxEventsPerChunk s) (fLocalDir s) (fOCDBPath s)
    (fTemplateDir s) (fPackageAliroot s) (fPackageGeant3 s) (fPackageRoot s)
    (fPackageApi s) (fMergedDir s) (fSplitMaxInputFileNumber s) (fCompactMode s)
    (fShouldOverwriteFiles s) (fVars s) (fExternalConfig s) (fUseOCDBSnapshots s)
    (fIsValid s) (fTemplateFileList s) (fLocalFileList s) d (fUseAODMerging s).

Definition set_fUseOCDBSnapshots (b : bool) (s : Submitter) : Submitter :=
  mkSubmitter (fScalers s) (fRemoteDir s) (fReferenceTrigger s) (fRatio s)
    (fFixedNofEvents s) (fMaxEventsPerChunk s) (fLocalDir s) (fOCDBPath s)
    (fTemplateDir s) (fPackageAliroot s) (fPackageGeant3 s) (fPackageRoot s)
    (fPackageApi s) (fMergedDir s) (fSplitMaxInputFileNumber s) (fCompactMode s)
    (fShouldOverwriteFiles s) (fVars s) (fExternalConfig s) b
    (fIsValid s) (fTemplateFileList s) (fLocalFileList s) (fSnapshotDir s)
    (fUseAODMerging s).

Definition set_fUseAODMerging (b : bool) (s : Submitter) : Submitter :=
  mkSubmitter (fScalers s) (fRemoteDir s) (fReferenceTrigger s) (fRatio s)
    (fFixedNofEvents s) (fMaxEventsPerChunk s) (fLocalDir s) (fOCDBPath s)
    (fTemplateDir s) (fPackageAliroot s) (fPackageGeant3 s) (fPackageRoot s)
    (fPackageApi s) (fMergedDir s) (fSplitMaxInputFileNumber s) (fCompactMode s)
    (fShouldOverwriteFiles s) (fVars s) (fExternalConfig s) (fUseOCDBSnapshots s)
    (fIsValid s) (fTemplateFileList s) (fLocalFileList s) (fSnapshotDir s) b.


(** The four assignments of SetPackages(aliroot, root, geant3, api). *)
Definition set_packages (aliroot root geant3 api : string) (s : Submitter) : Submitter :=
  mkSubmitter (fScalers s) (fRemoteDir s) (fReferenceTrigger s) (fRatio s)
    (fFixedNofEvents s) (fMaxEventsPerChunk s) (fLocalDir s) (fOCDBPath s)
    (fTemplateDir s) aliroot geant3 root api (fMergedDir s)
    (fSplitMaxInputFileNumber s) (fCompactMode s)
    (fShouldOverwriteFiles s) (fVars s) (fExternalConfig s) (fUseOCDBSnapshots s)
    (fIsValid s) (fTemplateFileList s) (fLocalFileList s) (fSnapshotDir s)
    (fUseAODMerging s).

(** *** The TMap of variables

    The pairs are kept in the order the iterator of the map meets them. *)

(** TMap::Remove(key): the first pair with an equal key leaves. *)
Fixpoint TMap_Remove (key : string) (m : list (string * string)) : list (string * string) :=
  match m with
  | [] => []
  | (k, v) :: rest =>
      if String.eqb k key then rest else (k, v) :: TMap_Remove key rest
  end.

(** TMap::Add(key, value): the hash table decides where the iterator meets
    the new pair; [place] is its rank among the pairs already there. *)
Definition TMap_Add (place : nat) (key value : string) (m : list (string * string))
    : list (string * string) :=
  (firstn place m ++ (key, value) :: skipn place m)%list.

(** TMap::GetValue(key): the value of the first pair with an equal key,
    None for a null pointer. *)
Fixpoint TMap_GetValue (m : list (string * string)) (key : string) : option string :=
  match m with
  | [] => None
  | (k, v) :: rest => if String.eqb k key then Some v else TMap_GetValue rest key
  end.

(** *** The variables of a macro (the loops of GetVariables) *)

Definition is_var_char (c : ascii) : bool := (TStr.isalnum c || Ascii.eqb c "_")%bool.

(** while ((i2 < sline.Length()) && (isalnum(sline[i2]) || sline[i2]=='_'))
    ++i2, on the text from position i1 on: the characters passed, which
    are sline(i1,i2-i1). *)
Fixpoint take_var (rest : string) : string :=
  match rest with
  | EmptyString => EmptyString
  | String c r => if is_var_char c then String c (take_var r) else EmptyString
  end.

Fixpoint string_drop (n : nat) (s : string) : string :=
  match n, s with
  | O, _ => s
  | S n', String _ r => string_drop n' r
  | S _, EmptyString => EmptyString
  end.

(** variables->FindObject(var), then Add when it is not there. *)
Definition add_variable (var : string) (variables : option (list string)) : list string :=
  let found := match variables with Some l => l | None => [] end in
  if existsb (String.eqb var) found then found else (found ++ [var])%list.

(** The inner while of GetVariables on one line; None of the outer option
    when the fuel runs out.  The second option is the TObjArray pointer,
    null until a first variable is met. *)
Fixpoint variables_in_line (k : nat) (sline : string) (variables : option (list string))
    : option (option (list string)) :=
  if (TStr.Contains sline "VAR_" && negb (TStr.BeginsWith sline "//"))%bool then
    match k with
    | O => None
    | S k' =>
        match TStr.Index sline "VAR_" with
        | Some i1 =>
            let var := take_var (string_drop i1 sline) in
            variables_in_line k' (TStr.ReplaceAll sline var EmptyString)
              (Some (add_variable var variables))
        | None => None
        end
    end
  else Some variables.

Fixpoint variables_in_lines (k : nat) (content : list string)
    (variables : option (list string)) : option (option (list string)) :=
  match content with
  | [] => Some variables
  | line :: rest =>
      match variables_in_line k line variables with
      | None => None
      | Some variables' => variables_in_lines k rest variables'
      end
  end.

(** *** Calls into the ROOT interpreter *)

Inductive Interpreter :=
| Load (lib : string)                (* gSystem->Load *)
| AddIncludePath (path : string)     (* gSystem->AddIncludePath *)
| LoadMacro (file : string).         (* gROOT->LoadMacro *)

Section Configuration.

Context {ExtState : Type}.
Variable env : ExtState -> Call -> Resp * ExtState.

(** The interpreter answers with an int status and may change the world;
    these calls are not part of the record of grid and shell calls. *)
Variable interp : ExtState -> Interpreter -> Z * ExtState.

Variable fuel : nat.
Variable RunJDLName : string.
Variable MergeJDLName : bool -> string.

(** The rank the hash table gives a new key among the pairs of the map. *)
Variable hash_place : string -> list (string * string) -> nat.

(** Default arguments declared in AliMuonAccEffSubmitter.h: the api
    package of SetPackages and clearSnapshots of UpdateLocalFileList. *)
Variable default_api : string.
Variable default_clearSnapshots : bool.

Abbreviation Method := (M ExtState).

Definition interp_call (c : Interpreter) : Method Z := fun w =>
  let '(rc, e') := interp (ext w) c in
  Done rc (mkWorld e' (trace w) (gGrid w) (self w)).

(** *** SetVar *)

Definition SetVar (varname value : string) : Method bool :=
  let s := TStr.ToUpper varname in
  if negb (TStr.BeginsWith s "VAR_")
  then AliError env "Variable name should start with VAR_" >> ret false
  else
    modify_self (fun o =>
      let removed := TMap_Remove s (fVars o) in
      set_fVars (TMap_Add (hash_place s removed) s value removed) o) >>
    ret true.

(** *** The file lists *)

(** TemplateFileList()->Add(new TObjString(f)) *)
Definition TemplateFileList_Add (f : string) : Method unit :=
  let* l := TemplateFileList RunJDLName MergeJDLName in
  modify_self (set_fTemplateFileList (Some (l ++ [f])%list)).

(** Form("%s/OCDB/%d/OCDB_%s.root",SnapshotDir().Data(),runNumber,type) *)
Definition snapshot_path (s : Submitter) (runNumber : Z) (type : string) : string :=
  fSnapshotDir s ++ "/OCDB/" ++ TStr.of_int runNumber ++ "/OCDB_" ++ type ++ ".root".

Definition UpdateLocalFileList (clearSnapshots : bool) : Method unit :=
  let* s := get_self in
  match fScalers s with
  | None => ret tt
  | Some runs =>
      (if clearSnapshots
       then
         let* files := LocalFileList RunJDLName MergeJDLName in
         modify_self (set_fLocalFileList
                        (Some (List.filter (fun file => negb (TStr.Contains file "OCDB_"))
                                 files)))
       else ret tt) >>
      for_each runs (fun runNumber =>
        for_each ["sim"; "rec"] (fun type =>
          let snapshot := snapshot_path s runNumber type in
          let* missing := access_path_name env snapshot in
          if negb missing then
            let* files := LocalFileList RunJDLName MergeJDLName in
            if negb (existsb (String.eqb snapshot) files)
            then LocalFileList_Add RunJDLName MergeJDLName snapshot
            else ret tt
          else ret tt))
  end.

Definition UseOCDBSnapshots (flag : bool) : Method unit :=
  modify_self (set_fUseOCDBSnapshots flag) >>
  (if flag
   then SetVar "VAR_OCDB_SNAPSHOT" "kTRUE"
   else SetVar "VAR_OCDB_SNAPSHOT" "kFALSE") >>
  UpdateLocalFileList default_clearSnapshots.

Definition UseAODMerging (flag : bool) : Method unit :=
  modify_self (set_fUseAODMerging flag).

Definition SetPackages (aliroot root geant3 api : string) : Method unit :=
  modify_self (set_packages aliroot root geant3 api).

Definition SetOCDBSnapshotDir (dir : string) : Method unit :=
  let* missing := access_path_name env (dir ++ "/OCDB") in
  if missing
  then AliError env ("Snapshot top directory (" ++ dir
                     ++ ") should contain an OCDB subdir with runnumbers in there")
  else modify_self (set_fSnapshotDir dir).

(** UInt_t NofRuns() *)
Definition NofRuns (s : Submitter) : Z :=
  match fScalers s with
  | None => 0
  | Some runs => Z.of_nat (length runs)
  end.

(** *** Local and remote checks *)

(** The while of CheckLocal, left at the first file that cannot be
    accessed. *)
Fixpoint CheckLocal_files (files : list string) : Method bool :=
  match files with
  | [] => ret true
  | file :: rest =>
      let* missing := access_path_name env file in
      if missing then ret false else CheckLocal_files rest
  end.

Definition CheckLocal : Method bool :=
  let* files := LocalFileList RunJDLName MergeJDLName in
  CheckLocal_files files.

Definition CheckRemote : Method bool :=
  AliWarning env "implement me" >> ret false.

Definition CleanRemote : Method unit :=
  AliWarning env "implement me".

(** *** The remote directories *)

Definition GetRemoteDir (dir : string) (create : bool) : Method string :=
  let* e := RemoteDirectoryExists env dir in
  if negb e then
    if negb create
    then AliError env ("Remote directory " ++ dir ++ " does not exist") >>
         ret EmptyString
    else
      AliInfo env ("Remote directory " ++ dir
                   ++ " does not exist. Trying to create it...") >>
      let* r := grid_call env (GridMkdir dir "-p") in
      if negb (as_bool r)
      then AliError env "Could not create remote dir. Sorry." >> ret EmptyString
      else ret dir
  else ret dir.

Definition SetMergedDir (dir : string) (create : bool) : Method bool :=
  let* d := GetRemoteDir dir create in
  modify_self (set_fMergedDir d) >>
  ret (0 <? String.length d)%nat.

Definition SetRemoteDir (dir : string) (create : bool) : Method bool :=
  let* d := GetRemoteDir dir create in
  modify_self (set_fRemoteDir d) >>
  let valid := (0 <? String.length d)%nat in
  modify_self (set_fIsValid valid) >>
  ret valid.

(** *** The generator macro *)

Definition GetVariables (file : string) : Method (option (list string)) :=
  let* r := call env (ReadLines file) in
  match variables_in_lines fuel (getlines (as_lines r)) None with
  | None => diverge
  | Some variables => ret variables
  end.

Definition CheckCompilation (file : string) : Method bool :=
  let sfile := Path.BaseName file in
  let tmpfile := "tmpfile_" ++ sfile in
  exec env ("cp " ++ file ++ " " ++ tmpfile) >>
  ReplaceVars env fuel tmpfile >>
  interp_call (AddIncludePath "-I$ALICE_ROOT/include") >>
  interp_call (AddIncludePath "-I$ALICE_ROOT/EVGEN") >>
  let* rc := interp_call (LoadMacro (tmpfile ++ "++")) in
  let* rv :=
    if negb (Z.eqb rc 0)
    then AliError env ("macro " ++ file ++ " can not be compiled. Please check.") >>
         ret false
    else ret true in
  exec env ("rm " ++ tmpfile) >>
  ret rv.

(** The loop of SetGenerator over the variables of the macro: the number
    of those the map does not define.  fVars is not null here, the
    constructor has stored VAR_OCDB_PATH before any call. *)
Definition count_missing (generatorFile : string) (variables : list string) : Method Z :=
  fold_each variables (fun nofMissingVariables var =>
    let* s := get_self in
    match TMap_GetValue (fVars s) var with
    | None =>
        AliError env ("file " ++ generatorFile ++ " expect the variable " ++ var
                      ++ " to be defined, but we've not defined it !") >>
        ret (nofMissingVariables + 1)
    | Some _ => ret nofMissingVariables
    end) 0.

Definition SetGenerator (generator : string) : Method bool :=
  interp_call (Load "libEVGEN") >>
  modify_self (set_fIsValid false) >>
  let* s := get_self in
  let generatorFile := fTemplateDir s ++ "/" ++ generator ++ ".C" in
  let* missing := access_path_name env generatorFile in
  if negb missing then
    let* variables := GetVariables generatorFile in
    let* nofMissingVariables :=
      count_missing generatorFile
        (match variables with Some l => l | None => [] end) in
    if Z.eqb nofMissingVariables 0 then
      let* compiled := CheckCompilation generatorFile in
      if compiled then
        modify_self (set_fIsValid true) >>
        SetVar "VAR_GENERATOR" generator >>
        TemplateFileList_Add (generator ++ ".C") >>
        ret true
      else ret false
    else ret false
  else
    AliError env ("Can not work with the macro " ++ generatorFile) >>
    ret false.

(** *** The body of the constructor *)

Definition Construct (generator : string) : Method unit :=
  let* r := call env (GridConnect "alien://") in
  (if as_bool r then set_gGrid true
   else AliError env "cannot connect to grid" >> modify_self (set_fIsValid false)) >>
  SetPackages "VO_ALICE@AliRoot::v5-03-Rev-18" "VO_ALICE@GEANT3::v1-14-8"
    "VO_ALICE@ROOT::v5-34-05-1" default_api >>
  SetVar "VAR_OCDB_PATH" (quoted "raw://") >>
  SetVar "VAR_GENPARAM_GENLIB_TYPE" "AliGenMUONlib::kJpsi" >>
  SetVar "VAR_GENPARAM_GENLIB_PARNAME" (quoted "pPb 5.03") >>
  SetVar "VAR_GENCORRHF_QUARK" "5" >>
  SetVar "VAR_GENCORRHF_ENERGY" "5" >>
  SetVar "VAR_GENPARAMCUSTOM_PDGPARTICLECODE" "443" >>
  SetVar "VAR_GENPARAMCUSTOM_Y_P0" "4.08E5" >>
  SetVar "VAR_GENPARAMCUSTOM_Y_P1" "7.1E4" >>
  SetVar "VAR_GENPARAMCUSTOM_PT_P0" "1.13E9" >>
  SetVar "VAR_GENPARAMCUSTOM_PT_P1" "18.05" >>
  SetVar "VAR_GENPARAMCUSTOM_PT_P2" "2.05" >>
  SetVar "VAR_GENPARAMCUSTOM_PT_P3" "3.34" >>
  SetVar "VAR_GENPARAMCUSTOMSINGLE_PTMIN" "0.35" >>
  SetVar "VAR_GENPARAMCUSTOMSINGLE_PT_P0" "4.05962" >>
  SetVar "VAR_GENPARAMCUSTOMSINGLE_PT_P1" "1.0" >>
  SetVar "VAR_GENPARAMCUSTOMSINGLE_PT_P2" "2.46187" >>
  SetVar "VAR_GENPARAMCUSTOMSINGLE_PT_P3" "2.08644" >>
  SetVar "VAR_GENPARAMCUSTOMSINGLE_Y_P0" "0.729545" >>
  SetVar "VAR_GENPARAMCUSTOMSINGLE_Y_P1" "0.53837" >>
  SetVar "VAR_GENPARAMCUSTOMSINGLE_Y_P2" "0.141776" >>
  SetVar "VAR_GENPARAMCUSTOMSINGLE_Y_P3" "0.0130173" >>
  UseOCDBSnapshots true >>
  SetGenerator generator >>
  ret tt.

End Configuration.


(** ** What a method may touch *)

(** Every run of the method that returns makes only calls of the class
    P, takes the object to one related to it by R and leaves gGrid as it
    was. *)
Definition confined {E A} (P : Call -> Prop) (R : Submitter -> Submitter -> Prop)
    (m : M E A) : Prop :=
  forall w a w',
    m w = Done a w' ->
    R (self w) (self w') /\ gGrid w' = gGrid w
    /\ exists new, trace w' = (trace w ++ new)%list /\ Forall (fun e => P (fst e)) new.

(** Every character of the text is a letter, a digit or an underscore. *)
Fixpoint var_chars (s : string) : bool :=
  match s with
  | EmptyString => true
  | String c r => (is_var_char c && var_chars r)%bool
  end.

(** What the scan of GetVariables keeps true of its array. *)
Definition variables_ok (variables : option (list string)) : Prop :=
  match variables with
  | None => True
  | Some l =>
      l <> [] /\ NoDup l
      /\ Forall (fun var => TStr.BeginsWith var "VAR_" = true /\ var_chars var = true) l
  end.

(** What every map of variables built by SetVar satisfies: the keys are
    distinct, in upper case and begin with VAR_. *)
Definition vars_ok (m : list (string * string)) : Prop :=
  NoDup (map fst m)
  /\ Forall (fun kv => TStr.ToUpper (fst kv) = fst kv
                       /\ TStr.BeginsWith (fst kv) "VAR_" = true) m.

(** The calls ReplaceVars makes on a file. *)
Definition rewrites (file : string) (c : Call) : Prop :=
  c = ReadLines file \/ c = CreateStream file \/ exists text, c = StreamWrite file text.


(** The calls of CheckCompilation: the copy, the substitution in the copy,
    the complaint and the removal of the copy. *)
Definition compiles (file : string) (c : Call) : Prop :=
  let tmpfile := "tmpfile_" ++ Path.BaseName file in
  c = Exec ("cp " ++ file ++ " " ++ tmpfile)
  \/ rewrites tmpfile c
  \/ c = Log LError ("macro " ++ file ++ " can not be compiled. Please check.")
  \/ c = Exec ("rm " ++ tmpfile).


(** The object without its two file lists, and without its map of
    variables. *)
Definition no_lists (s : Submitter) : Submitter :=
  set_fTemplateFileList None (set_fLocalFileList None s).

Definition no_vars (s : Submitter) : Submitter := set_fVars [] s.

(** The relation "f is unchanged" between two states of the object. *)
Definition keeps {X : Type} (f : Submitter -> X) (s s' : Submitter) : Prop := f s' = f s.

(** The list TemplateFileList() yields. *)
Definition current_template_files (RunJDLName : string) (MergeJDLName : bool -> string)
    (s : Submitter) : list string :=
  match fTemplateFileList s with
  | Some l => l
  | None => default_template_files RunJDLName MergeJDLName s
  end.

(** ** More scenarios *)

Module Setup.

(** Every macro compiles and every library loads. *)
Definition interp_ok (u : unit) (c : Interpreter) : Z * unit := (0, u).

(** No macro compiles. *)
Definition interp_failing (u : unit) (c : Interpreter) : Z * unit :=
  (match c with LoadMacro _ => 1 | _ => 0 end, u).

(** A map that lets its iterator meet the keys in the order they came. *)
Definition in_order (key : string) (m : list (string * string)) : nat := length m.

(** A generator macro that uses two variables of the constructor. *)
Definition generator_macro (file : string) : list string :=
  ["// the particle is VAR_GENPARAMCUSTOM_PDGPARTICLECODE";
   "AliGenerator* GenParamCustom()";
   "{";
   "  AliGenParam* g = new AliGenParam(1,VAR_GENPARAMCUSTOM_PDGPARTICLECODE);";
   "  g->SetPtRange(VAR_GENPARAMCUSTOM_PT_P1,VAR_GENPARAMCUSTOM_PT_P1);";
   "  return g;";
   "}"].

(** The local files hold that macro; nothing answers on the grid side. *)
Definition workstation : unit -> Call -> Resp * unit :=
  Scenario.env Scenario.no_answer Scenario.no_scaler generator_macro.

(** The object as the member initialisers leave it, in a session started
    in /home/user/work with the templates in /opt/AccEffTemplates. *)
Definition fresh_object : Submitter :=
  mkSubmitter None EmptyString EmptyString (1 # 1) 10000 5000
    "/home/user/work" "raw://" "/opt/AccEffTemplates"
    EmptyString EmptyString EmptyString EmptyString "/AODs" 20 1 false
    [] EmptyString true false None None "/home/user/work" false.

(** No grid connection yet. *)
Definition fresh_world : World unit := mkWorld tt [] false fresh_object.

(** An object that knows the two variables of the macro. *)
Definition configured_world : World unit :=
  mkWorld tt [] true
    (set_fVars [("VAR_GENPARAMCUSTOM_PDGPARTICLECODE", "443");
                ("VAR_GENPARAMCUSTOM_PT_P1", "18.05")]
       (Scenario.submitter false (2 # 1))).

(** A valid object in a session without grid connection. *)
Definition offline_world : World unit :=
  mkWorld tt [] false (Scenario.submitter true (2 # 1)).

(** A system where no local file exists yet and TSystem::CopyFile answers
    by codes of both signs for two of the templates. *)
Definition copy_codes (u : unit) (c : Call) : Resp * unit :=
  (match c with
   | AccessPathName _ => RBool true
   | SysCopyFile src _ _ =>
       if TStr.Contains src "CheckESD" then RInt 1
       else if TStr.Contains src "CheckAOD" then RInt (-1)
       else RInt 0
   | _ => RUnit
   end, u).

(** A grid that holds the directory /alice/sim and nothing below it, where
    directories can be made and files copied. *)
Definition grid_store (u : unit) (c : Call) : Resp * unit :=
  (match c with
   | GridLs path _ =>
       RResult (Some (if String.eqb path "/alice"
                      then [Scenario.named "name" "sim/"] else []))
   | GridMkdir _ _ => RBool true
   | TFileCp _ _ => RBool true
   | _ => RUnit
   end, u).

(** A valid object on a disk without any file. *)
Definition empty_disk_world : World (gset string) :=
  mkWorld ∅ [] true (Scenario.submitter true (2 # 1)).


End Setup.

(** The two snapshot files of each run, in the order the loops visit
    them. *)
Definition snapshot_paths (s : Submitter) (runs : list Z) : list string :=
  flat_map (fun runNumber => [snapshot_path s runNumber "sim";
                              snapshot_path s runNumber "rec"]) runs.

(** Form("aliroot -b -q -x simrun.C --run %d --snapshot",runNumber) *)
Definition snapshot_command (runNumber : Z) : string :=
  "aliroot -b -q -x simrun.C --run " ++ TStr.of_int runNumber ++ " --snapshot".

(** The shell commands in a record of calls. *)
Definition executed (new : list Event) : list string :=
  omap (fun e : Event => match fst e with Exec cmd => Some cmd | _ => None end) new.

(** What UpdateLocalFileList makes of one snapshot path on a disk fs:
    the path joins the list when it is on the disk and not yet listed. *)
Definition add_present (fs : gset string) (l : list string) (p : string) : list string :=
  if (bool_decide (p ∈ fs) && negb (existsb (String.eqb p) l))%bool
  then (l ++ [p])%list else l.

(** Both snapshot files of a run are on the disk. *)
Definition snapshots_present (fs : gset string) (s : Submitter) (runNumber : Z) : bool :=
  (bool_decide (snapshot_path s runNumber "sim" ∈ fs)
   && bool_decide (snapshot_path s runNumber "rec" ∈ fs))%bool.

(** The four package fields, in the order of the parameters of
    SetPackages. *)
Definition packages (s : Submitter) : string * string * string * string :=
  (fPackageAliroot s, fPackageRoot s, fPackageGeant3 s, fPackageApi s).

(** The AliError messages in a record of calls. *)
Definition errors (new : list Event) : list string :=
  omap (fun e : Event => match fst e with Log LError msg => Some msg | _ => None end) new.

(** The texts sent to output streams. *)
Definition written (new : list Event) : list string :=
  omap (fun e : Event => match fst e with StreamWrite _ text => Some text | _ => None end)
    new.

(** The answers of TSystem::CopyFile. *)
Definition copy_answers (new : list Event) : list Z :=
  omap (fun e : Event =>
          match fst e with SysCopyFile _ _ _ => Some (as_int (snd e)) | _ => None end) new.

(** What one round, or a run of rounds, of the loop of
    CopyTemplateFilesToLocal does to (err, potentialProblem), in terms of
    the messages and of the answers of TSystem::CopyFile it has met. *)
Definition copy_report (st st' : Z * bool) (new : list Event) : Prop :=
  (snd st = true -> snd st' = true)
  /\ (snd st' = true -> snd st = true \/ errors new <> [])
  /\ (fst st' <> fst st -> errors new <> [])
  /\ (Forall (fun c => c <= 0) (copy_answers new) ->
      fst st' <= fst st
      /\ (fst st' = fst st -> snd st' = false -> errors new = [])).


(** The number of lines read from the terminal in a record of calls. *)
Definition questions (new : list Event) : nat :=
  length (omap (fun e : Event => match fst e with StdinGets => Some tt | _ => None end)
            new).

(** The reply carried from run to run by Merge settles the question. *)
Definition answered (reply : string) : bool :=
  (TStr.BeginsWith reply "y" || TStr.BeginsWith reply "n")%bool.

(** The record of calls has grown from w to w', and the terminal was read
    n times on the way. *)
Definition grown {E} (w w' : World E) (n : nat) : Prop :=
  exists new, trace w' = (trace w ++ new)%list /\ questions new = n.

(** The name CopyFile gives a local file on the grid: the remote
    directory, a slash, and the file name, from which the snapshot directory
    is cut out when it is absolute. *)
Definition remote_name (s : Submitter) (localFile : string) : string :=
  fRemoteDir s ++ "/"
  ++ (if IsAbsoluteFileName localFile
      then TStr.ReplaceAll localFile (fSnapshotDir s) EmptyString
      else localFile).

(** The targets of the TFile::Cp calls in a record of calls, with their
    answers. *)
Definition copied (new : list Event) : list (string * bool) :=
  omap (fun e : Event =>
          match fst e with TFileCp _ dst => Some (dst, as_bool (snd e)) | _ => None end)
    new.

(** * Properties *)

Local Open Scope Z_scope.

(** ** Chunk planning *)

Lemma Qgtb_plus_half (q m : Z) :
  Qgtb (inject_Z q + half)%Q (inject_Z m) = (m <=? q).
Proof.
  unfold Qgtb.
  destruct (Qle_bool (inject_Z q + half) (inject_Z m)) eqn:E.
  - apply Qle_bool_iff in E. unfold Qle, half in E. cbn in E.
    symmetry. apply Z.leb_gt. lia.
  - symmetry. apply Z.leb_le.
    destruct (Z_lt_le_dec q m) as [H|H]; [|exact H].
    exfalso. assert (Qle_bool (inject_Z q + half) (inject_Z m) = true) as E'.
    { apply Qle_bool_iff. unfold Qle, half. cbn. lia. }
    congruence.
Qed.

Lemma chunk_loop_step (fuel : nat) (n m k : Z) :
  chunk_loop (S fuel) n m k =
  if m <=? Z.quot n k then chunk_loop fuel n m (k + 1) else Some k.
Proof. cbn [chunk_loop]. unfold chunk_size_plus_half. now rewrite Qgtb_plus_half. Qed.



(** More fuel never changes an answer already reached. *)
Lemma chunk_loop_fuel_mono (n m : Z) (fuel : nat) :
  forall k c, chunk_loop fuel n m k = Some c -> chunk_loop (S fuel) n m k = Some c.
Proof.
  induction fuel as [|fuel IH]; intros k c H; [discriminate|].
  rewrite chunk_loop_step in H. rewrite chunk_loop_step.
  destruct (m <=? Z.quot n k); [apply IH|]; exact H.
Qed.





(** ** JDL key emission *)












(** ** The monad *)

Section MonadFacts.
Context {E : Type}.

Lemma bind_Done {A B} (m : M E A) (k : A -> M E B) (w w' : World E) (a : A) :
  m w = Done a w' -> bind m k w = k a w'.
Proof. unfold bind. now intros ->. Qed.

Lemma bind_inv {A B} (m : M E A) (k : A -> M E B) (w w'' : World E) (b : B) :
  bind m k w = Done b w'' -> exists a w', m w = Done a w' /\ k a w' = Done b w''.
Proof. unfold bind. destruct (m w) as [a w'| |]; try discriminate. eauto. Qed.

Lemma bind_assoc_Done {A B C} (m : M E A) (k : A -> M E B) (h : B -> M E C)
    (w : World E) :
  bind (bind m k) h w = bind m (fun a => bind (k a) h) w.
Proof. unfold bind. now destruct (m w). Qed.

End MonadFacts.

Lemma extends_refl {E} (w : World E) : extends w [] w.
Proof. unfold extends. now rewrite app_nil_r. Qed.

Lemma extends_trans {E} (w1 w2 w3 : World E) (n1 n2 : list Event) :
  extends w1 n1 w2 -> extends w2 n2 w3 -> extends w1 (n1 ++ n2)%list w3.
Proof.
  intros (T1 & G1 & S1) (T2 & G2 & S2). unfold extends.
  rewrite T2, T1, G2, G1, S2, S1, app_assoc. auto.
Qed.

Section CallFacts.
Context {E : Type}.
Variable env : E -> Call -> Resp * E.

Lemma call_Done (c : Call) (w : World E) :
  exists r w', call env c w = Done r w' /\ r = fst (env (ext w) c)
               /\ extends w [(c, r)] w'.
Proof.
  unfold call. destruct (env (ext w) c) as [r e'].
  eexists _, _. split; [reflexivity|]. split; [reflexivity|].
  unfold extends. cbn. auto.
Qed.
End CallFacts.

(** ** Validity gating *)




(** ** Remote existence checks *)

Lemma listing_has_name_In (dir : string) (res : TGridResult) :
  listing_has_name dir res = true ->
  exists m obj, In (MapEntry m) res /\ m !! "name" = Some obj /\ GetName obj = dir.
Proof.
  induction res as [|e res IH]; [discriminate|].
  destruct e as [m|]; [|discriminate]. cbn [listing_has_name].
  destruct (m !! "name") as [obj|] eqn:Hname; [|discriminate].
  destruct (String.eqb_spec dir (GetName obj)) as [Heq|Hne].
  - intros _. exists m, obj. split; [now left|]. auto.
  - intros H. destruct (IH H) as (m' & obj' & Hin & Hn & Hg).
    exists m', obj'. split; [now right|]. auto.
Qed.

Lemma first_entry_named_spec (res : TGridResult) :
  first_entry_named res = true <->
  exists rest m objs,
    res = MapEntry m :: rest /\ m !! "name" = Some (ObjString objs)
    /\ objs <> EmptyString.
Proof.
  unfold first_entry_named. split.
  - destruct res as [|[m|] rest]; try discriminate. cbn.
    destruct (m !! "name") as [[objs|]|] eqn:Hname; try discriminate.
    intros H. exists rest, m, objs. repeat split; auto.
    intros ->. discriminate.
  - intros (rest & m & objs & -> & Hname & Hne). cbn. rewrite Hname.
    destruct objs; [congruence|reflexivity].
Qed.

(** C4 (amended).  Both checks always return.  RemoteDirectoryExists
    answers true only when gGrid is set and the listing of the parent
    directory holds a TMap whose name value equals the base name of the
    stripped path followed by a slash.  RemoteFileExists compares no name:
    it answers true exactly when gGrid is set and the first element of the
    listing of the path is a TMap whose name value is a non empty
    TObjString. *)
Theorem remote_existence_checks {E : Type} (env : E -> Call -> Resp * E) (w : World E) :
  (forall dirname, exists b w',
      RemoteDirectoryExists env dirname w = Done b w'
      /\ (b = true ->
          gGrid w = true /\
          exists res m obj,
            as_result (fst (env (ext w)
                              (GridLs (Path.DirName (stripped_dir dirname)) "-F")))
            = Some res
            /\ In (MapEntry m) res /\ m !! "name" = Some obj
            /\ GetName obj = (Path.BaseName (stripped_dir dirname) ++ "/")%string))
  /\ (forall lfn, exists b w',
      RemoteFileExists env lfn w = Done b w'
      /\ (b = true <->
          gGrid w = true /\
          exists rest m objs,
            as_result (fst (env (ext w) (GridLs lfn EmptyString)))
            = Some (MapEntry m :: rest)
            /\ m !! "name" = Some (ObjString objs) /\ objs <> EmptyString)).
Proof.
  split.
  - intros dirname. unfold RemoteDirectoryExists, bind, get_gGrid, call, ret.
    destruct (gGrid w) eqn:Hg; cbn [negb].
    + destruct (env (ext w) _) as [r e'] eqn:Henv. cbn [fst].
      destruct (as_result r) as [res|] eqn:Hres.
      * eexists _, _. split; [reflexivity|]. intros Hb. split; [reflexivity|].
        destruct (listing_has_name_In _ _ Hb) as (m & obj & Hin & Hn & Hname).
        exists res, m, obj. auto.
      * eexists _, _. split; [reflexivity|]. discriminate.
    + eexists _, _. split; [reflexivity|]. discriminate.
  - intros lfn. unfold RemoteFileExists, bind, get_gGrid, call, ret.
    destruct (gGrid w) eqn:Hg; cbn [negb].
    + destruct (env (ext w) _) as [r e'] eqn:Henv. cbn [fst].
      destruct (as_result r) as [res|] eqn:Hres.
      * eexists _, _. split; [reflexivity|]. split.
        -- intros Hb. split; [reflexivity|].
           apply first_entry_named_spec in Hb as (rest & m & objs & -> & Hn & Hne).
           exists rest, m, objs. auto.
        -- intros (_ & rest & m & objs & Heq & Hn & Hne).
           apply first_entry_named_spec. exists rest, m, objs.
           split; [congruence|auto].
      * eexists _, _. split; [reflexivity|]. split; [discriminate|].
        intros (_ & rest & m & objs & Heq & _). discriminate.
    + eexists _, _. split; [reflexivity|]. split; [discriminate|].
      intros (Hf & _). discriminate.
Qed.

(** C4 as stated fails for RemoteFileExists: asked for
    /alice/sim/run.jdl, it answers true on a listing whose only name is
    unrelated.txt. *)
Lemma file_check_accepts_other_name :
  exists w',
    RemoteFileExists Scenario.grid_unrelated_listing "/alice/sim/run.jdl"
      Scenario.valid_world = Done true w'
    /\ map fst (trace w') = [GridLs "/alice/sim/run.jdl" EmptyString]
    /\ as_result (fst (Scenario.grid_unrelated_listing tt
                         (GridLs "/alice/sim/run.jdl" EmptyString)))
       = Some [Scenario.named "name" "unrelated.txt"]
    /\ "unrelated.txt" <> Path.BaseName "/alice/sim/run.jdl".
Proof.
  eexists. split; [vm_compute; reflexivity|].
  split; [reflexivity|]. split; [reflexivity|].
  vm_compute. discriminate.
Qed.

(** ** Cleaning local files *)

Section Cleaning.
Context {E : Type}.
Variable env : E -> Call -> Resp * E.
Variable RunJDLName : string.
Variable MergeJDLName : bool -> string.

Lemma LocalFileList_Done (w : World E) :
  exists w',
    LocalFileList RunJDLName MergeJDLName w
    = Done (current_local_files RunJDLName MergeJDLName (self w)) w'
    /\ trace w' = trace w /\ ext w' = ext w.
Proof.
  unfold LocalFileList, TemplateFileList, current_local_files, bind, get_self,
    modify_self, ret.
  destruct (fLocalFileList (self w)); [eauto|].
  destruct (fTemplateFileList (self w)); cbn; eauto.
Qed.

(** The loop of CleanLocal(kFALSE) unlinks the files without the marker,
    in list order, and does nothing else. *)
Lemma unlink_loop (files : list string) :
  forall w : World E, exists w' new,
    for_each files (fun file =>
      if (negb false && TStr.Contains file "OCDB_")%bool then ret tt
      else bind (call env (Unlink file)) (fun _ => ret tt)) w = Done tt w'
    /\ trace w' = (trace w ++ new)%list
    /\ map fst new = map Unlink (List.filter (fun f => negb (is_snapshot f)) files).
Proof.
  induction files as [|f files IH]; intros w.
  - exists w, []. cbn. now rewrite app_nil_r.
  - cbn [for_each List.filter]. unfold is_snapshot at 1. cbn [negb andb].
    destruct (TStr.Contains f "OCDB_") eqn:Hf; cbn [negb].
    + destruct (IH w) as (w' & new & Hrun & Htr & Hnew).
      exists w', new. unfold bind at 1, ret at 1. auto.
    + destruct (call_Done env (Unlink f) w) as (r & w1 & Hcall & _ & Hext).
      destruct (IH w1) as (w' & new & Hrun & Htr & Hnew).
      exists w', ((Unlink f, r) :: new).
      split; [|split].
      * unfold bind at 1. unfold bind at 1. rewrite Hcall. unfold ret at 1.
        exact Hrun.
      * rewrite Htr. destruct Hext as (-> & _). now rewrite <- app_assoc.
      * cbn. now rewrite Hnew.
Qed.
End Cleaning.

(** On the local disk the loop removes the files without the marker. *)
Lemma unlink_loop_disk (files : list string) :
  forall w : World (gset string), exists w',
    for_each files (fun file =>
      if (negb false && TStr.Contains file "OCDB_")%bool then ret tt
      else bind (call local_disk (Unlink file)) (fun _ => ret tt)) w = Done tt w'
    /\ ext w' = ext w ∖ list_to_set (List.filter (fun f => negb (is_snapshot f)) files).
Proof.
  induction files as [|f files IH]; intros w.
  - exists w. split; [reflexivity|]. cbn. set_solver.
  - cbn [for_each List.filter]. unfold is_snapshot at 1. cbn [negb andb].
    destruct (TStr.Contains f "OCDB_") eqn:Hf; cbn [negb].
    + destruct (IH w) as (w' & Hrun & Hext).
      exists w'. unfold bind at 1, ret at 1. auto.
    + unfold bind at 1. unfold bind at 1. unfold call at 1. cbn [local_disk].
      unfold ret at 1.
      destruct (IH (mkWorld (ext w ∖ {[f]})
                      (trace w ++ [(Unlink f,
                                    RInt (if bool_decide (f ∈ ext w) then 0 else -1))])%list
                      (gGrid w) (self w))) as (w' & Hrun & Hext).
      exists w'. split; [exact Hrun|]. rewrite Hext. cbn [ext list_to_set].
      set_solver.
Qed.

(** C8.  CleanLocal(kFALSE) always returns; the calls it makes are the
    Unlink of each listed file whose name lacks OCDB_, in list order, and
    nothing else: every such file is unlinked and no file whose name
    contains OCDB_ is.  On a local disk the files left are the former ones
    minus the listed files without the marker: every snapshot file is
    there exactly if it was there before, and no listed ordinary file is
    left. *)
Theorem CleanLocal_preserves_snapshots (RunJDLName : string)
    (MergeJDLName : bool -> string) :
  (forall (E : Type) (env : E -> Call -> Resp * E) (w : World E),
      let files := current_local_files RunJDLName MergeJDLName (self w) in
      exists w' new,
        CleanLocal env RunJDLName MergeJDLName false w = Done tt w'
        /\ trace w' = (trace w ++ new)%list
        /\ map fst new = map Unlink (List.filter (fun f => negb (is_snapshot f)) files)
        /\ (forall f, In f files -> is_snapshot f = false -> In (Unlink f) (map fst new))
        /\ (forall f, is_snapshot f = true -> ~ In (Unlink f) (map fst new)))
  /\ (forall w : World (gset string),
      let files := current_local_files RunJDLName MergeJDLName (self w) in
      exists w',
        CleanLocal local_disk RunJDLName MergeJDLName false w = Done tt w'
        /\ ext w' = ext w ∖ list_to_set (List.filter (fun f => negb (is_snapshot f)) files)
        /\ (forall f, is_snapshot f = true -> (f ∈ ext w' <-> f ∈ ext w))
        /\ (forall f, In f files -> is_snapshot f = false -> f ∉ ext w')).
Proof.
  split.
  - intros E env w files.
    destruct (LocalFileList_Done RunJDLName MergeJDLName w) as (w1 & Hlist & Htr1 & _).
    destruct (unlink_loop env files w1) as (w' & new & Hloop & Htr & Hnew).
    exists w', new. split; [|split; [|split; [|split]]].
    + unfold CleanLocal. rewrite (bind_Done _ _ _ _ _ Hlist). exact Hloop.
    + now rewrite Htr, Htr1.
    + exact Hnew.
    + intros f Hin Hf. rewrite Hnew. apply in_map, filter_In.
      split; [exact Hin|]. now rewrite Hf.
    + intros f Hf Hin. rewrite Hnew in Hin.
      apply in_map_iff in Hin as (g & Hg & Hin). injection Hg as ->.
      apply filter_In in Hin as (_ & Hin). rewrite Hf in Hin. discriminate.
  - intros w files.
    destruct (LocalFileList_Done RunJDLName MergeJDLName w) as (w1 & Hlist & Htr1 & He1).
    destruct (unlink_loop_disk files w1) as (w' & Hloop & Hext).
    exists w'. split; [|split; [|split]].
    + unfold CleanLocal. rewrite (bind_Done _ _ _ _ _ Hlist). exact Hloop.
    + now rewrite Hext, He1.
    + intros f Hf. rewrite Hext, He1, elem_of_difference, elem_of_list_to_set.
      split; [tauto|]. intros Hin. split; [exact Hin|].
      intros Hx. apply list_elem_of_In, filter_In in Hx as (_ & Hx).
      rewrite Hf in Hx. discriminate.
    + intros f Hin Hf. rewrite Hext, elem_of_difference, elem_of_list_to_set.
      intros (_ & Hn). apply Hn. apply list_elem_of_In, filter_In.
      split; [exact Hin|]. now rewrite Hf.
Qed.

(** ** The last merging stage *)

Section LastStage.
Context {E : Type}.
Variable env : E -> Call -> Resp * E.

Lemma exec_Done (cmd : string) (w : World E) :
  exists w', exec env cmd w = Done (as_int (fst (env (ext w) (Exec cmd)))) w'
             /\ extends w [(Exec cmd, fst (env (ext w) (Exec cmd)))] w'.
Proof.
  unfold exec.
  destruct (call_Done env (Exec cmd) w) as (r & w' & Hcall & -> & Hext).
  exists w'. now rewrite (bind_Done _ _ _ _ _ Hcall).
Qed.

(** When grep finds each of the next n stages, whatever the state of the
    world, the loop counts them and stops. *)
Lemma stage_loop_counts (fuel : nat) :
  forall (n : nat) (lastStage : Z) (w : World E),
    (n <= fuel)%nat ->
    (forall e j, lastStage < j <= lastStage + Z.of_nat n ->
                 as_int (fst (env e (Exec (grep_stage_cmd j)))) = 0) ->
    exists w', stage_loop env fuel (Z.of_nat n) lastStage w
               = Done (lastStage + Z.of_nat n) w'.
Proof.
  induction fuel as [|fuel IH]; intros n lastStage w Hn Hgrep.
  - assert (n = O) as -> by lia. exists w. cbn [stage_loop].
    change (Z.of_nat 0 >? 0) with false. cbn iota. unfold ret. f_equal. lia.
  - destruct n as [|n].
    + exists w. cbn [stage_loop].
      change (Z.of_nat 0 >? 0) with false. cbn iota. unfold ret. f_equal. lia.
    + cbn [stage_loop].
      assert ((Z.of_nat (S n) >? 0) = true) as -> by (apply Z.gtb_lt; lia).
      destruct (exec_Done (grep_stage_cmd (lastStage + 1)) w) as (w1 & Hexec & _).
      rewrite (bind_Done _ _ _ _ _ Hexec), Hgrep by lia.
      cbn [Z.eqb].
      replace (Z.of_nat (S n) - 1) with (Z.of_nat n) by lia.
      destruct (IH n (lastStage + 1) w1) as (w' & Hloop); [lia| |].
      * intros e j Hj. apply Hgrep. lia.
      * exists w'. rewrite Hloop. f_equal. lia.
Qed.
End LastStage.

(** ** The end-to-end plan *)

(** C6.  Run list [1000, 1001], ratio 2.0, reference trigger counts 500
    and 800, at most 600 events per chunk: run 1000 gets 1000 events in 2
    chunks of 500, run 1001 gets 1600 events in 3 chunks of 534; Submit
    issues exactly the two matching submit commands and returns 5, and the
    dry run prints the same two plan lines. *)
Theorem submit_scenario_plan :
  ratio_events (2 # 1) 500 = 1000
  /\ chunk_loop 10 1000 600 1 = Some 2
  /\ events_per_chunk 1000 2 = 500
  /\ ratio_events (2 # 1) 800 = 1600
  /\ chunk_loop 10 1600 600 1 = Some 3
  /\ events_per_chunk 1600 3 = 534
  /\ (exists w',
        Submit Scenario.grid_ok 10 Scenario.RunJDLName false Scenario.valid_world
        = Done 5 w'
        /\ List.filter (fun c => match c with
                                 | GridCommand _ | GetTriggerScaler _ _ _ => true
                                 | _ => false
                                 end) (map fst (trace w'))
           = [GetTriggerScaler 1000 "L2A" "CMUL7-B-NOPF-MUON";
              GridCommand "submit run.jdl 1000 2 500";
              GetTriggerScaler 1001 "L2A" "CMUL7-B-NOPF-MUON";
              GridCommand "submit run.jdl 1001 3 534"])
  /\ (exists w',
        Submit Scenario.grid_ok 10 Scenario.RunJDLName true Scenario.valid_world
        = Done 5 w'
        /\ In (Cout (plan_line 1000 2 500)) (map fst (trace w'))
        /\ In (Cout (plan_line 1001 3 534)) (map fst (trace w'))).
Proof.
  repeat split; try (vm_compute; reflexivity).
  - eexists. split; vm_compute; reflexivity.
  - eexists. split; [vm_compute; reflexivity|].
    split; vm_compute; repeat (first [now left | right]).
Qed.

(** ** Variable substitution *)

(** A line that holds VAR_ while no key of the map occurs in it is never
    left: every iteration finds the line unchanged. *)
Lemma replace_in_line_stuck (vars : list (string * string)) (sline : string) :
  line_has_var sline = true -> find_key vars sline = None ->
  forall k nvars nreplaced, replace_in_line k vars sline nvars nreplaced = None.
Proof.
  intros Hvar Hkey. unfold line_has_var in Hvar.
  induction k as [|k IH]; intros nvars nreplaced; cbn [replace_in_line];
    rewrite Hvar; [reflexivity|]. rewrite Hkey. apply IH.
Qed.

(** Whenever the loop over a line ends, both counters grew by the same
    amount. *)
Lemma replace_in_line_counts (vars : list (string * string)) :
  forall k sline nvars nreplaced sline' nvars' nreplaced',
    replace_in_line k vars sline nvars nreplaced = Some (sline', nvars', nreplaced') ->
    nreplaced' - nreplaced = nvars' - nvars.
Proof.
  induction k as [|k IH]; intros sline nvars nreplaced sline' nvars' nreplaced' H;
    cbn [replace_in_line] in H.
  - destruct (_ && _)%bool; [discriminate|]. injection H as _ <- <-. lia.
  - destruct (_ && _)%bool eqn:Hvar; [|injection H as _ <- <-; lia].
    destruct (find_key vars sline) as [[key value]|] eqn:Hkey.
    + apply IH in H. lia.
    + rewrite (replace_in_line_stuck vars sline Hvar Hkey) in H. discriminate.
Qed.

Lemma replace_in_lines_counts (vars : list (string * string)) (k : nat) :
  forall content nvars nreplaced lines nvars' nreplaced',
    replace_in_lines k vars content nvars nreplaced = Some (lines, nvars', nreplaced') ->
    nreplaced' - nreplaced = nvars' - nvars.
Proof.
  induction content as [|line rest IH]; intros nvars nreplaced lines nvars' nreplaced' H;
    cbn [replace_in_lines] in H.
  - injection H as _ <- <-. lia.
  - destruct (replace_in_line k vars line nvars nreplaced) as [[[sline nv] nr]|] eqn:Hline;
      [|discriminate].
    destruct (replace_in_lines k vars rest nv nr) as [[[ls n'] r']|] eqn:Hrest;
      [|discriminate].
    injection H as _ <- <-.
    apply replace_in_line_counts in Hline. apply IH in Hrest. lia.
Qed.

Lemma replace_in_lines_stuck (vars : list (string * string)) (k : nat)
    (before : list string) (sline : string) (rest : list string) :
  line_has_var sline = true -> find_key vars sline = None ->
  forall nvars nreplaced,
    replace_in_lines k vars (before ++ sline :: rest)%list nvars nreplaced = None.
Proof.
  intros Hvar Hkey.
  induction before as [|b before IH]; intros nvars nreplaced; cbn [replace_in_lines app].
  - now rewrite (replace_in_line_stuck vars sline Hvar Hkey).
  - destruct (replace_in_line k vars b nvars nreplaced) as [[[s nv] nr]|]; [|reflexivity].
    now rewrite IH.
Qed.

(** C2 (what the code does).  The failure exit of ReplaceVars cannot be
    reached: no world, file or fuel makes it return kFALSE.  Whenever a
    line read from the file holds VAR_, is not a // comment and contains
    none of the keys, the substitution loop never ends, whatever the fuel.
    In the scenario, Config.C uses VAR_UNDEFINED_CODE, which the map does
    not define: ReplaceVars does not return. *)
Theorem ReplaceVars_unmapped_token_diverges :
  (forall (E : Type) (env : E -> Call -> Resp * E) (fuel : nat) (file : string)
          (w w' : World E),
      ReplaceVars env fuel file w <> Done false w')
  /\ (forall (E : Type) (env : E -> Call -> Resp * E) (fuel : nat) (file : string)
             (w : World E) (before rest : list string) (sline : string),
      getlines (as_lines (fst (env (ext w) (ReadLines file))))
      = (before ++ sline :: rest)%list ->
      line_has_var sline = true ->
      find_key (fVars (self w)) sline = None ->
      ReplaceVars env fuel file w = OutOfFuel)
  /\ (forall fuel,
      ReplaceVars Scenario.grid_unknown_var fuel "/home/user/work/Config.C"
        Scenario.valid_world = OutOfFuel).
Proof.
  assert (forall (E : Type) (env : E -> Call -> Resp * E) (fuel : nat) (file : string)
                 (w : World E) (before rest : list string) (sline : string),
      getlines (as_lines (fst (env (ext w) (ReadLines file))))
      = (before ++ sline :: rest)%list ->
      line_has_var sline = true ->
      find_key (fVars (self w)) sline = None ->
      ReplaceVars env fuel file w = OutOfFuel) as Hstuck.
  { intros E env fuel file w before rest sline Hread Hvar Hkey.
    unfold ReplaceVars, bind, get_self, call.
    destruct (env (ext w) (ReadLines file)) as [r e'] eqn:Henv.
    cbn [fst] in Hread. cbn [self]. rewrite Hread.
    now rewrite (replace_in_lines_stuck _ _ _ _ _ Hvar Hkey). }
  split; [|split].
  - intros E env fuel file w w' H.
    unfold ReplaceVars in H.
    apply bind_inv in H as (s & w1 & _ & H).
    apply bind_inv in H as (r & w2 & _ & H).
    destruct (replace_in_lines fuel (fVars s) _ 0 0) as [[[lines nvars] nreplaced]|] eqn:Hrep;
      [|discriminate].
    apply replace_in_lines_counts in Hrep.
    assert (nreplaced = nvars) as -> by lia.
    rewrite Z.eqb_refl in H. cbn [negb] in H.
    destruct (nvars >? 0).
    + apply bind_inv in H as (? & ? & _ & H).
      apply bind_inv in H as (? & ? & _ & H). discriminate.
    + discriminate.
  - exact Hstuck.
  - intros fuel.
    apply (Hstuck unit Scenario.grid_unknown_var fuel "/home/user/work/Config.C"
             Scenario.valid_world ["void Config()"; "{"]
             ["}"] "  Int_t pdg = VAR_UNDEFINED_CODE;"); reflexivity.
Qed.

Lemma ReplaceVars_unmapped_token_diverges_witness :
  getlines (as_lines (fst (Scenario.grid_unknown_var (ext Scenario.valid_world)
                             (ReadLines "/home/user/work/Config.C"))))
  = (["void Config()"; "{"] ++ "  Int_t pdg = VAR_UNDEFINED_CODE;" :: ["}"])%list
  /\ line_has_var "  Int_t pdg = VAR_UNDEFINED_CODE;" = true
  /\ find_key (fVars (self Scenario.valid_world)) "  Int_t pdg = VAR_UNDEFINED_CODE;" = None
  /\ ReplaceVars Scenario.grid_unknown_var 1000 "/home/user/work/Config.C"
       Scenario.valid_world = OutOfFuel.
Proof.
  split; [reflexivity|]. split; [reflexivity|]. split; [reflexivity|].
  apply (proj1 (proj2 ReplaceVars_unmapped_token_diverges) unit
           Scenario.grid_unknown_var 1000%nat "/home/user/work/Config.C"
           Scenario.valid_world ["void Config()"; "{"] ["}"]
           "  Int_t pdg = VAR_UNDEFINED_CODE;"); reflexivity.
Defined.

(** ** Failure bookkeeping of Merge *)

Lemma quiet_nil : quiet [].
Proof. repeat split. Qed.

Lemma quiet_app (a b : list Event) : quiet a -> quiet b -> quiet (a ++ b)%list.
Proof.
  unfold quiet, processing_notes, rejected_queries, failure_notes, grid_commands.
  intros (A1 & A2 & A3 & A4) (B1 & B2 & B3 & B4).
  rewrite !omap_app, A1, A2, A3, A4, B1, B2, B3, B4. auto.
Qed.

Lemma steps_refl {E} (w : World E) : steps w [] [] [] [] w.
Proof. exists []. split; [apply extends_refl|]. repeat split. Qed.

Lemma steps_trans {E} (w1 w2 w3 : World E) (P1 R1 F1 C1 P2 R2 F2 C2 : list string) :
  steps w1 P1 R1 F1 C1 w2 -> steps w2 P2 R2 F2 C2 w3 ->
  steps w1 (P1 ++ P2)%list (R1 ++ R2)%list (F1 ++ F2)%list (C1 ++ C2)%list w3.
Proof.
  intros (n1 & X1 & <- & <- & <- & <-) (n2 & X2 & <- & <- & <- & <-).
  exists (n1 ++ n2)%list. split; [eapply extends_trans; eassumption|].
  unfold processing_notes, rejected_queries, failure_notes, grid_commands.
  now rewrite !omap_app.
Qed.

Lemma steps_quiet {E} (w w' : World E) (new : list Event) :
  extends w new w' -> quiet new -> steps w [] [] [] [] w'.
Proof. intros X (Q1 & Q2 & Q3 & Q4). exists new. auto. Qed.

Section Steps.
Context {E : Type}.
Variable env : E -> Call -> Resp * E.

Lemma call_extends (c : Call) (w w' : World E) (r : Resp) :
  call env c w = Done r w' -> extends w [(c, r)] w'.
Proof.
  unfold call. destruct (env (ext w) c) as [r0 e']. intros H.
  injection H as <- <-. unfold extends. cbn. auto.
Qed.

Lemma call_steps (c : Call) (w w' : World E) (r : Resp) :
  call env c w = Done r w' ->
  steps w (processing_notes [(c, r)]) (rejected_queries [(c, r)])
    (failure_notes [(c, r)]) (grid_commands [(c, r)]) w'.
Proof. intros H. exists [(c, r)]. split; [now apply call_extends|auto]. Qed.

Lemma grid_call_steps (c : Call) (w w' : World E) (r : Resp) :
  grid_call env c w = Done r w' ->
  gGrid w = true /\
  steps w (processing_notes [(c, r)]) (rejected_queries [(c, r)])
    (failure_notes [(c, r)]) (grid_commands [(c, r)]) w'.
Proof.
  unfold grid_call, bind, get_gGrid. destruct (gGrid w); [|discriminate].
  intros H. split; [reflexivity|]. now apply call_steps.
Qed.

Lemma AliInfo_steps (msg : string) (w w' : World E) (u : unit) :
  AliInfo env msg w = Done u w' ->
  steps w (processing_notes [(Log LInfo msg, RUnit)]) [] [] [] w'.
Proof.
  intros H. apply bind_inv in H as (r & w1 & Hc & Hr).
  injection Hr as _ <-. exists [(Log LInfo msg, r)].
  split; [now apply call_extends|auto].
Qed.

Lemma AliError_steps (msg : string) (w w' : World E) (u : unit) :
  AliError env msg w = Done u w' -> steps w [] [] [] [] w'.
Proof.
  intros H. apply bind_inv in H as (r & w1 & Hc & Hr).
  injection Hr as _ <-. exists [(Log LError msg, r)].
  split; [now apply call_extends|auto].
Qed.

Lemma AliWarning_steps (msg : string) (w w' : World E) (u : unit) :
  AliWarning env msg w = Done u w' -> steps w [] [] [] [] w'.
Proof.
  intros H. apply bind_inv in H as (r & w1 & Hc & Hr).
  injection Hr as _ <-. exists [(Log LWarning msg, r)].
  split; [now apply call_extends|auto].
Qed.

Lemma AliDebug_steps (msg : string) (w w' : World E) (u : unit) :
  AliDebug env msg w = Done u w' -> steps w [] [] [] [] w'.
Proof.
  intros H. apply bind_inv in H as (r & w1 & Hc & Hr).
  injection Hr as _ <-. exists [(Log LDebug msg, r)].
  split; [now apply call_extends|auto].
Qed.

Lemma print_steps (text : string) (w w' : World E) (u : unit) :
  print env text w = Done u w' -> steps w [] [] [] [] w'.
Proof.
  intros H. apply bind_inv in H as (r & w1 & Hc & Hr).
  injection Hr as _ <-. exists [(Cout text, r)].
  split; [now apply call_extends|auto].
Qed.

Lemma exec_steps (cmd : string) (w w' : World E) (rc : Z) :
  exec env cmd w = Done rc w' ->
  steps w [] [] (failure_notes [(Exec cmd, RUnit)]) [] w'.
Proof.
  intros H. apply bind_inv in H as (r & w1 & Hc & Hr).
  injection Hr as _ <-. exists [(Exec cmd, r)].
  split; [now apply call_extends|auto].
Qed.

Lemma RemoteDirectoryExists_steps (dirname : string) (w w' : World E) (b : bool) :
  RemoteDirectoryExists env dirname w = Done b w' -> steps w [] [] [] [] w'.
Proof.
  unfold RemoteDirectoryExists. intros H.
  apply bind_inv in H as (g & w0 & Hg & H). injection Hg as <- <-.
  destruct (negb (gGrid w)).
  - injection H as _ <-. apply steps_refl.
  - apply bind_inv in H as (r & w1 & Hc & H). apply call_extends in Hc.
    assert (w' = w1) as ->
      by (destruct (as_result r); unfold ret in H; congruence).
    eapply steps_quiet; [exact Hc|]. repeat split.
Qed.

Lemma RemoteFileExists_steps (lfn : string) (w w' : World E) (b : bool) :
  RemoteFileExists env lfn w = Done b w' -> steps w [] [] [] [] w'.
Proof.
  unfold RemoteFileExists. intros H.
  apply bind_inv in H as (g & w0 & Hg & H). injection Hg as <- <-.
  destruct (negb (gGrid w)).
  - injection H as _ <-. apply steps_refl.
  - apply bind_inv in H as (r & w1 & Hc & H). apply call_extends in Hc.
    assert (w' = w1) as ->
      by (destruct (as_result r); unfold ret in H; congruence).
    eapply steps_quiet; [exact Hc|]. repeat split.
Qed.

Lemma stage_loop_steps (fuel : nat) :
  forall (n lastStage v : Z) (w w' : World E),
    stage_loop env fuel n lastStage w = Done v w' -> steps w [] [] [] [] w'.
Proof.
  induction fuel as [|fuel IH]; intros n lastStage v w w' H; cbn [stage_loop] in H.
  - destruct (n >? 0); [discriminate|]. injection H as _ <-. apply steps_refl.
  - destruct (n >? 0).
    + apply bind_inv in H as (rc & w1 & Hx & H).
      apply exec_steps in Hx.
      assert (steps w1 [] [] [] [] w') as Hrest
        by (destruct (rc =? 0); eapply IH; exact H).
      exact (steps_trans _ _ _ _ _ _ _ _ _ _ _ Hx Hrest).
    + injection H as _ <-. apply steps_refl.
Qed.

Lemma GetLastStage_steps (fuel : nat) (remoteDir : string) (w w' : World E) (b : bool) :
  GetLastStage env fuel remoteDir w = Done b w' -> steps w [] [] [] [] w'.
Proof.
  unfold GetLastStage, GetLastStage_count. intros H.
  apply bind_inv in H as (v & w4 & H & Hr). injection Hr as _ <-.
  apply bind_inv in H as (rc & w1 & H1 & H). apply exec_steps in H1.
  apply bind_inv in H as (r2 & w2 & H2 & H). apply call_steps in H2.
  apply bind_inv in H as (v' & w3 & H3 & H). apply stage_loop_steps in H3.
  apply bind_inv in H as (rc4 & w5 & H4 & H). apply exec_steps in H4.
  injection H as _ <-.
  exact (steps_trans _ _ _ _ _ _ _ _ _ _ _ H1
           (steps_trans _ _ _ _ _ _ _ _ _ _ _ H2
              (steps_trans _ _ _ _ _ _ _ _ _ _ _ H3 H4))).
Qed.
End Steps.

Ltac chain :=
  first [ eassumption
        | apply steps_refl
        | eapply steps_trans; [eassumption | chain] ].

(** Symbolic execution of a method that returned: every bind is opened,
    every test is split, every primitive is replaced by what it added to
    the record of calls. *)
Ltac exec H :=
  cbv beta iota in H;
  lazymatch type of H with
  | ret _ _ = Done _ _ => unfold ret in H; injection H as <- <-
  | get_self _ = Done _ _ => unfold get_self in H; injection H as <- <-
  | AliInfo _ _ _ = Done _ _ => apply AliInfo_steps in H
  | AliError _ _ _ = Done _ _ => apply AliError_steps in H
  | AliWarning _ _ _ = Done _ _ => apply AliWarning_steps in H
  | AliDebug _ _ _ = Done _ _ => apply AliDebug_steps in H
  | print _ _ _ = Done _ _ => apply print_steps in H
  | exec _ _ _ = Done _ _ => apply exec_steps in H
  | call _ _ _ = Done _ _ => apply call_steps in H
  | grid_call _ _ _ = Done _ _ => apply grid_call_steps in H as (? & H)
  | RemoteDirectoryExists _ _ _ = Done _ _ => apply RemoteDirectoryExists_steps in H
  | RemoteFileExists _ _ _ = Done _ _ => apply RemoteFileExists_steps in H
  | GetLastStage _ _ _ _ = Done _ _ => apply GetLastStage_steps in H
  | bind _ _ _ = Done _ _ =>
      let a := fresh "a" in
      let w := fresh "w" in
      let Hm := fresh "Hm" in
      apply bind_inv in H as (a & w & Hm & H);
      exec Hm;
      try (lazymatch type of a with bool => destruct a end);
      exec H
  | (if negb true then _ else ?m) ?w = ?r => change (m w = r) in H; exec H
  | (if negb false then ?m else _) ?w = ?r => change (m w = r) in H; exec H
  | (if negb ?c then _ else _) _ = Done _ _ => destruct c eqn:?; exec H
  | (if ?c then _ else _) _ = Done _ _ => destruct c eqn:?; exec H
  | (match ?x with _ => _ end) _ = Done _ _ => destruct x eqn:?; exec H
  | _ => idtac
  end.

Lemma rejected_accepted (q : string) (r : Resp) (l : TGridResult) :
  as_result r = Some l -> TStr.IsDec (GetKey l 0 "jobId") = true ->
  rejected_queries [(GridCommand q, r)] = [].
Proof. intros H1 H2. unfold rejected_queries. cbn. now rewrite H1; cbn; rewrite H2. Qed.

Lemma rejected_no_job_id (q : string) (r : Resp) (l : TGridResult) :
  as_result r = Some l -> TStr.IsDec (GetKey l 0 "jobId") = false ->
  rejected_queries [(GridCommand q, r)] = [q].
Proof. intros H1 H2. unfold rejected_queries. cbn. now rewrite H1; cbn; rewrite H2. Qed.

Lemma rejected_no_result (q : string) (r : Resp) :
  as_result r = None -> rejected_queries [(GridCommand q, r)] = [q].
Proof. intros H1. unfold rejected_queries. cbn. now rewrite H1. Qed.

Lemma steps_notes_eq {E} (w w' : World E) (P P' R F C : list string) :
  steps w P R F C w' -> P = P' -> steps w P' R F C w'.
Proof. now intros H <-. Qed.

Section MergeRun.
Context {E : Type}.
Variable env : E -> Call -> Resp * E.
Variable fuel : nat.

(** One iteration of Merge: the run is announced, and either nothing is
    turned down and failedRun keeps its value, or the one submit command
    of the run is turned down, the run is noted in __failed__ and
    failedRun is set. *)
Lemma Merge_run_steps (jdl : string) (stage : Z) (dryRun : bool)
    (st st' : string * bool) (run : Z) (w w' : World E) :
  Merge_run env fuel jdl stage dryRun st run w = Done st' w' ->
  exists R F C,
    steps w [processing_msg run] R F C w'
    /\ (dryRun = true -> C = [])
    /\ ((R = [] /\ F = [] /\ snd st' = snd st)
        \/ (R = [merge_query jdl stage run] /\ F = [failed_cmd run]
            /\ snd st' = true /\ dryRun = false)).
Proof.
  intros H. unfold Merge_run in H. cbv zeta in H.
  exec H.
  all: try discriminate.
  all: match goal with
       | |- exists R F C, steps ?w _ _ _ _ ?w' /\ _ =>
           eassert (steps w _ _ _ _ w') as Hall by chain
       end.
  all: try (erewrite rejected_accepted in Hall by eassumption).
  all: try (erewrite rejected_no_job_id in Hall by eassumption).
  all: try (erewrite rejected_no_result in Hall by eassumption).
  all: eexists _, _, _; (split; [exact (steps_notes_eq _ _ _ _ _ _ _ Hall eq_refl)|]).
  all: split; [intros Hd; try discriminate Hd; reflexivity|].
  all: first [ left; repeat split; reflexivity
             | right; repeat split; reflexivity ].
Qed.
End MergeRun.

Section MergeLoop.
Context {E : Type}.
Variable env : E -> Call -> Resp * E.
Variable fuel : nat.
Variable jdl : string.
Variable stage : Z.
Variable dryRun : bool.

(** The for loop of Merge: every run is announced, in order; the runs
    whose submit command was turned down form a sublist, each of them is
    noted in __failed__, and failedRun ends up set exactly when that
    sublist is not empty (or it was set before). *)
Lemma Merge_runs_steps (runs : list Z) :
  forall (st st' : string * bool) (w w' : World E),
    fold_each runs (Merge_run env fuel jdl stage dryRun) st w = Done st' w' ->
    exists failed C,
      steps w (map processing_msg runs) (map (merge_query jdl stage) failed)
        (map failed_cmd failed) C w'
      /\ sublist failed runs
      /\ (dryRun = true -> failed = [] /\ C = [])
      /\ snd st' = (snd st || negb (bool_decide (failed = [])))%bool.
Proof.
  induction runs as [|run runs IH]; intros st st' w w' H; cbn [fold_each] in H.
  - unfold ret in H. injection H as <- <-. exists [], [].
    split; [apply steps_refl|]. split; [constructor|].
    split; [auto|]. now rewrite orb_false_r.
  - apply bind_inv in H as (st1 & w1 & Hrun & Hrest).
    apply Merge_run_steps in Hrun as (R & F & C1 & Hs1 & Hdry1 & Hcase).
    apply IH in Hrest as (failed & C2 & Hs2 & Hsub & Hdry2 & Hflag).
    pose proof (steps_trans _ _ _ _ _ _ _ _ _ _ _ Hs1 Hs2) as Hs.
    destruct Hcase as [(-> & -> & Hst1) | (-> & -> & Hst1 & Hd)].
    + exists failed, (C1 ++ C2)%list.
      split; [exact Hs|]. split; [now apply sublist_cons|].
      split.
      * intros Hd. destruct (Hdry2 Hd) as (-> & ->). now rewrite (Hdry1 Hd).
      * now rewrite Hflag, Hst1.
    + exists (run :: failed), (C1 ++ C2)%list.
      split; [exact Hs|]. split; [now apply sublist_skip|].
      split; [congruence|].
      rewrite Hflag, Hst1. cbn. now rewrite orb_true_r.
Qed.

Lemma Merge_report_steps (failedRun b : bool) (w w' : World E) :
  Merge_report env failedRun w = Done b w' ->
  b = negb failedRun
  /\ exists new, extends w new w' /\ quiet new
                 /\ (failedRun = true -> In (Exec "cat __failed__") (map fst new)).
Proof.
  unfold Merge_report. destruct failedRun; intros H.
  - apply bind_inv in H as (u1 & w1 & H1 & H).
    apply bind_inv in H1 as (r1 & w1' & H1 & Hr1). injection Hr1 as _ <-.
    apply bind_inv in H as (u2 & w2 & H2 & H).
    apply bind_inv in H2 as (r2 & w2' & H2 & Hr2). injection Hr2 as _ <-.
    apply bind_inv in H as (u3 & w3 & H3 & H).
    apply bind_inv in H3 as (r3 & w3' & H3 & Hr3). injection Hr3 as _ <-.
    apply bind_inv in H as (u4 & w4 & H4 & H).
    apply bind_inv in H4 as (r4 & w4' & H4 & Hr4). injection Hr4 as _ <-.
    injection H as <- <-.
    apply call_extends in H1, H2, H3, H4.
    split; [reflexivity|]. eexists. split.
    + eapply extends_trans; [exact H1|]. eapply extends_trans; [exact H2|].
      eapply extends_trans; [exact H3|exact H4].
    + split; [repeat split|]. intros _. cbn. auto.
  - injection H as <- <-. split; [reflexivity|].
    exists []. split; [apply extends_refl|]. split; [apply quiet_nil|discriminate].
Qed.
End MergeLoop.

(** Methods that return whenever gGrid is set, and leave it set. *)
Section Safe.
Context {E : Type}.
Variable env : E -> Call -> Resp * E.

Lemma safe_ret {A} (a : A) : safe (E:=E) (ret a).
Proof. intros w Hg. exists a, w. auto. Qed.

Lemma safe_bind {A B} (m : M E A) (k : A -> M E B) :
  safe m -> (forall a, safe (k a)) -> safe (bind m k).
Proof.
  intros Hm Hk w Hg. destruct (Hm w Hg) as (a & w1 & H1 & Hg1).
  destruct (Hk a w1 Hg1) as (b & w2 & H2 & Hg2).
  exists b, w2. now rewrite (bind_Done _ _ _ _ _ H1).
Qed.

Lemma safe_call (c : Call) : safe (call env c).
Proof.
  intros w Hg. destruct (call_Done env c w) as (r & w' & H & _ & _ & Hg' & _).
  exists r, w'. split; [exact H|congruence].
Qed.

Lemma safe_grid_call (c : Call) : safe (grid_call env c).
Proof.
  intros w Hg. unfold grid_call, bind, get_gGrid. rewrite Hg.
  now apply safe_call.
Qed.

Lemma safe_get_self : safe (E:=E) get_self.
Proof. intros w Hg. exists (self w), w. auto. Qed.

Lemma safe_get_gGrid : safe (E:=E) get_gGrid.
Proof. intros w Hg. exists (gGrid w), w. auto. Qed.

Lemma safe_fold_each {A S} (body : S -> A -> M E S) (l : list A) :
  (forall s a, safe (body s a)) -> forall s, safe (fold_each l body s).
Proof.
  intros Hbody. induction l as [|x l IH]; intros s; cbn [fold_each].
  - apply safe_ret.
  - apply safe_bind; [apply Hbody|apply IH].
Qed.
End Safe.

Ltac safe_step env :=
  lazymatch goal with
  | |- safe (bind _ _) => apply safe_bind; [|intros ?]
  | |- safe (ret _) => apply safe_ret
  | |- safe (call _ _) => apply safe_call
  | |- safe (grid_call _ _) => apply safe_grid_call
  | |- safe get_self => apply safe_get_self
  | |- safe get_gGrid => apply safe_get_gGrid
  | |- safe (AliInfo _ _) => unfold AliInfo
  | |- safe (AliError _ _) => unfold AliError
  | |- safe (AliWarning _ _) => unfold AliWarning
  | |- safe (AliDebug _ _) => unfold AliDebug
  | |- safe (print _ _) => unfold print
  | |- safe (exec _ _) => unfold exec
  | |- safe (RemoteDirectoryExists _ _) => unfold RemoteDirectoryExists
  | |- safe (RemoteFileExists _ _) => unfold RemoteFileExists
  | |- safe (if ?c then _ else _) => destruct c
  | |- safe (match ?x with _ => _ end) => destruct x
  end.

Section MergeSafe.
Context {E : Type}.
Variable env : E -> Call -> Resp * E.
Variable fuel : nat.

Lemma Merge_loop_safe (jdl : string) (stage : Z) (dryRun : bool) (runs : list Z) :
  (forall remoteDir, safe (GetLastStage env fuel remoteDir)) ->
  safe (Merge_loop env fuel jdl stage dryRun runs).
Proof.
  intros Hstage. unfold Merge_loop.
  apply safe_bind; [repeat safe_step env|intros _].
  apply safe_bind.
  - apply safe_fold_each. intros st run. unfold Merge_run. cbv zeta.
    repeat first [ apply Hstage | safe_step env ].
  - intros st. unfold Merge_report. repeat safe_step env.
Qed.
End MergeSafe.

Section LastStageSafe.
Context {E : Type}.
Variable env : E -> Call -> Resp * E.

(** With n lines in the listing and grep finding the stages 1 to n, the
    count is n. *)
Lemma GetLastStage_count_returns (fuel n : nat) (remoteDir : string) (w : World E) :
  (n <= fuel)%nat ->
  (forall e, length (as_lines (fst (env e (ReadLines "__stage__")))) = n) ->
  (forall e j, 0 < j <= Z.of_nat n ->
               as_int (fst (env e (Exec (grep_stage_cmd j)))) = 0) ->
  exists w', GetLastStage_count env fuel remoteDir w = Done (Z.of_nat n) w'.
Proof.
  intros Hn Hlines Hgrep. unfold GetLastStage_count.
  destruct (exec_Done env ("alien_ls -F " ++ remoteDir
                           ++ " | grep Stage_.*/ > __stage__")%string w)
    as (w1 & Hexec & _).
  rewrite (bind_Done _ _ _ _ _ Hexec).
  destruct (call_Done env (ReadLines "__stage__") w1) as (r & w2 & Hcall & -> & _).
  rewrite (bind_Done _ _ _ _ _ Hcall), Hlines.
  destruct (stage_loop_counts env fuel n 0 w2 Hn) as (w3 & Hloop).
  { intros e j Hj. apply Hgrep. lia. }
  rewrite (bind_Done _ _ _ _ _ Hloop).
  destruct (exec_Done env "rm -f __stage__" w3) as (w4 & Hrm & _).
  rewrite (bind_Done _ _ _ _ _ Hrm). exists w4. reflexivity.
Qed.

Lemma GetLastStage_safe (fuel n : nat) :
  (n <= fuel)%nat ->
  (forall e, length (as_lines (fst (env e (ReadLines "__stage__")))) = n) ->
  (forall e j, 0 < j <= Z.of_nat n ->
               as_int (fst (env e (Exec (grep_stage_cmd j)))) = 0) ->
  forall remoteDir, safe (GetLastStage env fuel remoteDir).
Proof.
  intros Hn Hlines Hgrep remoteDir w Hg.
  destruct (GetLastStage_count_returns fuel n remoteDir w Hn Hlines Hgrep)
    as (w' & Hcount).
  assert (GetLastStage env fuel remoteDir w = Done (negb (Z.of_nat n =? 0)) w') as H
    by (unfold GetLastStage; now rewrite (bind_Done _ _ _ _ _ Hcount)).
  exists (negb (Z.of_nat n =? 0)), w'. split; [exact H|].
  apply GetLastStage_steps in H as (new & (_ & Hg' & _) & _). congruence.
Qed.
End LastStageSafe.


(** C9.  The count made by GetLastStage leaves through its Bool_t return
    type: the caller gets true exactly when the count is not 0, so after
    the conversion back to Int_t in Merge the value is 0 or 1, and it is 1
    whenever two or more stages were counted.  When the listing has n
    lines and grep finds the stages 1 to n, the call returns (with fuel n)
    and the count is n.  In the scenario with stages 1 and 2 on the grid the
    count is 2 and Merge sees 1: stage 3 is refused for both runs with
    "Next must be stage 2" and nothing is submitted, while stage 2 is
    submitted. *)
Theorem GetLastStage_truncates :
  (forall (E : Type) (env : E -> Call -> Resp * E) (fuel : nat) (remoteDir : string)
          (w w' : World E) (b : bool),
      GetLastStage env fuel remoteDir w = Done b w' ->
      exists lastStage,
        GetLastStage_count env fuel remoteDir w = Done lastStage w'
        /\ b = negb (lastStage =? 0)
        /\ (Z.b2z b = 0 \/ Z.b2z b = 1)
        /\ (2 <= lastStage -> Z.b2z b = 1))
  /\ (forall (E : Type) (env : E -> Call -> Resp * E) (fuel n : nat)
             (remoteDir : string) (w : World E),
      (n <= fuel)%nat ->
      (forall e, length (as_lines (fst (env e (ReadLines "__stage__")))) = n) ->
      (forall e j, 0 < j <= Z.of_nat n ->
                   as_int (fst (env e (Exec (grep_stage_cmd j)))) = 0) ->
      exists w',
        GetLastStage_count env fuel remoteDir w = Done (Z.of_nat n) w'
        /\ GetLastStage env fuel remoteDir w = Done (negb (Z.of_nat n =? 0)) w')
  /\ (exists w',
        GetLastStage_count Scenario.grid_two_stages 2 "/alice/sim/AODs/1000"
          Scenario.valid_world = Done 2 w'
        /\ GetLastStage Scenario.grid_two_stages 2 "/alice/sim/AODs/1000"
             Scenario.valid_world = Done true w')
  /\ (exists w',
        Merge Scenario.grid_two_stages 2 Scenario.MergeJDLName 3 false
          Scenario.valid_world = Done true w'
        /\ List.filter (fun c => match c with
                                 | GridCommand _ | Log LError _ => true
                                 | _ => false
                                 end) (map fst (trace w'))
           = [Log LError (" ! lastest merging stage = 1. Next must be stage 2 or final stage" ++ nl);
              Log LError (" ! lastest merging stage = 1. Next must be stage 2 or final stage" ++ nl)])
  /\ (exists w',
        Merge Scenario.grid_two_stages 2 Scenario.MergeJDLName 2 false
          Scenario.valid_world = Done true w'
        /\ List.filter (fun c => match c with
                                 | GridCommand _ | Log LError _ => true
                                 | _ => false
                                 end) (map fst (trace w'))
           = [GridCommand "submit AOD_merge.jdl 1000 2";
              GridCommand "submit AOD_merge.jdl 1001 2"]).
Proof.
  split; [|split; [|split; [|split]]].
  - intros E env fuel remoteDir w w' b H. unfold GetLastStage in H.
    apply bind_inv in H as (lastStage & w1 & Hcount & Hret).
    unfold ret in Hret. injection Hret as <- <-.
    exists lastStage. split; [exact Hcount|]. split; [reflexivity|].
    split.
    + destruct (lastStage =? 0); cbn; auto.
    + intros H2. assert ((lastStage =? 0) = false) as -> by (apply Z.eqb_neq; lia).
      reflexivity.
  - intros E env fuel n remoteDir w Hn Hlines Hgrep.
    destruct (GetLastStage_count_returns env fuel n remoteDir w Hn Hlines Hgrep)
      as (w' & Hcount).
    exists w'. split; [exact Hcount|].
    unfold GetLastStage. now rewrite (bind_Done _ _ _ _ _ Hcount).
  - eexists. split; vm_compute; reflexivity.
  - eexists. split; vm_compute; reflexivity.
  - eexists. split; vm_compute; reflexivity.
Qed.

Lemma GetLastStage_truncates_witness :
  exists lastStage w',
    GetLastStage_count Scenario.grid_two_stages 2 "/alice/sim/AODs/1000"
      Scenario.valid_world = Done lastStage w'
    /\ true = negb (lastStage =? 0)
    /\ (Z.b2z true = 0 \/ Z.b2z true = 1)
    /\ (2 <= lastStage -> Z.b2z true = 1).
Proof.
  destruct (proj1 (proj2 (proj2 GetLastStage_truncates))) as (w' & _ & Hlast).
  destruct (proj1 GetLastStage_truncates unit Scenario.grid_two_stages 2%nat
              "/alice/sim/AODs/1000" Scenario.valid_world w' true Hlast)
    as (lastStage & H).
  exists lastStage, w'. exact H.
Defined.


(** ** Failure tolerance of the merge loop *)

Section MergeWhole.
Context {E : Type}.
Variable env : E -> Call -> Resp * E.
Variable fuel : nat.

Lemma Merge_loop_steps (jdl : string) (stage : Z) (dryRun b : bool) (runs : list Z)
    (w w' : World E) :
  Merge_loop env fuel jdl stage dryRun runs w = Done b w' ->
  exists failed C,
    steps w (map processing_msg runs) (map (merge_query jdl stage) failed)
      (map failed_cmd failed) C w'
    /\ sublist failed runs
    /\ (b = false <-> failed <> []).
Proof.
  intros H. unfold Merge_loop in H.
  apply bind_inv in H as (rc & w1 & Hrm & H).
  apply bind_inv in H as (st & w2 & Hfold & Hrep).
  apply exec_steps in Hrm.
  apply Merge_runs_steps in Hfold as (failed & C & Hruns & Hsub & _ & Hflag).
  apply Merge_report_steps in Hrep as (Hb & n3 & X3 & Q3 & _).
  pose proof (steps_trans _ _ _ _ _ _ _ _ _ _ _ Hrm
                (steps_trans _ _ _ _ _ _ _ _ _ _ _ Hruns (steps_quiet _ _ _ X3 Q3)))
    as Hall.
  cbn [snd orb] in Hflag. rewrite !app_nil_r in Hall.
  exists failed, C. split; [exact Hall|]. split; [exact Hsub|].
  rewrite Hb, Hflag. destruct failed; cbn; split; congruence.
Qed.

(** Merge as a whole: a failed check before the loop gives kFALSE with no
    run touched; otherwise the loop decides. *)
Lemma Merge_steps (MergeJDLName : bool -> string) (stage : Z) (dryRun b : bool)
    (w w' : World E) :
  Merge env fuel MergeJDLName stage dryRun w = Done b w' ->
  (exists R F, steps w [] R F [] w' /\ b = false)
  \/ (exists runs failed R F C,
         fScalers (self w) = Some runs
         /\ steps w (map processing_msg runs) R F C w'
         /\ R = map (merge_query (MergeJDLName (stage =? 0)) stage) failed
         /\ F = map failed_cmd failed
         /\ sublist failed runs
         /\ (b = false <-> failed <> [])).
Proof.
  intros H. unfold Merge in H.
  exec H.
  all: try discriminate.
  all: try (left;
            match goal with
            | |- exists R F, steps ?w _ _ _ _ ?w' /\ _ =>
                eassert (steps w _ _ _ _ w') as Hall by chain
            end;
            eexists _, _; split; [exact Hall|reflexivity]).
  right.
  match goal with
  | Hl : Merge_loop _ _ _ _ _ _ _ = Done _ _ |- _ =>
      apply Merge_loop_steps in Hl as (failed & C & Hl & Hsub & Hiff)
  end.
  match goal with
  | |- exists runs failed R F C, _ /\ steps ?w _ _ _ _ ?w' /\ _ =>
      eassert (steps w _ _ _ _ w') as Hall by chain
  end.
  eexists _, failed, _, _, _.
  split; [reflexivity|]. split; [exact Hall|].
  split; [reflexivity|]. split; [reflexivity|]. auto.
Qed.
End MergeWhole.

(** C5 (amended).  Merge is tolerant of failed submissions.  Its loop
    returns when every GetLastStage call returns and gGrid is set; and
    whenever it returns, every run of the list was announced, in order;
    the runs whose submit command came back with no result or with a job
    id that is not a decimal number form a sublist of the run list, each
    is appended to the __failed__ file, the file is shown at the end when
    it is not empty, and the result is kFALSE exactly when at least one run
    failed.  A dry run issues no command and fails no run.  For Merge as a
    whole: either a check before the loop failed (kFALSE, no run touched),
    or the loop ran over the whole run list and decided the result as
    said.  (Submit has no such bookkeeping.) *)
Theorem Merge_loop_failure_tolerance {E : Type} (env : E -> Call -> Resp * E)
    (fuel : nat) (jdl : string) (stage : Z) (dryRun : bool) (runs : list Z)
    (w : World E) :
  ((forall remoteDir, safe (GetLastStage env fuel remoteDir)) ->
   gGrid w = true ->
   exists b w', Merge_loop env fuel jdl stage dryRun runs w = Done b w')
  /\ (forall b w',
      Merge_loop env fuel jdl stage dryRun runs w = Done b w' ->
      exists new failed,
        extends w new w'
        /\ processing_notes new = map processing_msg runs
        /\ sublist failed runs
        /\ rejected_queries new = map (merge_query jdl stage) failed
        /\ failure_notes new = map failed_cmd failed
        /\ (b = false <-> failed <> [])
        /\ (failed <> [] -> In (Exec "cat __failed__") (map fst new))
        /\ (dryRun = true -> failed = [] /\ grid_commands new = []))
  /\ (forall MergeJDLName b w',
      Merge env fuel MergeJDLName stage dryRun w = Done b w' ->
      exists new,
        extends w new w'
        /\ ((b = false /\ processing_notes new = [] /\ grid_commands new = [])
            \/ (exists all_runs failed,
                   fScalers (self w) = Some all_runs
                   /\ processing_notes new = map processing_msg all_runs
                   /\ sublist failed all_runs
                   /\ rejected_queries new
                      = map (merge_query (MergeJDLName (stage =? 0)) stage) failed
                   /\ failure_notes new = map failed_cmd failed
                   /\ (b = false <-> failed <> [])))).
Proof.
  split; [|split].
  - intros Hstage Hg.
    destruct (Merge_loop_safe env fuel jdl stage dryRun runs Hstage w Hg)
      as (b & w' & H & _).
    eauto.
  - intros b w' H. unfold Merge_loop in H.
    apply bind_inv in H as (rc & w1 & Hrm & H).
    apply bind_inv in H as (st & w2 & Hfold & Hrep).
    apply exec_steps in Hrm as (n1 & X1 & P1 & R1 & F1 & C1).
    apply Merge_runs_steps in Hfold
      as (failed & C & (n2 & X2 & P2 & R2 & F2 & C2) & Hsub & Hdry & Hflag).
    apply Merge_report_steps in Hrep as (Hb & n3 & X3 & (P3 & R3 & F3 & C3) & Hcat).
    cbn [snd orb] in Hflag.
    exists (n1 ++ n2 ++ n3)%list, failed.
    split; [eapply extends_trans; [exact X1|eapply extends_trans; eassumption]|].
    unfold processing_notes, rejected_queries, failure_notes, grid_commands in *.
    rewrite !omap_app, P1, P2, P3, R1, R2, R3, F1, F2, F3, C1, C2, C3, !app_nil_r.
    split; [reflexivity|]. split; [exact Hsub|].
    split; [reflexivity|]. split; [reflexivity|].
    assert (snd st = true <-> failed <> []) as Hiff.
    { rewrite Hflag. destruct failed; cbn; split; congruence. }
    split; [|split].
    + rewrite Hb, <- Hiff. destruct (snd st); cbn; split; congruence.
    + intros Hne. rewrite !map_app, !in_app_iff. right. right.
      apply Hcat, Hiff, Hne.
    + intros Hd. destruct (Hdry Hd) as (-> & ->). auto.
  - intros MergeJDLName b w' H.
    apply Merge_steps in H
      as [(R & F & (new & Hext & HP & _ & _ & HC) & Hb)
         |(all_runs & failed & R & F & C & Hruns
           & (new & Hext & HP & HR & HF & _) & -> & -> & Hsub & Hiff)].
    + exists new. split; [exact Hext|]. left.
      split; [exact Hb|]. split; [exact HP|exact HC].
    + exists new. split; [exact Hext|]. right. exists all_runs, failed.
      split; [exact Hruns|]. split; [exact HP|]. split; [exact Hsub|].
      split; [exact HR|]. split; [exact HF|exact Hiff].
Qed.

Lemma Merge_loop_failure_tolerance_witness :
  (forall remoteDir, safe (GetLastStage Scenario.grid_rejecting_1001 2 remoteDir))
  /\ gGrid Scenario.valid_world = true
  /\ exists w' new failed,
       Merge_loop Scenario.grid_rejecting_1001 2 "AOD_merge_final.jdl" 0 false
         [1000; 1001] Scenario.valid_world = Done false w'
       /\ extends Scenario.valid_world new w'
       /\ processing_notes new = map processing_msg [1000; 1001]
       /\ sublist failed [1000; 1001]
       /\ rejected_queries new = map (merge_query "AOD_merge_final.jdl" 0) failed
       /\ failure_notes new = map failed_cmd failed
       /\ (false = false <-> failed <> [])
       /\ (failed <> [] -> In (Exec "cat __failed__") (map fst new))
       /\ (false = true -> failed = [] /\ grid_commands new = []).
Proof.
  assert (forall remoteDir,
             safe (GetLastStage Scenario.grid_rejecting_1001 2 remoteDir)) as Hstage.
  { apply (GetLastStage_safe Scenario.grid_rejecting_1001 2 0).
    - lia.
    - intros e. reflexivity.
    - intros e j Hj. lia. }
  split; [exact Hstage|]. split; [reflexivity|].
  destruct (proj1 (Merge_loop_failure_tolerance Scenario.grid_rejecting_1001 2
                     "AOD_merge_final.jdl" 0 false [1000; 1001] Scenario.valid_world)
              Hstage eq_refl) as (b & w' & H).
  assert (b = false) as ->.
  { assert (exists w'', Merge_loop Scenario.grid_rejecting_1001 2 "AOD_merge_final.jdl"
                          0 false [1000; 1001] Scenario.valid_world = Done false w'')
      as (w'' & H') by (eexists; vm_compute; reflexivity).
    congruence. }
  destruct (proj1 (proj2 (Merge_loop_failure_tolerance Scenario.grid_rejecting_1001 2
                            "AOD_merge_final.jdl" 0 false [1000; 1001]
                            Scenario.valid_world))
              false w' H) as (new & failed & Hall).
  exists w', new, failed. split; [exact H|exact Hall].
Defined.

(** C5 as stated fails for Submit: with no answer to any submit command
    Submit keeps no list of failed runs and still returns its job count 5,
    which Run("SUBMIT") reports as success. *)
Lemma Submit_reports_no_failure :
  exists w',
    Submit Scenario.grid_silent 10 Scenario.RunJDLName false Scenario.valid_world
    = Done 5 w'
    /\ rejected_queries (trace w')
       = ["submit run.jdl 1000 2 500"; "submit run.jdl 1001 3 534"]
    /\ failure_notes (trace w') = []
    /\ Run Scenario.grid_silent 10 Scenario.RunJDLName Scenario.MergeJDLName
         Scenario.GetSplitMaxInputFileNumber "SUBMIT" Scenario.valid_world
       = Done true w'.
Proof.
  eexists. split; [vm_compute; reflexivity|].
  split; [vm_compute; reflexivity|]. split; vm_compute; reflexivity.
Qed.

(** ** The job count of Submit *)

Section Yields.
Context {E : Type}.
Variable env : E -> Call -> Resp * E.








End Yields.

Section SubmitPlan.
Context {E : Type}.
Variable env : E -> Call -> Resp * E.
Variable fuel : nat.
Variable RunJDLName : string.
Variable scal : Z -> option Z.
Variable trigger : string.

(** The scaler of a run does not depend on what happened on the grid. *)
Hypothesis scalers_fixed :
  forall e run, as_scaler (fst (env e (GetTriggerScaler run "L2A" trigger))) = scal run.





End SubmitPlan.


Section SubmitDry.
Context {E : Type}.
Variable env : E -> Call -> Resp * E.
Variable fuel : nat.
Variable RunJDLName : string.




End SubmitDry.








(** ** The variables of a macro *)

Lemma starts_with_Contains (s pat : string) :
  TStr.starts_with pat s = true -> TStr.Contains s pat = true.
Proof. intros H. destruct s; cbn [TStr.Contains]; now rewrite H. Qed.

Lemma Contains_tail (c : ascii) (s pat : string) :
  TStr.Contains s pat = true -> TStr.Contains (String c s) pat = true.
Proof. intros H. cbn [TStr.Contains]. rewrite H. apply orb_true_r. Qed.

Lemma Contains_Index (s pat : string) :
  TStr.Contains s pat = true -> exists i, TStr.Index s pat = Some i.
Proof.
  induction s as [|c s IH]; cbn [TStr.Contains TStr.Index]; intros H.
  - rewrite orb_false_r in H. rewrite H. eauto.
  - destruct (TStr.starts_with pat (String c s)); [eauto|].
    cbn [orb] in H. destruct (IH H) as (i & ->). cbn. eauto.
Qed.

Lemma Index_starts (pat : string) :
  forall (s : string) (i : nat),
    TStr.Index s pat = Some i -> TStr.starts_with pat (string_drop i s) = true.
Proof.
  induction s as [|c s IH]; intros i; cbn [TStr.Index].
  - destruct (TStr.starts_with pat EmptyString) eqn:E; [|discriminate].
    intros H. injection H as <-. exact E.
  - destruct (TStr.starts_with pat (String c s)) eqn:E.
    + intros H. injection H as <-. exact E.
    + destruct (TStr.Index s pat) as [j|] eqn:Ej; [|discriminate].
      cbn. intros H. injection H as <-. cbn [string_drop]. now apply IH.
Qed.

Lemma drop_Contains (pat : string) :
  forall (i : nat) (s : string),
    TStr.starts_with pat (string_drop i s) = true -> TStr.Contains s pat = true.
Proof.
  induction i as [|i IH]; intros s H; cbn [string_drop] in H.
  - now apply starts_with_Contains.
  - destruct s as [|c s]; [now apply starts_with_Contains|].
    apply Contains_tail, IH, H.
Qed.

Lemma starts_with_take_var (t : string) : TStr.starts_with (take_var t) t = true.
Proof.
  induction t as [|c t IH]; [reflexivity|]. cbn [take_var].
  destruct (is_var_char c); [|reflexivity].
  cbn [TStr.starts_with]. now rewrite Ascii.eqb_refl, IH.
Qed.

Lemma starts_with_VAR (t : string) :
  TStr.starts_with "VAR_" t = true ->
  exists r, t = ("VAR_" ++ r)%string.
Proof.
  intros H.
  destruct t as [|c1 [|c2 [|c3 [|c4 r]]]]; cbn [TStr.starts_with] in H;
    repeat match type of H with
           | (?a && ?b)%bool = true => apply andb_prop in H as [? H]
           end; try discriminate.
  repeat match goal with
         | E : Ascii.eqb _ _ = true |- _ => apply Ascii.eqb_eq in E; subst
         end.
  exists r. reflexivity.
Qed.

Lemma take_var_VAR (r : string) : take_var ("VAR_" ++ r) = ("VAR_" ++ take_var r)%string.
Proof. reflexivity. Qed.

Lemma var_chars_take_var (t : string) : var_chars (take_var t) = true.
Proof.
  induction t as [|c t IH]; [reflexivity|]. cbn [take_var].
  destruct (is_var_char c) eqn:E; [|reflexivity].
  cbn [var_chars]. now rewrite E, IH.
Qed.

(** Erasing a text that occurs makes the line shorter. *)
Lemma replace_go_erase_le (pat : string) :
  forall (s : string) (skip : nat),
    (String.length (TStr.replace_go pat EmptyString skip s) <= String.length s)%nat.
Proof.
  induction s as [|c s IH]; intros skip; cbn [TStr.replace_go]; [reflexivity|].
  destruct skip as [|k].
  - destruct (TStr.starts_with pat (String c s)).
    + change (EmptyString ++ ?x)%string with x. cbn [String.length].
      specialize (IH (String.length pat - 1)%nat). lia.
    + cbn [String.length]. specialize (IH O). lia.
  - cbn [String.length]. specialize (IH k). lia.
Qed.

Lemma replace_go_erase_lt (pat : string) :
  pat <> EmptyString ->
  forall s : string,
    TStr.Contains s pat = true ->
    (String.length (TStr.replace_go pat EmptyString 0 s) < String.length s)%nat.
Proof.
  intros Hne. induction s as [|c s IH]; cbn [TStr.Contains TStr.replace_go]; intros H.
  - rewrite orb_false_r in H. destruct pat; [congruence|discriminate].
  - destruct (TStr.starts_with pat (String c s)).
    + change (EmptyString ++ ?x)%string with x. cbn [String.length].
      pose proof (replace_go_erase_le pat s (String.length pat - 1)). lia.
    + cbn [orb] in H. cbn [String.length]. specialize (IH H). lia.
Qed.

Lemma ReplaceAll_erase_lt (s pat : string) :
  pat <> EmptyString -> TStr.Contains s pat = true ->
  (String.length (TStr.ReplaceAll s pat EmptyString) < String.length s)%nat.
Proof.
  intros Hne H. unfold TStr.ReplaceAll. destruct pat; [congruence|].
  now apply replace_go_erase_lt.
Qed.

(** The variable read at the first VAR_ of a line: it starts with VAR_,
    is made of name characters and occurs in the line. *)
Lemma first_variable (sline : string) (i1 : nat) :
  TStr.Index sline "VAR_" = Some i1 ->
  let var := take_var (string_drop i1 sline) in
  TStr.BeginsWith var "VAR_" = true /\ var_chars var = true
  /\ var <> EmptyString /\ TStr.Contains sline var = true.
Proof.
  intros Hi var. apply Index_starts in Hi.
  pose proof (starts_with_take_var (string_drop i1 sline)) as Hpre.
  destruct (starts_with_VAR _ Hi) as (r & Hr).
  assert (var = ("VAR_" ++ take_var r)%string) as Hvar
    by (unfold var; rewrite Hr; apply take_var_VAR).
  split; [now rewrite Hvar|]. split; [apply var_chars_take_var|].
  split; [now rewrite Hvar|].
  eapply drop_Contains. exact Hpre.
Qed.

(** The scan of a line ends once the fuel exceeds the length of the line:
    every round erases a variable. *)
Lemma variables_in_line_returns :
  forall (k : nat) (sline : string) (variables : option (list string)),
    (String.length sline < k)%nat ->
    exists v, variables_in_line k sline variables = Some v.
Proof.
  induction k as [|k IH]; intros sline variables Hk; [lia|].
  cbn [variables_in_line].
  destruct (TStr.Contains sline "VAR_" && negb (TStr.BeginsWith sline "//"))%bool eqn:E;
    [|eauto].
  apply andb_prop in E as [Hc _].
  destruct (Contains_Index _ _ Hc) as (i1 & Hi). rewrite Hi.
  destruct (first_variable sline i1 Hi) as (_ & _ & Hne & Hin).
  apply IH.
  pose proof (ReplaceAll_erase_lt sline _ Hne Hin). lia.
Qed.

Lemma getlines_short (content : list string) :
  Forall (fun l => (String.length l <= 1022)%nat) (getlines content).
Proof.
  induction content as [|l rest IH]; cbn [getlines]; [constructor|].
  destruct (String.length l <=? 1022)%nat eqn:E; [|constructor].
  constructor; [now apply Nat.leb_le in E|exact IH].
Qed.

Lemma variables_in_lines_returns (k : nat) (content : list string) :
  Forall (fun l => (String.length l < k)%nat) content ->
  forall variables, exists v, variables_in_lines k content variables = Some v.
Proof.
  induction 1 as [|l rest Hl _ IH]; intros variables; cbn [variables_in_lines]; [eauto|].
  destruct (variables_in_line_returns k l variables Hl) as (v & ->). apply IH.
Qed.

Lemma existsb_eqb_In (var : string) (l : list string) :
  existsb (String.eqb var) l = true <-> In var l.
Proof.
  rewrite existsb_exists. split.
  - intros (x & Hin & Hx). apply String.eqb_eq in Hx. now subst.
  - intros Hin. exists var. split; [exact Hin|apply String.eqb_refl].
Qed.

Lemma add_variable_ok (var : string) (variables : option (list string)) :
  TStr.BeginsWith var "VAR_" = true -> var_chars var = true ->
  variables_ok variables -> variables_ok (Some (add_variable var variables)).
Proof.
  intros Hb Hc Hok. unfold add_variable.
  set (found := match variables with Some l => l | None => [] end).
  assert (NoDup found /\
          Forall (fun var => TStr.BeginsWith var "VAR_" = true /\ var_chars var = true)
            found) as (Hnd & Hall).
  { unfold found. destruct variables as [l|]; [|split; constructor].
    destruct Hok as (_ & ? & ?). auto. }
  destruct (existsb (String.eqb var) found) eqn:E; cbn [variables_ok].
  - split; [|auto]. apply existsb_eqb_In in E. intros ->. exact E.
  - split; [now destruct found|]. split.
    + apply NoDup_app. split; [exact Hnd|]. split.
      * intros x Hx Hx'. apply list_elem_of_In in Hx, Hx'.
        destruct Hx' as [<-|[]].
        apply existsb_eqb_In in Hx. congruence.
      * repeat constructor. intros Hx. apply list_elem_of_In in Hx. exact Hx.
    + apply Forall_app. split; [exact Hall|]. repeat constructor; assumption.
Qed.

Lemma variables_in_line_ok :
  forall (k : nat) (sline : string) (variables v : option (list string)),
    variables_in_line k sline variables = Some v ->
    variables_ok variables ->
    variables_ok v
    /\ (v = None <-> variables = None /\ line_has_var sline = false).
Proof.
  induction k as [|k IH]; intros sline variables v H Hok; cbn [variables_in_line] in H;
    unfold line_has_var.
  - destruct (_ && _)%bool eqn:E; [discriminate|]. injection H as <-.
    split; [exact Hok|]. tauto.
  - destruct (TStr.Contains sline "VAR_" && negb (TStr.BeginsWith sline "//"))%bool eqn:E.
    + destruct (TStr.Index sline "VAR_") as [i1|] eqn:Hi; [|discriminate].
      destruct (first_variable sline i1 Hi) as (Hb & Hc & _ & _).
      apply IH in H as (Hv & Hnone); [|now apply add_variable_ok].
      split; [exact Hv|]. split.
      * intros Hn. apply Hnone in Hn as (Hn & _). discriminate.
      * intros (_ & Hn). discriminate.
    + injection H as <-. split; [exact Hok|]. tauto.
Qed.

Lemma variables_in_lines_ok (k : nat) :
  forall (content : list string) (variables v : option (list string)),
    variables_in_lines k content variables = Some v ->
    variables_ok variables ->
    variables_ok v
    /\ (v = None <-> variables = None /\ existsb line_has_var content = false).
Proof.
  induction content as [|l rest IH]; intros variables v H Hok; cbn [variables_in_lines] in H.
  - injection H as <-. split; [exact Hok|]. cbn. tauto.
  - destruct (variables_in_line k l variables) as [v1|] eqn:Hl; [|discriminate].
    apply variables_in_line_ok in Hl as (Hok1 & Hn1); [|exact Hok].
    apply IH in H as (Hokv & Hnv); [|exact Hok1].
    split; [exact Hokv|]. cbn [existsb]. rewrite Hnv, Hn1, orb_false_iff. tauto.
Qed.

(** ** Following a method step by step *)

Lemma Done_inj {E A} (a a' : A) (w w' : World E) :
  Done a w = Done a' w' -> a = a' /\ w = w'.
Proof. intros H. injection H as -> ->. auto. Qed.

Section Inversion.
Context {E : Type}.
Variable env : E -> Call -> Resp * E.
Variable interp : E -> Interpreter -> Z * E.

Lemma call_inv (c : Call) (w w' : World E) (r : Resp) :
  call env c w = Done r w' ->
  exists e', env (ext w) c = (r, e')
             /\ w' = mkWorld e' (trace w ++ [(c, r)])%list (gGrid w) (self w).
Proof.
  unfold call. destruct (env (ext w) c) as [r0 e']. intros H.
  apply Done_inj in H as (<- & <-). eauto.
Qed.

Lemma grid_call_inv (c : Call) (w w' : World E) (r : Resp) :
  grid_call env c w = Done r w' ->
  gGrid w = true /\
  exists e', env (ext w) c = (r, e')
             /\ w' = mkWorld e' (trace w ++ [(c, r)])%list (gGrid w) (self w).
Proof.
  unfold grid_call, bind, get_gGrid. destruct (gGrid w) eqn:Hg; [|discriminate].
  intros H. split; [reflexivity|]. apply call_inv in H. now rewrite Hg in H.
Qed.

Lemma interp_call_inv (c : Interpreter) (w w' : World E) (rc : Z) :
  interp_call interp c w = Done rc w' ->
  exists e', interp (ext w) c = (rc, e')
             /\ w' = mkWorld e' (trace w) (gGrid w) (self w).
Proof.
  unfold interp_call. destruct (interp (ext w) c) as [r0 e']. intros H.
  apply Done_inj in H as (<- & <-). eauto.
Qed.

Lemma call_eq (c : Call) (w : World E) :
  call env c w
  = Done (fst (env (ext w) c))
      (mkWorld (snd (env (ext w) c)) (trace w ++ [(c, fst (env (ext w) c))])%list
         (gGrid w) (self w)).
Proof. unfold call. now destruct (env (ext w) c). Qed.

Lemma interp_call_eq (c : Interpreter) (w : World E) :
  interp_call interp c w
  = Done (fst (interp (ext w) c))
      (mkWorld (snd (interp (ext w) c)) (trace w) (gGrid w) (self w)).
Proof. unfold interp_call. now destruct (interp (ext w) c). Qed.
End Inversion.

Ltac subst_world Hw :=
  lazymatch type of Hw with
  | ?x = ?y => first [is_var y; subst y | is_var x; subst x | idtac]
  end.

(** A method that returned is opened into the calls it made: every world
    on the way becomes an explicit record. *)
Ltac follow H :=
  cbv beta iota zeta in H;
  lazymatch type of H with
  | ret _ _ = Done _ _ =>
      let Ha := fresh "Ha" in let Hw := fresh "Hw" in
      unfold ret in H; apply Done_inj in H as (Ha & Hw); subst_world Hw; subst_world Ha
  | get_self _ = Done _ _ =>
      let Ha := fresh "Ha" in let Hw := fresh "Hw" in
      unfold get_self in H; apply Done_inj in H as (Ha & Hw); subst_world Hw; subst_world Ha
  | get_gGrid _ = Done _ _ =>
      let Ha := fresh "Ha" in let Hw := fresh "Hw" in
      unfold get_gGrid in H; apply Done_inj in H as (Ha & Hw); subst_world Hw; subst_world Ha
  | modify_self _ _ = Done _ _ =>
      let Ha := fresh "Ha" in let Hw := fresh "Hw" in
      unfold modify_self in H; apply Done_inj in H as (Ha & Hw); subst_world Hw;
      clear Ha
  | set_gGrid _ _ = Done _ _ =>
      let Ha := fresh "Ha" in let Hw := fresh "Hw" in
      unfold set_gGrid in H; apply Done_inj in H as (Ha & Hw); subst_world Hw;
      clear Ha
  | crash _ = Done _ _ => discriminate H
  | diverge _ = Done _ _ => discriminate H
  | call _ _ _ = Done _ _ =>
      let e := fresh "e" in let He := fresh "He" in let Hw := fresh "Hw" in
      apply call_inv in H as (e & He & Hw); subst_world Hw
  | grid_call _ _ _ = Done _ _ =>
      let e := fresh "e" in let He := fresh "He" in let Hw := fresh "Hw" in
      let Hg := fresh "Hg" in
      apply grid_call_inv in H as (Hg & e & He & Hw); subst_world Hw
  | interp_call _ _ _ = Done _ _ =>
      let e := fresh "e" in let He := fresh "He" in let Hw := fresh "Hw" in
      apply interp_call_inv in H as (e & He & Hw); subst_world Hw
  | AliInfo _ _ _ = Done _ _ => unfold AliInfo in H; follow H
  | AliError _ _ _ = Done _ _ => unfold AliError in H; follow H
  | AliWarning _ _ _ = Done _ _ => unfold AliWarning in H; follow H
  | AliDebug _ _ _ = Done _ _ => unfold AliDebug in H; follow H
  | print _ _ _ = Done _ _ => unfold print in H; follow H
  | exec _ _ _ = Done _ _ => unfold exec in H; follow H
  | access_path_name _ _ _ = Done _ _ => unfold access_path_name in H; follow H
  | IsValid _ = Done _ _ => unfold IsValid in H; follow H
  | and_then _ _ _ = Done _ _ => unfold and_then in H; follow H
  | bind _ _ _ = Done _ _ =>
      let a := fresh "a" in
      let w := fresh "w" in
      let Hm := fresh "Hm" in
      apply bind_inv in H as (a & w & Hm & H);
      follow Hm;
      follow H
  | (if negb true then _ else ?m) ?w = ?r => change (m w = r) in H; follow H
  | (if negb false then ?m else _) ?w = ?r => change (m w = r) in H; follow H
  | (if negb ?c then _ else _) _ = Done _ _ => destruct c eqn:?; follow H
  | (if ?c then _ else _) _ = Done _ _ => destruct c eqn:?; follow H
  | (match ?x with _ => _ end) _ = Done _ _ => destruct x eqn:?; follow H
  | _ => idtac
  end.

(** ** SetVar *)

Lemma toupper_idem (c : ascii) : TStr.toupper (TStr.toupper c) = TStr.toupper c.
Proof. destruct c as [[] [] [] [] [] [] [] []]; reflexivity. Qed.

Lemma ToUpper_idem (s : string) : TStr.ToUpper (TStr.ToUpper s) = TStr.ToUpper s.
Proof.
  induction s as [|c s IH]; [reflexivity|].
  unfold TStr.ToUpper in *. cbn [TStr.map_chars]. now rewrite toupper_idem, IH.
Qed.

Lemma TMap_GetValue_app (l1 l2 : list (string * string)) (key : string) :
  TMap_GetValue (l1 ++ l2) key
  = match TMap_GetValue l1 key with
    | Some v => Some v
    | None => TMap_GetValue l2 key
    end.
Proof.
  induction l1 as [|[k v] l1 IH]; [reflexivity|]. cbn [app TMap_GetValue].
  destruct (String.eqb k key); [reflexivity|exact IH].
Qed.

Lemma TMap_GetValue_None (m : list (string * string)) (key : string) :
  TMap_GetValue m key = None <-> ~ In key (map fst m).
Proof.
  induction m as [|[k v] m IH]; cbn [TMap_GetValue map fst In]; [tauto|].
  destruct (String.eqb_spec k key) as [->|Hne].
  - split; [discriminate|]. intros H. exfalso. apply H. now left.
  - rewrite IH. tauto.
Qed.

Lemma TMap_Remove_other (key k : string) (m : list (string * string)) :
  k <> key -> TMap_GetValue (TMap_Remove key m) k = TMap_GetValue m k.
Proof.
  intros Hne. induction m as [|[k0 v0] m IH]; [reflexivity|].
  cbn [TMap_Remove TMap_GetValue].
  destruct (String.eqb_spec k0 key) as [->|Hk0].
  - destruct (String.eqb_spec key k) as [->|_]; [congruence|reflexivity].
  - cbn [TMap_GetValue]. destruct (String.eqb k0 k); [reflexivity|exact IH].
Qed.

Lemma TMap_Remove_keys (key : string) (m : list (string * string)) :
  forall k, In k (map fst (TMap_Remove key m)) -> In k (map fst m).
Proof.
  induction m as [|[k0 v0] m IH]; intros k; cbn [TMap_Remove map fst In]; [tauto|].
  destruct (String.eqb k0 key); cbn [map fst In]; [tauto|].
  intros [H|H]; [now left|right; now apply IH].
Qed.

Lemma TMap_Remove_NoDup (key : string) (m : list (string * string)) :
  NoDup (map fst m) ->
  NoDup (map fst (TMap_Remove key m)) /\ ~ In key (map fst (TMap_Remove key m)).
Proof.
  induction m as [|[k0 v0] m IH]; cbn [TMap_Remove map fst]; intros Hnd.
  - split; [constructor|]. intros [].
  - apply NoDup_cons in Hnd as (Hk0 & Hnd). rewrite list_elem_of_In in Hk0.
    destruct (String.eqb_spec k0 key) as [->|Hne].
    + auto.
    + destruct (IH Hnd) as (Hnd' & Hkey). cbn [map fst]. split.
      * apply NoDup_cons. split; [|exact Hnd'].
        rewrite list_elem_of_In. intros Hin. apply Hk0.
        now apply (TMap_Remove_keys key m).
      * intros [H|H]; [congruence|auto].
Qed.

Lemma TMap_Remove_Forall (P : string * string -> Prop) (key : string)
    (m : list (string * string)) :
  Forall P m -> Forall P (TMap_Remove key m).
Proof.
  induction 1 as [|[k0 v0] m Hx Hm IH]; cbn [TMap_Remove]; [constructor|].
  destruct (String.eqb k0 key); [exact Hm|]. now constructor.
Qed.

Lemma TMap_Add_keys (place : nat) (key value : string) (m : list (string * string)) :
  Permutation (map fst (TMap_Add place key value m)) (key :: map fst m).
Proof.
  unfold TMap_Add. rewrite map_app. cbn [map fst].
  rewrite <- Permutation_middle. constructor.
  rewrite <- map_app, firstn_skipn. reflexivity.
Qed.

Lemma TMap_Add_lookup (place : nat) (key value : string) (m : list (string * string)) :
  ~ In key (map fst m) ->
  forall k, TMap_GetValue (TMap_Add place key value m) k
            = if String.eqb key k then Some value else TMap_GetValue m k.
Proof.
  intros Hkey k. unfold TMap_Add. rewrite TMap_GetValue_app. cbn [TMap_GetValue].
  replace (TMap_GetValue m k)
    with (TMap_GetValue (firstn place m ++ skipn place m) k)
    by now rewrite firstn_skipn.
  rewrite TMap_GetValue_app.
  destruct (String.eqb_spec key k) as [<-|Hne]; [|reflexivity].
  assert (TMap_GetValue (firstn place m) key = None) as ->; [|reflexivity].
  apply TMap_GetValue_None. intros Hin. apply Hkey.
  rewrite <- (firstn_skipn place m), map_app, in_app_iff. now left.
Qed.

Lemma TMap_Add_Forall (P : string * string -> Prop) (place : nat) (key value : string)
    (m : list (string * string)) :
  P (key, value) -> Forall P m -> Forall P (TMap_Add place key value m).
Proof.
  intros Hkv Hm. unfold TMap_Add. apply Forall_app. split.
  - rewrite <- (firstn_skipn place m) in Hm. now apply Forall_app in Hm.
  - constructor; [exact Hkv|].
    rewrite <- (firstn_skipn place m) in Hm. now apply Forall_app in Hm.
Qed.

(** X1.  SetVar stores the value under the upper-cased name when that name
    begins with VAR_, and refuses the name otherwise.  On a map with
    distinct upper-case VAR_ keys: the call always returns; when it accepts,
    no call is made, the map alone changes, a lookup of the key gives the
    new value and every other key keeps its value; when it refuses, the
    object is untouched and one error is logged.  The map keeps distinct
    upper-case VAR_ keys in both cases. *)
Theorem SetVar_defines {E : Type} (env : E -> Call -> Resp * E)
    (hash_place : string -> list (string * string) -> nat)
    (varname value : string) (w : World E) :
  vars_ok (fVars (self w)) ->
  exists b w',
    SetVar env hash_place varname value w = Done b w'
    /\ b = TStr.BeginsWith (TStr.ToUpper varname) "VAR_"
    /\ vars_ok (fVars (self w'))
    /\ (b = true ->
        trace w' = trace w
        /\ self w' = set_fVars (fVars (self w')) (self w)
        /\ TMap_GetValue (fVars (self w')) (TStr.ToUpper varname) = Some value
        /\ forall k, k <> TStr.ToUpper varname ->
                     TMap_GetValue (fVars (self w')) k = TMap_GetValue (fVars (self w)) k)
    /\ (b = false ->
        self w' = self w
        /\ exists r,
             trace w' = (trace w ++ [(Log LError "Variable name should start with VAR_", r)])%list).
Proof.
  intros (Hnd & Hall). unfold SetVar.
  destruct (TStr.BeginsWith (TStr.ToUpper varname) "VAR_") eqn:Hb; cbn [negb].
  - eexists true, _. split; [reflexivity|]. split; [reflexivity|].
    cbn [self fVars set_fVars trace].
    destruct (TMap_Remove_NoDup (TStr.ToUpper varname) _ Hnd) as (Hnd' & Hkey).
    split; [|split; [intros _|discriminate]].
    + split.
      * rewrite TMap_Add_keys. apply NoDup_cons. rewrite list_elem_of_In. auto.
      * apply TMap_Add_Forall; [cbn [fst]; split; [apply ToUpper_idem|exact Hb]|].
        now apply TMap_Remove_Forall.
    + split; [reflexivity|]. split; [reflexivity|]. split.
      * rewrite TMap_Add_lookup by exact Hkey. now rewrite String.eqb_refl.
      * intros k Hk. rewrite TMap_Add_lookup by exact Hkey.
        destruct (String.eqb_spec (TStr.ToUpper varname) k) as [Heq|_]; [congruence|].
        now apply TMap_Remove_other.
  - unfold AliError, bind. rewrite call_eq. unfold ret.
    eexists false, _. split; [reflexivity|]. split; [reflexivity|].
    cbn [self trace]. split; [now split|]. split; [discriminate|].
    intros _. split; [reflexivity|]. eauto.
Qed.

Lemma SetVar_defines_witness :
  vars_ok (fVars (self Scenario.valid_world))
  /\ exists b w',
       SetVar Scenario.grid_ok (fun _ m => length m) "var_ocdb_path" "local://"
         Scenario.valid_world = Done b w'
       /\ b = true
       /\ TMap_GetValue (fVars (self w')) "VAR_OCDB_PATH" = Some "local://"
       /\ TMap_GetValue (fVars (self w')) "VAR_GENERATOR" = Some "GenParamCustom".
Proof.
  assert (vars_ok (fVars (self Scenario.valid_world))) as Hok.
  { split.
    - cbn. repeat constructor; rewrite ?list_elem_of_In; cbn; intuition discriminate.
    - cbn. repeat constructor. }
  split; [exact Hok|].
  destruct (SetVar_defines Scenario.grid_ok (fun _ m => length m) "var_ocdb_path"
              "local://" Scenario.valid_world Hok)
    as (b & w' & Hrun & Hb & _ & Htrue & _).
  exists b, w'. split; [exact Hrun|]. split; [exact Hb|].
  destruct (Htrue Hb) as (_ & _ & Hget & Hother).
  split; [exact Hget|]. rewrite Hother; [reflexivity|discriminate].
Defined.

(** ** The remote directories *)

Lemma RemoteDirectoryExists_no_grid {E : Type} (env : E -> Call -> Resp * E)
    (dirname : string) (w : World E) :
  gGrid w = false -> RemoteDirectoryExists env dirname w = Done false w.
Proof. intros Hg. unfold RemoteDirectoryExists, bind, get_gGrid. now rewrite Hg. Qed.

(** X2.  SetRemoteDir decides the validity of the object by itself: whatever
    the flag was, afterwards it equals the result, which is true exactly
    when GetRemoteDir handed the directory back; the remote directory is
    then the one asked for and is wiped otherwise; no other field changes
    (the merged directory stays).  SetMergedDir records its directory the
    same way but leaves the validity alone.  Without a grid connection a
    call with create set dereferences the null gGrid, and a call without
    it fails. *)
Theorem SetRemoteDir_decides_validity {E : Type} (env : E -> Call -> Resp * E)
    (dir : string) (create : bool) (w : World E) :
  (forall b w',
      SetRemoteDir env dir create w = Done b w' ->
      self w' = set_fIsValid b (set_fRemoteDir (if b then dir else EmptyString) (self w))
      /\ (b = true -> dir <> EmptyString /\ gGrid w = true))
  /\ (forall b w',
      SetMergedDir env dir create w = Done b w' ->
      self w' = set_fMergedDir (if b then dir else EmptyString) (self w)
      /\ fIsValid (self w') = fIsValid (self w))
  /\ (gGrid w = false ->
      if create
      then exists w', SetRemoteDir env dir create w = Crash w'
      else exists w', SetRemoteDir env dir create w = Done false w').
Proof.
  split; [|split].
  - intros b w' H. unfold SetRemoteDir, GetRemoteDir, RemoteDirectoryExists in H.
    follow H; cbn [self gGrid].
    all: try discriminate.
    all: destruct dir as [|c dir]; cbn [String.length Nat.ltb Nat.leb].
    all: split; [reflexivity|].
    all: first [ discriminate
               | intros _; split; [discriminate|cbn [gGrid] in *; congruence] ].
  - intros b w' H. unfold SetMergedDir, GetRemoteDir, RemoteDirectoryExists in H.
    follow H; cbn [self gGrid].
    all: try discriminate.
    all: destruct dir as [|c dir]; cbn [String.length Nat.ltb Nat.leb].
    all: split; reflexivity.
  - intros Hg. unfold SetRemoteDir, GetRemoteDir.
    rewrite !bind_assoc_Done.
    rewrite (bind_Done _ _ _ _ _ (RemoteDirectoryExists_no_grid env dir w Hg)).
    cbn [negb]. destruct create; cbn [negb].
    + unfold AliInfo. rewrite !bind_assoc_Done. unfold bind at 1. rewrite call_eq.
      unfold bind at 1, ret at 1. unfold bind at 1, bind at 1, grid_call, bind at 1.
      unfold get_gGrid. cbn [gGrid]. rewrite Hg. unfold crash. eauto.
    + unfold AliError. rewrite !bind_assoc_Done. unfold bind at 1. rewrite call_eq.
      unfold bind, ret, modify_self. cbn. eauto.
Qed.

(** ** Confinement *)

Section Confined.
Context {E : Type}.
Variable env : E -> Call -> Resp * E.
Variable interp : E -> Interpreter -> Z * E.
Variable P : Call -> Prop.
Variable R : Submitter -> Submitter -> Prop.
Hypothesis R_refl : forall s, R s s.
Hypothesis R_trans : forall s1 s2 s3, R s1 s2 -> R s2 s3 -> R s1 s3.

Lemma confined_ret {A} (a : A) : confined (E:=E) P R (ret a).
Proof.
  intros w a' w' H. apply Done_inj in H as (_ & <-).
  split; [apply R_refl|]. split; [reflexivity|].
  exists []. split; [now rewrite app_nil_r|constructor].
Qed.

Lemma confined_bind {A B} (m : M E A) (k : A -> M E B) :
  confined P R m -> (forall a, confined P R (k a)) -> confined P R (bind m k).
Proof.
  intros Hm Hk w b w' H. apply bind_inv in H as (a & w1 & H1 & H2).
  apply Hm in H1 as (R1 & G1 & n1 & T1 & F1).
  apply Hk in H2 as (R2 & G2 & n2 & T2 & F2).
  split; [eapply R_trans; eassumption|]. split; [congruence|].
  exists (n1 ++ n2)%list. split; [now rewrite T2, T1, app_assoc|].
  apply Forall_app. auto.
Qed.

Lemma confined_call (c : Call) : P c -> confined P R (call env c).
Proof.
  intros Hc w r w' H. apply call_inv in H as (e' & _ & ->). cbn [self gGrid trace].
  split; [apply R_refl|]. split; [reflexivity|].
  exists [(c, r)]. split; [reflexivity|]. repeat constructor. exact Hc.
Qed.

Lemma confined_grid_call (c : Call) : P c -> confined P R (grid_call env c).
Proof.
  intros Hc w r w' H. apply grid_call_inv in H as (_ & e' & _ & ->).
  cbn [self gGrid trace].
  split; [apply R_refl|]. split; [reflexivity|].
  exists [(c, r)]. split; [reflexivity|]. repeat constructor. exact Hc.
Qed.

Lemma confined_interp_call (c : Interpreter) : confined P R (interp_call interp c).
Proof.
  intros w r w' H. apply interp_call_inv in H as (e' & _ & ->).
  cbn [self gGrid trace].
  split; [apply R_refl|]. split; [reflexivity|].
  exists []. split; [now rewrite app_nil_r|constructor].
Qed.

Lemma confined_get_self : confined (E:=E) P R get_self.
Proof.
  intros w a w' H. apply Done_inj in H as (_ & <-).
  split; [apply R_refl|]. split; [reflexivity|].
  exists []. split; [now rewrite app_nil_r|constructor].
Qed.

Lemma confined_get_gGrid : confined (E:=E) P R get_gGrid.
Proof.
  intros w a w' H. apply Done_inj in H as (_ & <-).
  split; [apply R_refl|]. split; [reflexivity|].
  exists []. split; [now rewrite app_nil_r|constructor].
Qed.

Lemma confined_modify_self (f : Submitter -> Submitter) :
  (forall s, R s (f s)) -> confined (E:=E) P R (modify_self f).
Proof.
  intros Hf w a w' H. apply Done_inj in H as (_ & <-). cbn [self gGrid trace].
  split; [apply Hf|]. split; [reflexivity|].
  exists []. split; [now rewrite app_nil_r|constructor].
Qed.

Lemma confined_crash {A} : confined (E:=E) (A:=A) P R crash.
Proof. intros w a w' H. discriminate H. Qed.

Lemma confined_diverge {A} : confined (E:=E) (A:=A) P R diverge.
Proof. intros w a w' H. discriminate H. Qed.

Lemma confined_for_each {A} (body : A -> M E unit) (l : list A) :
  (forall x, In x l -> confined P R (body x)) -> confined P R (for_each l body).
Proof.
  induction l as [|x l IH]; intros Hbody; cbn [for_each].
  - apply confined_ret.
  - apply confined_bind; [apply Hbody; now left|intros _].
    apply IH. intros y Hy. apply Hbody. now right.
Qed.

Lemma confined_fold_each {A S} (body : S -> A -> M E S) (l : list A) :
  (forall s x, In x l -> confined P R (body s x)) ->
  forall s, confined P R (fold_each l body s).
Proof.
  induction l as [|x l IH]; intros Hbody s; cbn [fold_each].
  - apply confined_ret.
  - apply confined_bind; [apply Hbody; now left|intros s'].
    apply IH. intros s0 y Hy. apply Hbody. now right.
Qed.
End Confined.

Lemma confined_weaken {E A} (P P' : Call -> Prop) (R R' : Submitter -> Submitter -> Prop)
    (m : M E A) :
  (forall c, P c -> P' c) -> (forall s s', R s s' -> R' s s') ->
  confined P R m -> confined P' R' m.
Proof.
  intros HP HR Hm w a w' H. apply Hm in H as (Hr & Hg & new & Ht & Hf).
  split; [now apply HR|]. split; [exact Hg|].
  exists new. split; [exact Ht|]. eapply Forall_impl; [exact Hf|].
  intros e He. now apply HP.
Qed.

Ltac relation_side :=
  first [ assumption
        | solve [intros; reflexivity]
        | solve [intros; congruence]
        | solve [intros; exact I]
        | solve [intros; intuition congruence] ].

(** One step of a confinement proof; the calls that are met are left as
    goals P c. *)
Ltac confine_step :=
  lazymatch goal with
  | |- confined _ _ (bind _ _) =>
      apply confined_bind; [relation_side| |intros ?]
  | |- confined _ _ (ret _) => apply confined_ret; relation_side
  | |- confined _ _ (call _ _) => apply confined_call; [relation_side|]
  | |- confined _ _ (grid_call _ _) => apply confined_grid_call; [relation_side|]
  | |- confined _ _ (interp_call _ _) => apply confined_interp_call; relation_side
  | |- confined _ _ get_self => apply confined_get_self; relation_side
  | |- confined _ _ get_gGrid => apply confined_get_gGrid; relation_side
  | |- confined _ _ crash => apply confined_crash
  | |- confined _ _ diverge => apply confined_diverge
  | |- confined _ _ (AliInfo _ _) => unfold AliInfo
  | |- confined _ _ (AliError _ _) => unfold AliError
  | |- confined _ _ (AliWarning _ _) => unfold AliWarning
  | |- confined _ _ (AliDebug _ _) => unfold AliDebug
  | |- confined _ _ (print _ _) => unfold print
  | |- confined _ _ (exec _ _) => unfold exec
  | |- confined _ _ (access_path_name _ _) => unfold access_path_name
  | |- confined _ _ (and_then _ _) => unfold and_then
  | |- confined _ _ (for_each _ _) =>
      apply confined_for_each; [relation_side|relation_side|intros ? ?]
  | |- confined _ _ (fold_each _ _ _) =>
      apply confined_fold_each; [relation_side|relation_side|intros ? ? ?]
  | |- confined _ _ (if ?c then _ else _) => destruct c
  | |- confined _ _ (match ?x with _ => _ end) => destruct x
  end.

Lemma confined_frame {E A} (P : Call -> Prop) (m : M E A) (w w' : World E) (a : A) :
  confined P eq m -> m w = Done a w' -> self w' = self w /\ gGrid w' = gGrid w.
Proof. intros Hm H. apply Hm in H as (Hs & Hg & _). auto. Qed.

(** Every world but the first is split into its fields. *)
Ltac open_worlds w0 :=
  repeat match goal with
         | x : World _ |- _ =>
             tryif constr_eq x w0 then fail
             else (destruct x as [? ? ? ?]; cbn [self gGrid trace ext] in * )
         end;
  cbn [self gGrid trace ext] in *.

(** ** The generator macro *)

Section Generator.
Context {E : Type}.
Variable env : E -> Call -> Resp * E.
Variable interp : E -> Interpreter -> Z * E.
Variable fuel : nat.
Variable RunJDLName : string.
Variable MergeJDLName : bool -> string.
Variable hash_place : string -> list (string * string) -> nat.

(** ReplaceVars, when it returns, returns kTRUE; it reads the file and
    may rewrite it, and touches nothing else. *)
Lemma ReplaceVars_inv (file : string) (w w' : World E) (b : bool) :
  ReplaceVars env fuel file w = Done b w' ->
  b = true /\ confined (rewrites file) eq (ReplaceVars env fuel file).
Proof.
  intros H. split.
  - unfold ReplaceVars in H.
    apply bind_inv in H as (s & w1 & _ & H).
    apply bind_inv in H as (r & w2 & _ & H).
    destruct (replace_in_lines fuel (fVars s) _ 0 0) as [[[lines nvars] nreplaced]|] eqn:Hrep;
      [|discriminate].
    apply replace_in_lines_counts in Hrep.
    assert (nreplaced = nvars) as -> by lia.
    rewrite Z.eqb_refl in H. cbn [negb] in H.
    destruct (nvars >? 0).
    + apply bind_inv in H as (? & ? & _ & H).
      apply bind_inv in H as (? & ? & _ & H).
      now apply Done_inj in H as (<- & _).
    + now apply Done_inj in H as (<- & _).
  - clear H w w' b. unfold ReplaceVars.
    apply confined_bind; [relation_side|apply confined_get_self; relation_side|].
    intros s.
    apply confined_bind; [relation_side| |intros r].
    { apply confined_call; [relation_side|]. now left. }
    destruct (replace_in_lines fuel (fVars s) _ 0 0) as [[[lines nvars] nreplaced]|] eqn:Hrep;
      [|apply confined_diverge].
    apply replace_in_lines_counts in Hrep.
    assert (nreplaced = nvars) as -> by lia.
    rewrite Z.eqb_refl. cbn [negb].
    destruct (nvars >? 0); [|apply confined_ret; relation_side].
    repeat confine_step.
    + right. now left.
    + right. right. eauto.
Qed.

Lemma ReplaceVars_confined (file : string) :
  confined (rewrites file) eq (ReplaceVars env fuel file).
Proof.
  intros w a w' H. exact (proj2 (ReplaceVars_inv file w w' a H) w a w' H).
Qed.

Lemma GetVariables_confined (file : string) :
  confined (fun c => c = ReadLines file) eq (GetVariables env fuel file).
Proof. unfold GetVariables. repeat confine_step. reflexivity. Qed.

Lemma CheckCompilation_confined (file : string) :
  confined (compiles file) eq (CheckCompilation env interp fuel file).
Proof.
  unfold CheckCompilation. cbv zeta.
  apply confined_bind; [relation_side| |intros ?].
  { repeat confine_step. now left. }
  apply confined_bind; [relation_side| |intros ?].
  { eapply confined_weaken; [| |apply ReplaceVars_confined].
    - intros c Hc. right. now left.
    - auto. }
  repeat confine_step.
  - right. right. now left.
  - right. right. now right.
Qed.

(** The count of SetGenerator: the variables the map does not define. *)
Lemma count_missing_inv (file : string) (variables : list string) :
  forall (n0 n : Z) (w w' : World E),
    fold_each variables (fun nofMissingVariables var =>
      bind get_self (fun s =>
        match TMap_GetValue (fVars s) var with
        | None =>
            bind (AliError env ("file " ++ file ++ " expect the variable " ++ var
                                ++ " to be defined, but we've not defined it !"))
              (fun _ => ret (nofMissingVariables + 1))
        | Some _ => ret nofMissingVariables
        end)) n0 w = Done n w' ->
    self w' = self w /\ gGrid w' = gGrid w
    /\ (exists new, trace w' = (trace w ++ new)%list
                    /\ Forall (fun e => exists msg, fst e = Log LError msg) new)
    /\ n0 <= n
    /\ (n = n0 -> Forall (fun var => TMap_GetValue (fVars (self w)) var <> None) variables).
Proof.
  induction variables as [|var variables IH]; intros n0 n w w' H; cbn [fold_each] in H.
  - apply Done_inj in H as (<- & <-). split; [reflexivity|]. split; [reflexivity|].
    split; [exists []; split; [now rewrite app_nil_r|constructor]|].
    split; [lia|constructor].
  - apply bind_inv in H as (n1 & w1 & Hbody & Hrest).
    apply IH in Hrest as (Hs & Hg & (new2 & Ht2 & Hf2) & Hle & Hall).
    follow Hbody; cbn [self gGrid trace] in *.
    + split; [exact Hs|]. split; [exact Hg|].
      split; [exists new2; auto|]. split; [exact Hle|].
      intros Hn. constructor; [congruence|auto].
    + split; [exact Hs|]. split; [exact Hg|]. split.
      * eexists. split; [rewrite Ht2, <- app_assoc; reflexivity|].
        constructor; [cbn; eauto|exact Hf2].
      * split; [lia|]. intros Hn. lia.
Qed.
End Generator.

Section GeneratorTheorems.
Context {E : Type}.
Variable env : E -> Call -> Resp * E.
Variable interp : E -> Interpreter -> Z * E.
Variable fuel : nat.
Variable RunJDLName : string.
Variable MergeJDLName : bool -> string.
Variable hash_place : string -> list (string * string) -> nat.

(** What SetGenerator leaves behind, case by case. *)
Lemma SetGenerator_inv (generator : string) (w w' : World E) (b : bool) :
  SetGenerator env interp fuel RunJDLName MergeJDLName hash_place generator w = Done b w' ->
  gGrid w' = gGrid w
  /\ (b = false -> self w' = set_fIsValid false (self w))
  /\ (b = true ->
      (let s1 := set_fIsValid true (self w) in
       let removed := TMap_Remove "VAR_GENERATOR" (fVars s1) in
       let s2 := set_fVars (TMap_Add (hash_place "VAR_GENERATOR" removed) "VAR_GENERATOR"
                              generator removed) s1 in
       self w'
       = set_fTemplateFileList
           (Some (match fTemplateFileList (self w) with
                  | Some l => l
                  | None => default_template_files RunJDLName MergeJDLName (self w)
                  end ++ [(generator ++ ".C")%string])%list) s2)
      /\ exists r variables,
           In (ReadLines (fTemplateDir (self w) ++ "/" ++ generator ++ ".C"), r) (trace w')
           /\ variables_in_lines fuel (getlines (as_lines r)) None = Some variables
           /\ Forall (fun var => TMap_GetValue (fVars (self w)) var <> None)
                (match variables with Some l => l | None => [] end)).
Proof.
  intros H. unfold SetGenerator, count_missing, SetVar, TemplateFileList_Add,
    TemplateFileList in H.
  change (negb (TStr.BeginsWith (TStr.ToUpper "VAR_GENERATOR") "VAR_")) with false in H.
  change (TStr.ToUpper "VAR_GENERATOR") with "VAR_GENERATOR" in H.
  follow H; cbn [self gGrid trace] in *.
  all: try discriminate.
  all: repeat match goal with
         | Hv : GetVariables _ _ _ _ = Done _ _ |- _ =>
             let Hs := fresh "Hs" in let Hg := fresh "Hg" in
             pose proof (confined_frame _ _ _ _ _ (GetVariables_confined env fuel _) Hv)
               as (Hs & Hg);
             unfold GetVariables in Hv; follow Hv
         | Hc : CheckCompilation _ _ _ _ _ = Done _ _ |- _ =>
             let Hs := fresh "Hs" in let Hg := fresh "Hg" in
             let n := fresh "new" in let Ht := fresh "Ht" in
             apply (CheckCompilation_confined env interp fuel) in Hc
               as (Hs & Hg & n & Ht & _)
         | Hf : fold_each _ _ _ _ = Done _ _ |- _ =>
             let Hs := fresh "Hs" in let Hg := fresh "Hg" in
             let n := fresh "new" in let Ht := fresh "Ht" in
             let Hle := fresh "Hle" in let Hall := fresh "Hall" in
             apply count_missing_inv in Hf as (Hs & Hg & (n & Ht & _) & Hle & Hall)
         end.
  all: open_worlds w; subst.
  all: cbn [fVars fIsValid fTemplateFileList fTemplateDir fExternalConfig fUseAODMerging
              set_fIsValid set_fVars set_fTemplateFileList default_template_files] in *.
  all: split; [reflexivity|].
  all: split; [intros Hb; try discriminate Hb; reflexivity|].
  all: intros Hb; try discriminate Hb.
  all: split;
    [try (match goal with
          | Hl : fTemplateFileList (self ?w0) = _ |- _ => rewrite Hl
          end); reflexivity|].
  all: match goal with
       | Hv : variables_in_lines _ (getlines (as_lines ?r)) None = Some ?v |- _ =>
           exists r, v; split; [|split; [exact Hv|]]
       end.
  all: try (rewrite !in_app_iff; cbn [In]; solve [auto 10]).
  all: match goal with
       | Hz : Z.eqb _ 0 = true, Hall : _ -> Forall _ _ |- _ =>
           apply Z.eqb_eq in Hz; apply Hall; exact Hz
       end.
Qed.
End GeneratorTheorems.

(** ** Confinement of the configuration methods *)

Section ConfiguredConfined.
Context {E : Type}.
Variable env : E -> Call -> Resp * E.
Variable interp : E -> Interpreter -> Z * E.
Variable fuel : nat.
Variable RunJDLName : string.
Variable MergeJDLName : bool -> string.
Variable hash_place : string -> list (string * string) -> nat.

Lemma TemplateFileList_confined (P : Call -> Prop) :
  confined (E:=E) P (keeps no_lists) (TemplateFileList RunJDLName MergeJDLName).
Proof.
  unfold TemplateFileList. repeat confine_step.
  apply confined_modify_self. reflexivity.
Qed.

Lemma LocalFileList_confined (P : Call -> Prop) :
  confined (E:=E) P (keeps no_lists) (LocalFileList RunJDLName MergeJDLName).
Proof.
  unfold LocalFileList. repeat confine_step.
  - apply TemplateFileList_confined.
  - apply confined_modify_self. reflexivity.
Qed.

Lemma LocalFileList_Add_confined (P : Call -> Prop) (f : string) :
  confined (E:=E) P (keeps no_lists) (LocalFileList_Add RunJDLName MergeJDLName f).
Proof.
  unfold LocalFileList_Add. repeat confine_step.
  - apply LocalFileList_confined.
  - apply confined_modify_self. reflexivity.
Qed.

Lemma TemplateFileList_Add_confined (P : Call -> Prop) (f : string) :
  confined (E:=E) P (keeps no_lists) (TemplateFileList_Add RunJDLName MergeJDLName f).
Proof.
  unfold TemplateFileList_Add. repeat confine_step.
  - apply TemplateFileList_confined.
  - apply confined_modify_self. reflexivity.
Qed.

Lemma UpdateLocalFileList_confined (clearSnapshots : bool) :
  confined (fun c => exists path, c = AccessPathName path) (keeps no_lists)
    (UpdateLocalFileList env RunJDLName MergeJDLName clearSnapshots).
Proof.
  unfold UpdateLocalFileList.
  repeat first [ apply LocalFileList_confined
               | apply LocalFileList_Add_confined
               | apply confined_modify_self; reflexivity
               | confine_step ].
  all: eauto.
Qed.

Lemma SetVar_confined (varname value : string) :
  confined (fun c => c = Log LError "Variable name should start with VAR_") (keeps no_vars)
    (SetVar env hash_place varname value).
Proof.
  unfold SetVar.
  repeat first [ apply confined_modify_self; reflexivity | confine_step ].
  reflexivity.
Qed.

Lemma UseOCDBSnapshots_confined (clearSnapshots flag : bool) :
  confined (fun c => c = Log LError "Variable name should start with VAR_"
                     \/ exists path, c = AccessPathName path)
    (keeps (fun s => no_lists (no_vars (set_fUseOCDBSnapshots false s))))
    (UseOCDBSnapshots env RunJDLName MergeJDLName hash_place clearSnapshots flag).
Proof.
  unfold UseOCDBSnapshots.
  apply confined_bind; [relation_side|apply confined_modify_self; reflexivity|intros _].
  apply confined_bind; [relation_side| |intros _].
  - assert (forall value,
               confined (fun c => c = Log LError "Variable name should start with VAR_"
                                  \/ exists path, c = AccessPathName path)
                 (keeps (fun s => no_lists (no_vars (set_fUseOCDBSnapshots false s))))
                 (SetVar env hash_place "VAR_OCDB_SNAPSHOT" value)) as Hset;
      [|destruct flag; apply Hset].
    intros value.
    eapply confined_weaken; [| |apply SetVar_confined].
    + intros c Hc. now left.
    + unfold keeps, no_vars. intros s s' H.
      apply (f_equal (fun x => no_lists (set_fUseOCDBSnapshots false x))) in H. exact H.
  - eapply confined_weaken; [| |apply UpdateLocalFileList_confined].
    + intros c Hc. now right.
    + unfold keeps, no_lists. intros s s' H.
      apply (f_equal (fun x => set_fTemplateFileList None
                                 (set_fLocalFileList None
                                    (no_vars (set_fUseOCDBSnapshots false x))))) in H.
      exact H.
Qed.
End ConfiguredConfined.

(** ** GetVariables *)

(** X3.  GetVariables returns on every file as soon as the fuel exceeds the
    1022 characters a line read by getline can hold: each round of its
    inner loop erases the variable it has found.  It makes one call, the
    reading of the file, and leaves the object and gGrid alone. *)
Theorem GetVariables_returns {E : Type} (env : E -> Call -> Resp * E) (fuel : nat)
    (file : string) (w : World E) :
  (1022 < fuel)%nat ->
  exists variables w' r,
    GetVariables env fuel file w = Done variables w'
    /\ trace w' = (trace w ++ [(ReadLines file, r)])%list
    /\ self w' = self w /\ gGrid w' = gGrid w.
Proof.
  intros Hfuel. unfold GetVariables, bind. rewrite call_eq.
  set (r := fst (env (ext w) (ReadLines file))).
  destruct (variables_in_lines_returns fuel (getlines (as_lines r))) with (variables := @None (list string))
    as (v & Hv).
  { eapply Forall_impl; [apply getlines_short|]. cbn. intros l Hl. lia. }
  rewrite Hv. unfold ret. eexists v, _, r. split; [reflexivity|]. cbn. auto.
Qed.

Lemma GetVariables_returns_witness :
  (1022 < 1023)%nat
  /\ exists variables w' r,
       GetVariables Scenario.grid_unknown_var 1023 "/opt/AccEffTemplates/Config.C"
         Scenario.valid_world = Done variables w'
       /\ trace w' = (trace Scenario.valid_world
                      ++ [(ReadLines "/opt/AccEffTemplates/Config.C", r)])%list
       /\ self w' = self Scenario.valid_world /\ gGrid w' = gGrid Scenario.valid_world.
Proof.
  split; [lia|].
  apply (GetVariables_returns Scenario.grid_unknown_var 1023
           "/opt/AccEffTemplates/Config.C" Scenario.valid_world). lia.
Defined.

(** X4.  What GetVariables returns: a null pointer exactly when HasVars says
    no on the same file, and otherwise a non empty array without
    repetition whose entries begin with VAR_ and are made of letters,
    digits and underscores only. *)
Theorem GetVariables_finds_names {E : Type} (env : E -> Call -> Resp * E) (fuel : nat)
    (file : string) (w w' : World E) (variables : option (list string)) :
  GetVariables env fuel file w = Done variables w' ->
  HasVars env file w
  = Done (match variables with Some _ => true | None => false end) w'
  /\ match variables with
     | None => True
     | Some l =>
         l <> [] /\ NoDup l
         /\ Forall (fun var => TStr.BeginsWith var "VAR_" = true /\ var_chars var = true) l
     end.
Proof.
  unfold GetVariables, HasVars, bind. rewrite call_eq.
  set (r := fst (env (ext w) (ReadLines file))).
  destruct (variables_in_lines fuel (getlines (as_lines r)) None) as [v|] eqn:Hv;
    [|discriminate].
  intros H. apply Done_inj in H as (<- & <-).
  apply variables_in_lines_ok in Hv as (Hok & Hnone); [|exact I].
  split; [|exact Hok].
  unfold ret. f_equal.
  destruct v as [l|].
  - destruct (existsb line_has_var (getlines (as_lines r))) eqn:Hex; [reflexivity|].
    assert (@Some (list string) l = None) as Habs by (apply Hnone; auto). discriminate.
  - now destruct (proj1 Hnone eq_refl) as (_ & ->).
Qed.

Lemma GetVariables_finds_names_witness :
  exists w',
    GetVariables Scenario.grid_unknown_var 1023 "/opt/AccEffTemplates/Config.C"
      Scenario.valid_world = Done (Some ["VAR_UNDEFINED_CODE"]) w'
    /\ HasVars Scenario.grid_unknown_var "/opt/AccEffTemplates/Config.C"
         Scenario.valid_world = Done true w'.
Proof.
  assert (exists w', GetVariables Scenario.grid_unknown_var 1023
                       "/opt/AccEffTemplates/Config.C" Scenario.valid_world
                     = Done (Some ["VAR_UNDEFINED_CODE"]) w') as (w' & H)
    by (eexists; vm_compute; reflexivity).
  exists w'. split; [exact H|].
  exact (proj1 (GetVariables_finds_names Scenario.grid_unknown_var 1023
                  "/opt/AccEffTemplates/Config.C" Scenario.valid_world w'
                  (Some ["VAR_UNDEFINED_CODE"]) H)).
Defined.

(** ** SetGenerator *)

Lemma vars_ok_defined_upper (m : list (string * string)) (var : string) :
  vars_ok m -> TMap_GetValue m var <> None -> TStr.ToUpper var = var.
Proof.
  intros (_ & Hall) Hdef.
  assert (In var (map fst m)) as Hin.
  { destruct (in_dec string_dec var (map fst m)) as [Hin|Hnot]; [exact Hin|].
    exfalso. apply Hdef. now apply TMap_GetValue_None. }
  apply in_map_iff in Hin as ([k v] & <- & Hkv).
  rewrite Forall_forall in Hall. apply list_elem_of_In in Hkv.
  now destruct (Hall _ Hkv).
Qed.

Lemma SetGenerator_sets_validity {E : Type} (env : E -> Call -> Resp * E)
    (interp : E -> Interpreter -> Z * E) (fuel : nat) (RunJDLName : string)
    (MergeJDLName : bool -> string) (hash_place : string -> list (string * string) -> nat)
    (generator : string) (w w' : World E) (b : bool) :
  SetGenerator env interp fuel RunJDLName MergeJDLName hash_place generator w = Done b w' ->
  fIsValid (self w') = b /\ gGrid w' = gGrid w.
Proof.
  intros H. apply SetGenerator_inv in H as (Hg & Hfalse & Htrue).
  split; [|exact Hg].
  destruct b; [destruct (Htrue eq_refl) as (-> & _)|rewrite (Hfalse eq_refl)];
    reflexivity.
Qed.

(** X5.  The result of SetGenerator is the validity of the object afterwards,
    whatever it was before.  On kFALSE nothing else changes: the map of
    variables and the file lists are those of the last accepted generator.
    On kTRUE the macro name is appended to the template file list (created
    on the spot if need be), the local file list is left alone, and, on a
    map with distinct keys, VAR_GENERATOR is the generator while every
    other variable keeps its value.  gGrid is never touched. *)
Theorem SetGenerator_validity {E : Type} (env : E -> Call -> Resp * E)
    (interp : E -> Interpreter -> Z * E) (fuel : nat) (RunJDLName : string)
    (MergeJDLName : bool -> string) (hash_place : string -> list (string * string) -> nat)
    (generator : string) (w w' : World E) (b : bool) :
  SetGenerator env interp fuel RunJDLName MergeJDLName hash_place generator w = Done b w' ->
  fIsValid (self w') = b
  /\ gGrid w' = gGrid w
  /\ (b = false -> self w' = set_fIsValid false (self w))
  /\ (b = true ->
      fTemplateFileList (self w')
      = Some (current_template_files RunJDLName MergeJDLName (self w)
              ++ [(generator ++ ".C")%string])%list
      /\ fLocalFileList (self w') = fLocalFileList (self w)
      /\ (vars_ok (fVars (self w)) ->
          vars_ok (fVars (self w'))
          /\ TMap_GetValue (fVars (self w')) "VAR_GENERATOR" = Some generator
          /\ forall k, k <> "VAR_GENERATOR" ->
                       TMap_GetValue (fVars (self w')) k
                       = TMap_GetValue (fVars (self w)) k)).
Proof.
  intros H. apply SetGenerator_inv in H as (Hg & Hfalse & Htrue).
  split; [|split; [exact Hg|split; [exact Hfalse|]]].
  - destruct b; [destruct (Htrue eq_refl) as (-> & _)|rewrite (Hfalse eq_refl)];
      reflexivity.
  - intros Hb. destruct (Htrue Hb) as (Hs & _). rewrite Hs.
    split; [reflexivity|]. split; [reflexivity|].
    cbn [fVars set_fTemplateFileList set_fVars set_fIsValid].
    intros (Hnd & Hall).
    destruct (TMap_Remove_NoDup "VAR_GENERATOR" _ Hnd) as (Hnd' & Hkey).
    split; [split|split].
    + rewrite TMap_Add_keys. apply NoDup_cons. rewrite list_elem_of_In. auto.
    + apply TMap_Add_Forall; [cbn [fst]; split; reflexivity|].
      now apply TMap_Remove_Forall.
    + rewrite TMap_Add_lookup by exact Hkey. reflexivity.
    + intros k Hk. rewrite TMap_Add_lookup by exact Hkey.
      destruct (String.eqb_spec "VAR_GENERATOR" k) as [Heq|_]; [congruence|].
      now apply TMap_Remove_other.
Qed.

Lemma SetGenerator_validity_witness :
  exists w',
    SetGenerator Setup.workstation Setup.interp_failing 1023 Scenario.RunJDLName Scenario.MergeJDLName Setup.in_order
      "GenParamCustom" Setup.configured_world = Done false w'
    /\ fIsValid (self w') = false
    /\ self w' = set_fIsValid false (self Setup.configured_world).
Proof.
  assert (exists w',
    SetGenerator Setup.workstation Setup.interp_failing 1023 Scenario.RunJDLName Scenario.MergeJDLName Setup.in_order
      "GenParamCustom" Setup.configured_world = Done false w') as (w' & H).
  { eexists. vm_compute. reflexivity. }
  exists w'. split; [exact H|].
  destruct (SetGenerator_validity _ _ _ _ _ _ _ _ _ _ H) as (Hv & _ & Hf & _).
  split; [exact Hv|exact (Hf eq_refl)].
Defined.

(** X6.  SetGenerator accepts a macro only if the map defines every variable
    GetVariables finds in it; on a map built by SetVar these names are
    therefore in upper case, so that a macro using a variable with a lower
    case letter is never accepted. *)
Theorem SetGenerator_needs_every_variable {E : Type} (env : E -> Call -> Resp * E)
    (interp : E -> Interpreter -> Z * E) (fuel : nat) (RunJDLName : string)
    (MergeJDLName : bool -> string) (hash_place : string -> list (string * string) -> nat)
    (generator : string) (w w' : World E) :
  SetGenerator env interp fuel RunJDLName MergeJDLName hash_place generator w
  = Done true w' ->
  exists r variables,
    In (ReadLines (fTemplateDir (self w) ++ "/" ++ generator ++ ".C"), r) (trace w')
    /\ variables_in_lines fuel (getlines (as_lines r)) None = Some variables
    /\ Forall (fun var =>
                 TMap_GetValue (fVars (self w)) var <> None
                 /\ (vars_ok (fVars (self w)) -> TStr.ToUpper var = var))
         (match variables with Some l => l | None => [] end).
Proof.
  intros H. apply SetGenerator_inv in H as (_ & _ & Htrue).
  destruct (Htrue eq_refl) as (_ & r & variables & Hin & Hv & Hall).
  exists r, variables. split; [exact Hin|]. split; [exact Hv|].
  eapply Forall_impl; [exact Hall|]. cbn. intros var Hdef.
  split; [exact Hdef|]. intros Hok. now apply (vars_ok_defined_upper _ _ Hok).
Qed.

Lemma SetGenerator_needs_every_variable_witness :
  exists w' r variables,
    SetGenerator Setup.workstation Setup.interp_ok 1023 Scenario.RunJDLName
      Scenario.MergeJDLName Setup.in_order "GenParamCustom" Setup.configured_world
    = Done true w'
    /\ In (ReadLines "/opt/AccEffTemplates/GenParamCustom.C", r) (trace w')
    /\ variables_in_lines 1023 (getlines (as_lines r)) None = Some variables
    /\ Forall (fun var =>
                 TMap_GetValue (fVars (self Setup.configured_world)) var <> None
                 /\ (vars_ok (fVars (self Setup.configured_world)) ->
                     TStr.ToUpper var = var))
         (match variables with Some l => l | None => [] end).
Proof.
  assert (exists w',
    SetGenerator Setup.workstation Setup.interp_ok 1023 Scenario.RunJDLName
      Scenario.MergeJDLName Setup.in_order "GenParamCustom" Setup.configured_world
    = Done true w') as (w' & H).
  { eexists. vm_compute. reflexivity. }
  destruct (SetGenerator_needs_every_variable _ _ _ _ _ _ _ _ _ H)
    as (r & variables & Hin & Hv & Hall).
  exists w', r, variables. auto.
Defined.

(** ** The constructor *)

Section Constructor.
Context {E : Type}.
Variable env : E -> Call -> Resp * E.
Variable interp : E -> Interpreter -> Z * E.
Variable fuel : nat.
Variable RunJDLName : string.
Variable MergeJDLName : bool -> string.
Variable hash_place : string -> list (string * string) -> nat.
Variable default_api : string.
Variable default_clearSnapshots : bool.

(** What every configuration step does: it adds to the record of calls
    and leaves gGrid alone. *)
Lemma SetVar_grows (varname value : string) (w w' : World E) (b : bool) :
  SetVar env hash_place varname value w = Done b w' ->
  gGrid w' = gGrid w /\ exists new, trace w' = (trace w ++ new)%list.
Proof.
  intros H. apply SetVar_confined in H as (_ & Hg & new & Ht & _). eauto.
Qed.

Lemma UseOCDBSnapshots_grows (flag : bool) (w w' : World E) (u : unit) :
  UseOCDBSnapshots env RunJDLName MergeJDLName hash_place default_clearSnapshots flag w
  = Done u w' ->
  gGrid w' = gGrid w /\ exists new, trace w' = (trace w ++ new)%list.
Proof.
  intros H. apply UseOCDBSnapshots_confined in H as (_ & Hg & new & Ht & _). eauto.
Qed.

Lemma SetGenerator_grows (generator : string) (w w' : World E) (b : bool) :
  SetGenerator env interp fuel RunJDLName MergeJDLName hash_place generator w = Done b w' ->
  exists new, trace w' = (trace w ++ new)%list.
Proof.
  assert (confined (fun _ => True) (fun _ _ => True)
            (SetGenerator env interp fuel RunJDLName MergeJDLName hash_place generator))
    as Hc.
  { unfold SetGenerator, count_missing.
    repeat first
      [ apply confined_modify_self; intros; exact I
      | eapply confined_weaken; [| |apply GetVariables_confined]; [auto|auto]
      | eapply confined_weaken; [| |apply CheckCompilation_confined]; [auto|auto]
      | eapply confined_weaken; [| |apply SetVar_confined]; [auto|auto]
      | eapply confined_weaken; [| |apply TemplateFileList_Add_confined with (P := fun _ => True)];
        [auto|auto]
      | confine_step ].
    all: exact I. }
  intros H. apply Hc in H as (_ & _ & new & Ht & _). eauto.
Qed.
End Constructor.

(** X7.  The constructor leaves the validity of the object to SetGenerator
    alone: the object is valid exactly when the last step, SetGenerator on
    the macro asked for, returned kTRUE, and the answer of TGrid::Connect,
    the first call made, does not enter.  gGrid is set when the connection
    succeeded and is left as it was otherwise; so an object can be valid
    while gGrid is null. *)
Theorem Construct_validity {E : Type} (env : E -> Call -> Resp * E)
    (interp : E -> Interpreter -> Z * E) (fuel : nat) (RunJDLName : string)
    (MergeJDLName : bool -> string) (hash_place : string -> list (string * string) -> nat)
    (default_api : string) (default_clearSnapshots : bool)
    (generator : string) (w w' : World E) :
  Construct env interp fuel RunJDLName MergeJDLName hash_place default_api
    default_clearSnapshots generator w = Done tt w' ->
  exists r rest w1 b,
    trace w' = (trace w ++ (GridConnect "alien://", r) :: rest)%list
    /\ gGrid w' = (if as_bool r then true else gGrid w)
    /\ SetGenerator env interp fuel RunJDLName MergeJDLName hash_place generator w1
       = Done b w'
    /\ fIsValid (self w') = b.
Proof.
  intros H. unfold Construct, SetPackages in H.
  follow H.
  all: repeat match goal with
         | Hv : SetVar _ _ _ _ _ = Done _ _ |- _ =>
             apply SetVar_grows in Hv as (? & ? & ?)
         | Hu : UseOCDBSnapshots _ _ _ _ _ _ _ = Done _ _ |- _ =>
             apply UseOCDBSnapshots_grows in Hu as (? & ? & ?)
         end.
  all: match goal with
       | Hs : SetGenerator _ _ _ _ _ _ _ _ = Done _ _ |- _ =>
           pose proof (SetGenerator_sets_validity _ _ _ _ _ _ _ _ _ _ Hs) as (Hvalid & Hgrid);
           pose proof (SetGenerator_grows _ _ _ _ _ _ _ _ _ _ Hs) as (newg & Htg)
       end.
  all: open_worlds w; subst; cbn [gGrid] in *.
  all: match goal with
       | Hs : SetGenerator _ _ _ _ _ _ _ ?w1 = Done ?b _,
         Hc : _ (GridConnect _) = (?r, _) |- _ =>
           exists r; eexists; exists w1, b
       end.
  all: (split; [|split; [|split; [eassumption|reflexivity]]]).
  all: try match goal with
           | Hb : as_bool ?r = _ |- context [as_bool ?r] => rewrite Hb
           end.
  all: try reflexivity.
  all: rewrite <- !app_assoc; reflexivity.
Qed.

Lemma Construct_validity_witness :
  exists w' r rest w1,
    Construct Setup.workstation Setup.interp_ok 1023 Scenario.RunJDLName
      Scenario.MergeJDLName Setup.in_order "VO_ALICE@APISCONFIG::V1.1x" false
      "GenParamCustom" Setup.fresh_world = Done tt w'
    /\ trace w' = (trace Setup.fresh_world ++ (GridConnect "alien://", r) :: rest)%list
    /\ as_bool r = false
    /\ gGrid w' = false
    /\ SetGenerator Setup.workstation Setup.interp_ok 1023 Scenario.RunJDLName
         Scenario.MergeJDLName Setup.in_order "GenParamCustom" w1 = Done true w'
    /\ fIsValid (self w') = true.
Proof.
  assert (exists w',
    Construct Setup.workstation Setup.interp_ok 1023 Scenario.RunJDLName
      Scenario.MergeJDLName Setup.in_order "VO_ALICE@APISCONFIG::V1.1x" false
      "GenParamCustom" Setup.fresh_world = Done tt w'
    /\ fIsValid (self w') = true /\ gGrid w' = false) as (w' & H & Hvalid & Hgrid).
  { eexists. split; [vm_compute; reflexivity|]. split; reflexivity. }
  destruct (Construct_validity _ _ _ _ _ _ _ _ _ _ _ H)
    as (r & rest & w1 & b & Ht & Hg & Hs & Hb).
  assert (b = true) as -> by congruence.
  exists w', r, rest, w1. split; [exact H|]. split; [exact Ht|].
  split; [|auto].
  destruct (as_bool r); [rewrite Hg in Hgrid; discriminate|reflexivity].
Defined.

(** ** Without a grid connection *)

(** X9.  On a valid object with a null gGrid, Submit (in both modes) and
    Run("SUBMIT") dereference the null pointer right after their validity
    test, while Merge fails in an orderly way: it makes no grid call, logs
    that the merged directory does not exist and returns kFALSE. *)
Theorem Submit_without_grid {E : Type} (env : E -> Call -> Resp * E) (fuel : nat)
    (RunJDLName : string) (MergeJDLName : bool -> string)
    (GetSplitMaxInputFileNumber : Submitter -> string) (w : World E) :
  fIsValid (self w) = true -> gGrid w = false ->
  (forall dryRun, exists w1,
      Submit env fuel RunJDLName dryRun w = Crash w1
      /\ self w1 = self w /\ map fst (trace w1) = (map fst (trace w) ++ [Log LDebug EmptyString])%list)
  /\ (exists w1,
        Run env fuel RunJDLName MergeJDLName GetSplitMaxInputFileNumber "SUBMIT" w = Crash w1)
  /\ (forall stage dryRun, exists w2,
        Merge env fuel MergeJDLName stage dryRun w = Done false w2
        /\ map fst (trace w2)
           = (map fst (trace w)
              ++ [Log LError ("directory " ++ fMergedDir (self w) ++ " does not exist")])%list).
Proof.
  intros Hvalid Hgrid.
  assert (forall dryRun, exists w1,
      Submit env fuel RunJDLName dryRun w = Crash w1
      /\ self w1 = self w
      /\ map fst (trace w1) = (map fst (trace w) ++ [Log LDebug EmptyString])%list)
    as Hsubmit.
  { intros dryRun. unfold Submit, Submit_guards, IsValid, AliDebug, grid_call, bind,
      get_self, get_gGrid, ret. rewrite Hvalid. cbn [negb]. rewrite call_eq.
    cbn [gGrid]. rewrite Hgrid. unfold crash.
    eexists. split; [reflexivity|]. cbn [self trace]. split; [reflexivity|].
    now rewrite map_app. }
  split; [exact Hsubmit|]. split.
  - destruct (Hsubmit false) as (w1 & H1 & _). exists w1.
    unfold Run. cbn [Run_depth]. unfold IsValid, bind at 1, get_self.
    unfold bind at 1, ret at 1. rewrite Hvalid. cbn [negb].
    change (TStr.ToUpper "SUBMIT") with "SUBMIT".
    change (String.eqb "SUBMIT" "FULL") with false.
    change (String.eqb "SUBMIT" "LOCAL") with false.
    change (String.eqb "SUBMIT" "UPLOAD") with false.
    change (String.eqb "SUBMIT" "OCDB") with false.
    change (String.eqb "SUBMIT" "TEST") with false.
    change (String.eqb "SUBMIT" "SUBMIT") with true.
    cbv iota. unfold bind. now rewrite H1.
  - intros stage dryRun. unfold Merge. unfold bind at 1, get_self.
    rewrite (bind_Done _ _ _ _ _ (RemoteDirectoryExists_no_grid env _ w Hgrid)).
    cbn [negb]. unfold AliError, bind. rewrite call_eq. unfold ret.
    eexists. split; [reflexivity|]. cbn [trace]. now rewrite map_app.
Qed.

Lemma Submit_without_grid_witness :
  fIsValid (self Setup.offline_world) = true
  /\ gGrid Setup.offline_world = false
  /\ (exists w1,
        Submit Scenario.grid_ok 10 Scenario.RunJDLName false Setup.offline_world = Crash w1)
  /\ (exists w2,
        Merge Scenario.grid_ok 10 Scenario.MergeJDLName 0 false Setup.offline_world
        = Done false w2).
Proof.
  split; [reflexivity|]. split; [reflexivity|].
  destruct (Submit_without_grid Scenario.grid_ok 10 Scenario.RunJDLName
              Scenario.MergeJDLName Scenario.GetSplitMaxInputFileNumber
              Setup.offline_world eq_refl eq_refl) as (Hsubmit & _ & Hmerge).
  split.
  - destruct (Hsubmit false) as (w1 & H & _). eauto.
  - destruct (Hmerge 0 false) as (w2 & H & _). eauto.
Defined.

(** ** The rounding of the chunk size *)



(** ** The upload loop *)

(** X11.  allok = allok && CopyFile(...): once a copy has failed the remaining
    files are not looked at.  The loop started with allok false returns at
    once in the same world; hence a loop that has failed on a list of
    files ends in the same world, with the same record of calls, when more
    files follow. *)
Theorem upload_stops_at_first_failure {E : Type} (env : E -> Call -> Resp * E) :
  (forall (rest : list string) (w : World E),
      fold_each rest (fun allok ftc => and_then (ret allok) (CopyFile env ftc)) false w
      = Done false w)
  /\ (forall (files rest : list string) (w w1 : World E),
      fold_each files (fun allok ftc => and_then (ret allok) (CopyFile env ftc)) true w
      = Done false w1 ->
      fold_each (files ++ rest)
        (fun allok ftc => and_then (ret allok) (CopyFile env ftc)) true w
      = Done false w1).
Proof.
  assert (forall (rest : list string) (w : World E),
      fold_each rest (fun allok ftc => and_then (ret allok) (CopyFile env ftc)) false w
      = Done false w) as Hfalse.
  { induction rest as [|f rest IH]; intros w; [reflexivity|].
    cbn [fold_each]. unfold and_then at 1, bind, ret at 1. cbv iota.
    unfold ret at 1. apply IH. }
  split; [exact Hfalse|].
  intros files rest. 
  assert (forall (b : bool) (w w1 : World E),
      fold_each files (fun allok ftc => and_then (ret allok) (CopyFile env ftc)) b w
      = Done false w1 ->
      fold_each (files ++ rest)
        (fun allok ftc => and_then (ret allok) (CopyFile env ftc)) b w
      = Done false w1) as Hgen; [|apply Hgen].
  induction files as [|f files IH]; intros b w w1 H; cbn [fold_each app] in *.
  - apply Done_inj in H as (-> & ->). apply Hfalse.
  - apply bind_inv in H as (b1 & w2 & Hf & Hrest).
    rewrite (bind_Done _ _ _ _ _ Hf). now apply IH.
Qed.

(** ** The file lists *)

Section FileLists.
Context {E : Type}.
Variable env : E -> Call -> Resp * E.
Variable RunJDLName : string.
Variable MergeJDLName : bool -> string.

(** LocalFileList() makes no call; afterwards the local list exists and
    is the list returned. *)
Lemma LocalFileList_run (w : World E) :
  exists s',
    LocalFileList RunJDLName MergeJDLName w
    = Done (current_local_files RunJDLName MergeJDLName (self w))
        (mkWorld (ext w) (trace w) (gGrid w) s')
    /\ fLocalFileList s' = Some (current_local_files RunJDLName MergeJDLName (self w))
    /\ no_lists s' = no_lists (self w)
    /\ fTemplateFileList s'
       = match fLocalFileList (self w) with
         | Some _ => fTemplateFileList (self w)
         | None => Some (current_template_files RunJDLName MergeJDLName (self w))
         end.
Proof.
  unfold LocalFileList, TemplateFileList, current_local_files, current_template_files,
    bind, get_self, modify_self, ret.
  destruct w as [e t g s]. cbv beta iota delta [self ext trace gGrid].
  destruct (fLocalFileList s) as [l|] eqn:Hl.
  - exists s. split; [reflexivity|]. auto.
  - destruct (fTemplateFileList s) as [l|] eqn:Ht.
    + eexists. split; [reflexivity|]. cbn. rewrite Ht. auto.
    + eexists. split; [reflexivity|]. cbn. auto.
Qed.

Lemma TemplateFileList_run (w : World E) :
  TemplateFileList RunJDLName MergeJDLName w
  = Done (current_template_files RunJDLName MergeJDLName (self w))
      (mkWorld (ext w) (trace w) (gGrid w)
         (set_fTemplateFileList
            (Some (current_template_files RunJDLName MergeJDLName (self w))) (self w))).
Proof.
  unfold TemplateFileList, current_template_files, bind, get_self, modify_self, ret.
  destruct w as [e t g s]. cbv beta iota delta [self ext trace gGrid].
  destruct (fTemplateFileList s) as [l|] eqn:Ht; [|reflexivity].
  do 2 f_equal. destruct s. cbn in *. now subst.
Qed.
End FileLists.

(** ** CheckLocal on a disk *)

Lemma CheckLocal_files_disk (files : list string) :
  forall w : World (gset string),
  exists b w' checked,
    CheckLocal_files local_disk files w = Done b w'
    /\ ext w' = ext w /\ self w' = self w /\ gGrid w' = gGrid w
    /\ trace w'
       = (trace w ++ map (fun f => (AccessPathName f,
                                    RBool (negb (bool_decide (f ∈ ext w))))) checked)%list
    /\ checked `prefix_of` files
    /\ (b = true <-> forall f, In f files -> f ∈ ext w)
    /\ (b = true -> checked = files)
    /\ (b = false -> exists f, last checked = Some f /\ f ∉ ext w).
Proof.
  induction files as [|f files IH]; intros w; cbn [CheckLocal_files].
  - exists true, w, []. split; [reflexivity|]. cbn. rewrite app_nil_r.
    repeat split; auto; try discriminate. intros _ f [].
  - unfold access_path_name, bind at 1, bind at 1. rewrite call_eq. cbn [local_disk fst snd].
    unfold ret at 1. cbn [as_bool].
    destruct (bool_decide (f ∈ ext w)) eqn:Hf; cbn [negb].
    + apply bool_decide_eq_true in Hf.
      destruct (IH (mkWorld (ext w)
                      (trace w ++ [(AccessPathName f, RBool (negb (bool_decide (f ∈ ext w))))])%list
                      (gGrid w) (self w)))
        as (b & w' & checked & Hrun & He & Hs & Hg & Ht & Hpre & Hb & Hall & Hmiss).
      cbn [ext self gGrid trace] in *.
      assert (bool_decide (f ∈ ext w) = true) as Hdec by now apply bool_decide_eq_true.
      rewrite Hdec in *. cbn [negb] in *.
      exists b, w', (f :: checked). split; [exact Hrun|].
      split; [exact He|]. split; [exact Hs|]. split; [exact Hg|].
      split; [rewrite Ht, <- app_assoc; cbn [map app]; now rewrite Hdec|].
      split; [now apply prefix_cons|]. split; [|split].
      * rewrite Hb. split.
        -- intros H x [<-|Hx]; auto.
        -- intros H x Hx. apply H. now right.
      * intros Hbt. now rewrite (Hall Hbt).
      * intros Hbf. destruct (Hmiss Hbf) as (x & Hlast & Hx).
        exists x. split; [|exact Hx].
        destruct checked; [discriminate|]. exact Hlast.
    + apply bool_decide_eq_false in Hf. unfold ret.
      eexists false, _, [f]. split; [reflexivity|]. cbn [ext self gGrid trace map].
      assert (bool_decide (f ∈ ext w) = false) as Hdec by now apply bool_decide_eq_false.
      rewrite Hdec. cbn [negb].
      repeat split; auto; try discriminate.
      * apply prefix_cons, prefix_nil.
      * intros H. exfalso. apply Hf, H. now left.
      * exists f. auto.
Qed.

(** X12.  CheckLocal on a local disk: it looks at the listed files in order and
    stops at the first one that is missing; it returns kTRUE exactly when
    every listed file is on the disk, and leaves the disk as it is. *)
Theorem CheckLocal_on_disk (RunJDLName : string) (MergeJDLName : bool -> string)
    (w : World (gset string)) :
  let files := current_local_files RunJDLName MergeJDLName (self w) in
  exists b w' checked,
    CheckLocal local_disk RunJDLName MergeJDLName w = Done b w'
    /\ ext w' = ext w
    /\ map fst (drop (length (trace w)) (trace w')) = map AccessPathName checked
    /\ checked `prefix_of` files
    /\ (b = true <-> forall f, In f files -> f ∈ ext w)
    /\ (b = true -> checked = files)
    /\ (b = false -> exists f, last checked = Some f /\ f ∉ ext w).
Proof.
  intros files.
  destruct (LocalFileList_run RunJDLName MergeJDLName w) as (s' & Hlist & _).
  destruct (CheckLocal_files_disk files (mkWorld (ext w) (trace w) (gGrid w) s'))
    as (b & w' & checked & Hrun & He & _ & _ & Ht & Hpre & Hb & Hall & Hmiss).
  cbn [ext trace] in *.
  exists b, w', checked. split.
  { unfold CheckLocal. now rewrite (bind_Done _ _ _ _ _ Hlist). }
  split; [exact He|]. split.
  { rewrite Ht, drop_app_length, map_map. reflexivity. }
  auto.
Qed.

Lemma unlink_all_disk (l : list string) :
  forall w0 : World (gset string), exists w1 new,
    for_each l (fun file =>
      if (negb true && TStr.Contains file "OCDB_")%bool then ret tt
      else bind (call local_disk (Unlink file)) (fun _ => ret tt)) w0 = Done tt w1
    /\ ext w1 = ext w0 ∖ list_to_set l
    /\ self w1 = self w0
    /\ trace w1 = (trace w0 ++ new)%list
    /\ map fst new = map Unlink l.
Proof.
  induction l as [|f l IH]; intros w0.
  - exists w0, []. split; [reflexivity|]. split; [cbn; set_solver|].
    split; [reflexivity|]. now rewrite app_nil_r.
  - cbn [for_each negb andb]. unfold bind at 1, bind at 1. rewrite call_eq.
    unfold ret at 1. cbn [local_disk fst snd].
    destruct (IH (mkWorld (ext w0 ∖ {[f]})
                    (trace w0 ++ [(Unlink f,
                                   RInt (if bool_decide (f ∈ ext w0) then 0 else -1))])%list
                    (gGrid w0) (self w0))) as (w1 & new & Hrun & He & Hs & Ht & Hn).
    cbn [ext self trace] in *.
    eexists w1, (_ :: new). split; [exact Hrun|].
    split; [rewrite He; cbn; set_solver|]. split; [exact Hs|].
    split; [rewrite Ht, <- app_assoc; reflexivity|].
    cbn [map fst]. now rewrite Hn.
Qed.

(** X13.  CleanLocal(kTRUE) on a local disk removes every listed file, the
    snapshots included, and nothing else; CheckLocal called next fails,
    unless the list was empty. *)
Theorem CleanLocal_all_then_CheckLocal (RunJDLName : string)
    (MergeJDLName : bool -> string) (w : World (gset string)) :
  let files := current_local_files RunJDLName MergeJDLName (self w) in
  exists w1,
    CleanLocal local_disk RunJDLName MergeJDLName true w = Done tt w1
    /\ ext w1 = ext w ∖ list_to_set files
    /\ map fst (drop (length (trace w)) (trace w1)) = map Unlink files
    /\ current_local_files RunJDLName MergeJDLName (self w1) = files
    /\ exists b w2,
         CheckLocal local_disk RunJDLName MergeJDLName w1 = Done b w2
         /\ (b = true <-> files = []).
Proof.
  intros files.
  destruct (LocalFileList_run RunJDLName MergeJDLName w) as (s' & Hlist & Hl' & _).
  destruct (unlink_all_disk files (mkWorld (ext w) (trace w) (gGrid w) s'))
    as (w1 & new & Hrun & He & Hs & Ht & Hn).
  cbn [ext self trace] in *.
  exists w1. split.
  { unfold CleanLocal. now rewrite (bind_Done _ _ _ _ _ Hlist). }
  split; [exact He|]. split; [now rewrite Ht, drop_app_length|].
  assert (current_local_files RunJDLName MergeJDLName (self w1) = files) as Hfiles.
  { rewrite Hs. unfold current_local_files. now rewrite Hl'. }
  split; [exact Hfiles|].
  destruct (LocalFileList_run RunJDLName MergeJDLName w1) as (s2 & Hlist2 & _).
  destruct (CheckLocal_files_disk (current_local_files RunJDLName MergeJDLName (self w1))
              (mkWorld (ext w1) (trace w1) (gGrid w1) s2))
    as (b & w2 & checked & Hcheck0 & _ & _ & _ & _ & _ & Hb & _).
  assert (CheckLocal local_disk RunJDLName MergeJDLName w1 = Done b w2) as Hcheck.
  { unfold CheckLocal. now rewrite (bind_Done _ _ _ _ _ Hlist2). }
  cbn [ext] in Hb.
  exists b, w2. split; [exact Hcheck|]. rewrite Hb, Hfiles, He. split.
  - intros H. destruct files as [|f files']; [reflexivity|].
    specialize (H f (or_introl eq_refl)). set_solver.
  - intros ->. intros f [].
Qed.

(** ** UpdateLocalFileList on a disk *)

Lemma Contains_app_r (a b pat : string) :
  TStr.Contains b pat = true -> TStr.Contains (a ++ b) pat = true.
Proof.
  intros H. induction a as [|c a IH]; [exact H|].
  change (String c a ++ b)%string with (String c (a ++ b)).
  now apply Contains_tail.
Qed.

Lemma snapshot_path_is_snapshot (s : Submitter) (runNumber : Z) (type : string) :
  is_snapshot (snapshot_path s runNumber type) = true.
Proof.
  unfold is_snapshot, snapshot_path.
  do 2 apply Contains_app_r.
  apply Contains_app_r with (a := TStr.of_int runNumber).
  apply Contains_tail. apply starts_with_Contains. reflexivity.
Qed.

Lemma snapshot_paths_are_snapshots (s : Submitter) (runs : list Z) (p : string) :
  In p (snapshot_paths s runs) -> is_snapshot p = true.
Proof.
  unfold snapshot_paths. rewrite in_flat_map. intros (run & _ & [<-|[<-|[]]]);
    apply snapshot_path_is_snapshot.
Qed.

Lemma fold_add_present (fs : gset string) (ps : list string) :
  forall l : list string,
  exists added,
    fold_left (add_present fs) ps l = (l ++ added)%list
    /\ NoDup added
    /\ forall p, In p added <-> In p ps /\ p ∈ fs /\ ~ In p l.
Proof.
  induction ps as [|p ps IH]; intros l; cbn [fold_left].
  - exists []. split; [now rewrite app_nil_r|]. split; [constructor|].
    intros p. cbn. tauto.
  - unfold add_present at 2.
    destruct (bool_decide (p ∈ fs) && negb (existsb (String.eqb p) l))%bool eqn:Hc.
    + apply andb_prop in Hc as (Hfs & Hl). apply bool_decide_eq_true in Hfs.
      apply negb_true_iff in Hl.
      assert (~ In p l) as Hnot.
      { intros Hin. apply existsb_eqb_In in Hin. congruence. }
      destruct (IH (l ++ [p])%list) as (added & Heq & Hnd & Hin).
      exists (p :: added). split; [rewrite Heq, <- app_assoc; reflexivity|]. split.
      * apply NoDup_cons. split; [|exact Hnd].
        rewrite list_elem_of_In, Hin, in_app_iff. cbn. tauto.
      * intros q. cbn [In]. rewrite Hin, in_app_iff. cbn [In].
        destruct (string_dec p q) as [->|Hne]; [tauto|]. intuition congruence.
    + destruct (IH l) as (added & Heq & Hnd & Hin).
      exists added. split; [exact Heq|]. split; [exact Hnd|].
      intros q. rewrite Hin. cbn [In]. split; [tauto|].
      intros ([<-|Hq] & Hfs & Hl); [|tauto].
      exfalso. apply andb_false_iff in Hc as [Hc|Hc].
      * apply bool_decide_eq_false in Hc. tauto.
      * apply negb_false_iff, existsb_eqb_In in Hc. tauto.
Qed.

Section UpdateOnDisk.
Variable RunJDLName : string.
Variable MergeJDLName : bool -> string.

Lemma LocalFileList_Add_run {E : Type} (f : string) (w : World E) :
  exists s',
    LocalFileList_Add RunJDLName MergeJDLName f w
    = Done tt (mkWorld (ext w) (trace w) (gGrid w) s')
    /\ current_local_files RunJDLName MergeJDLName s' = (current_local_files RunJDLName MergeJDLName (self w) ++ [f])%list
    /\ no_lists s' = no_lists (self w).
Proof.
  unfold LocalFileList_Add.
  destruct (LocalFileList_run RunJDLName MergeJDLName w) as (s1 & Hlist & Hl & Hn & _).
  rewrite (bind_Done _ _ _ _ _ Hlist). unfold modify_self. cbn [ext trace gGrid self].
  eexists. split; [reflexivity|]. split; [reflexivity|].
  rewrite <- Hn. reflexivity.
Qed.

(** One round of the inner loop of UpdateLocalFileList. *)
Lemma update_step_disk (p : string) (w : World (gset string)) :
  exists s',
    bind (access_path_name local_disk p) (fun missing =>
      if negb missing then
        bind (LocalFileList RunJDLName MergeJDLName) (fun files =>
          if negb (existsb (String.eqb p) files)
          then LocalFileList_Add RunJDLName MergeJDLName p
          else ret tt)
      else ret tt) w
    = Done tt (mkWorld (ext w)
                 (trace w ++ [(AccessPathName p, RBool (negb (bool_decide (p ∈ ext w))))])%list
                 (gGrid w) s')
    /\ current_local_files RunJDLName MergeJDLName s' = add_present (ext w) (current_local_files RunJDLName MergeJDLName (self w)) p
    /\ no_lists s' = no_lists (self w).
Proof.
  unfold access_path_name, bind at 1, bind at 1. rewrite call_eq.
  cbn [local_disk fst snd]. unfold ret at 1. cbn [as_bool]. rewrite negb_involutive.
  unfold add_present.
  destruct (bool_decide (p ∈ ext w)) eqn:Hp; cbn [andb].
  - set (w1 := mkWorld (ext w) _ (gGrid w) (self w)).
    destruct (LocalFileList_run RunJDLName MergeJDLName w1) as (s1 & Hlist & Hl & Hn & _).
    rewrite (bind_Done _ _ _ _ _ Hlist). subst w1. cbn [self ext trace gGrid] in *.
    destruct (existsb (String.eqb p) (current_local_files RunJDLName MergeJDLName (self w))) eqn:Hin; cbn [negb].
    + exists s1. split; [reflexivity|]. split; [|exact Hn].
      unfold current_local_files at 1. now rewrite Hl.
    + destruct (LocalFileList_Add_run p
                  (mkWorld (ext w)
                     (trace w ++ [(AccessPathName p, RBool (negb true))])%list
                     (gGrid w) s1))
        as (s2 & Hadd & Hl2 & Hn2).
      cbn [self ext trace gGrid] in *. exists s2. split; [exact Hadd|].
      split; [|congruence]. rewrite Hl2. unfold current_local_files at 1. now rewrite Hl.
  - exists (self w). split; [reflexivity|]. auto.
Qed.

Lemma update_runs_disk (s : Submitter) (runs : list Z) :
  forall w : World (gset string),
  exists s' new,
    for_each runs (fun runNumber =>
      for_each ["sim"; "rec"] (fun type =>
        bind (access_path_name local_disk (snapshot_path s runNumber type))
          (fun missing =>
             if negb missing then
               bind (LocalFileList RunJDLName MergeJDLName) (fun files =>
                 if negb (existsb (String.eqb (snapshot_path s runNumber type)) files)
                 then LocalFileList_Add RunJDLName MergeJDLName
                        (snapshot_path s runNumber type)
                 else ret tt)
             else ret tt))) w
    = Done tt (mkWorld (ext w) (trace w ++ new)%list (gGrid w) s')
    /\ map fst new = map AccessPathName (snapshot_paths s runs)
    /\ current_local_files RunJDLName MergeJDLName s' = fold_left (add_present (ext w)) (snapshot_paths s runs) (current_local_files RunJDLName MergeJDLName (self w))
    /\ no_lists s' = no_lists (self w).
Proof.
  induction runs as [|run runs IH]; intros w.
  - exists (self w), []. split; [destruct w; cbn; now rewrite app_nil_r|]. auto.
  - cbn [for_each].
    destruct (update_step_disk (snapshot_path s run "sim") w) as (s1 & H1 & Hl1 & Hn1).
    set (w1 := mkWorld (ext w) _ (gGrid w) s1) in H1.
    destruct (update_step_disk (snapshot_path s run "rec") w1) as (s2 & H2 & Hl2 & Hn2).
    set (w2 := mkWorld (ext w1) _ (gGrid w1) s2) in H2.
    erewrite bind_Done;
      [|erewrite bind_Done; [|exact H1]; erewrite bind_Done; [|exact H2]; reflexivity].
    destruct (IH w2) as (s' & new & Hrest & Hcalls & Hl & Hn).
    exists s'. eexists (_ :: _ :: new). split.
    { etransitivity; [exact Hrest|]. unfold w2, w1. cbn [ext trace gGrid self].
      rewrite <- !app_assoc. reflexivity. }
    split; [cbn [map fst snapshot_paths flat_map app]; now rewrite Hcalls|].
    split; [|rewrite Hn; unfold w2; cbn [self]; rewrite Hn2; unfold w1; cbn [self];
             exact Hn1].
    rewrite Hl. unfold w2, w1. cbn [ext self snapshot_paths flat_map app fold_left].
    rewrite Hl2. unfold w1. cbn [ext self]. rewrite Hl1. reflexivity.
Qed.
End UpdateOnDisk.

(** X14.  UpdateLocalFileList on a local disk.  Without a run list it does
    nothing.  With one, it asks for the two snapshot files of every run, in
    run order, and leaves the disk alone; the list of local files becomes
    the former one (without its snapshot entries when clearSnapshots is
    set) followed by the snapshot files found on the disk that were not
    already listed, each once; nothing but snapshot files is added; and a
    second call, without clearing, changes nothing. *)
Theorem UpdateLocalFileList_on_disk (RunJDLName : string) (MergeJDLName : bool -> string)
    (clearSnapshots : bool) (w : World (gset string)) :
  (fScalers (self w) = None ->
   UpdateLocalFileList local_disk RunJDLName MergeJDLName clearSnapshots w = Done tt w)
  /\ (forall runs,
      fScalers (self w) = Some runs ->
      let files := current_local_files RunJDLName MergeJDLName (self w) in
      let base := if clearSnapshots
                  then List.filter (fun file => negb (is_snapshot file)) files
                  else files in
      exists w' added,
        UpdateLocalFileList local_disk RunJDLName MergeJDLName clearSnapshots w
        = Done tt w'
        /\ ext w' = ext w
        /\ no_lists (self w') = no_lists (self w)
        /\ map fst (drop (length (trace w)) (trace w'))
           = map AccessPathName (snapshot_paths (self w) runs)
        /\ current_local_files RunJDLName MergeJDLName (self w') = (base ++ added)%list
        /\ NoDup added
        /\ (forall p, In p added <->
                      In p (snapshot_paths (self w) runs) /\ p ∈ ext w /\ ~ In p base)
        /\ (forall p, In p added -> is_snapshot p = true)
        /\ exists w'',
             UpdateLocalFileList local_disk RunJDLName MergeJDLName false w' = Done tt w''
             /\ current_local_files RunJDLName MergeJDLName (self w'')
                = current_local_files RunJDLName MergeJDLName (self w')).
Proof.
  split.
  - intros Hnone. unfold UpdateLocalFileList, bind, get_self. now rewrite Hnone.
  - intros runs Hruns files base.
    assert (forall (w0 : World (gset string)),
               fScalers (self w0) = Some runs -> fSnapshotDir (self w0) = fSnapshotDir (self w) ->
               exists s' new,
                 UpdateLocalFileList local_disk RunJDLName MergeJDLName false w0
                 = Done tt (mkWorld (ext w0) (trace w0 ++ new)%list (gGrid w0) s')
                 /\ map fst new = map AccessPathName (snapshot_paths (self w) runs)
                 /\ current_local_files RunJDLName MergeJDLName s'
                    = fold_left (add_present (ext w0)) (snapshot_paths (self w) runs)
                        (current_local_files RunJDLName MergeJDLName (self w0))
                 /\ no_lists s' = no_lists (self w0)) as Hplain.
    { intros w0 Hr0 Hd0. unfold UpdateLocalFileList. unfold bind at 1, get_self.
      rewrite Hr0. unfold bind at 1, ret at 1.
      destruct (update_runs_disk RunJDLName MergeJDLName (self w0) runs w0)
        as (s' & new & Hrun & Hcalls & Hl & Hn).
      assert (snapshot_paths (self w0) runs = snapshot_paths (self w) runs) as Hsame.
      { unfold snapshot_paths, snapshot_path. now rewrite Hd0. }
      rewrite Hsame in *. eauto 10. }
    assert (exists s' new,
               UpdateLocalFileList local_disk RunJDLName MergeJDLName clearSnapshots w
               = Done tt (mkWorld (ext w) (trace w ++ new)%list (gGrid w) s')
               /\ map fst new = map AccessPathName (snapshot_paths (self w) runs)
               /\ current_local_files RunJDLName MergeJDLName s'
                  = fold_left (add_present (ext w)) (snapshot_paths (self w) runs) base
               /\ no_lists s' = no_lists (self w)) as (s' & new & Hrun & Hcalls & Hl & Hn).
    { destruct clearSnapshots; [|apply Hplain; auto].
      unfold UpdateLocalFileList. unfold bind at 1, get_self. rewrite Hruns.
      rewrite !bind_assoc_Done.
      destruct (LocalFileList_run RunJDLName MergeJDLName w) as (s1 & Hlist & Hl1 & Hn1 & _).
      rewrite (bind_Done _ _ _ _ _ Hlist). unfold bind at 1, modify_self at 1.
      cbn [ext trace gGrid self].
      set (w1 := mkWorld (ext w) (trace w) (gGrid w) _).
      destruct (update_runs_disk RunJDLName MergeJDLName (self w) runs w1)
        as (s' & new & Hrun & Hcalls & Hl & Hn).
      exists s', new. split; [exact Hrun|]. split; [exact Hcalls|].
      split; [|rewrite Hn; unfold w1; cbn [self]; rewrite <- Hn1; reflexivity].
      rewrite Hl. reflexivity. }
    destruct (fold_add_present (ext w) (snapshot_paths (self w) runs) base)
      as (added & Hfold & Hnd & Hin).
    eexists _, added. split; [exact Hrun|]. cbn [ext self trace].
    split; [reflexivity|]. split; [exact Hn|].
    split; [now rewrite drop_app_length|].
    split; [now rewrite Hl|]. split; [exact Hnd|]. split; [exact Hin|].
    split.
    { intros p Hp. apply Hin in Hp as (Hp & _).
      now apply (snapshot_paths_are_snapshots (self w) runs). }
    set (w' := mkWorld (ext w) (trace w ++ new)%list (gGrid w) s').
    destruct (Hplain w') as (s'' & new' & Hrun' & _ & Hl' & _).
    { apply (f_equal fScalers) in Hn. cbn in Hn. unfold w'. cbn [self]. congruence. }
    { apply (f_equal fSnapshotDir) in Hn. cbn in Hn. exact Hn. }
    eexists. split; [exact Hrun'|]. unfold w' in *. cbn [self ext] in *.
    rewrite Hl', Hl, Hfold.
    destruct (fold_add_present (ext w) (snapshot_paths (self w) runs) (base ++ added))
      as (added' & Hfold' & _ & Hin').
    rewrite Hfold'. destruct added' as [|q added']; [now rewrite app_nil_r|].
    exfalso. destruct (proj1 (Hin' q) (or_introl eq_refl)) as (Hq1 & Hq2 & Hq3).
    apply Hq3. rewrite in_app_iff.
    destruct (in_dec string_dec q base) as [Hb|Hb]; [now left|].
    right. apply Hin. auto.
Qed.

(** ** MakeOCDBSnapshots *)

Lemma executed_app (l1 l2 : list Event) :
  executed (l1 ++ l2) = (executed l1 ++ executed l2)%list.
Proof. unfold executed. apply omap_app. Qed.

Section Snapshots.
Context {E : Type}.
Variable env : E -> Call -> Resp * E.
Variable RunJDLName : string.
Variable MergeJDLName : bool -> string.

(** One round of the loop of MakeOCDBSnapshots: either the run is passed
    over, or the command is run and both paths join the list. *)
Lemma Snapshot_run_inv (ok ok' : bool) (runNumber : Z) (w w' : World E) :
  Snapshot_run env RunJDLName MergeJDLName ok runNumber w = Done ok' w' ->
  gGrid w' = gGrid w
  /\ no_lists (self w') = no_lists (self w)
  /\ exists new,
       trace w' = (trace w ++ new)%list
       /\ ((executed new = [] /\ current_local_files RunJDLName MergeJDLName (self w') = current_local_files RunJDLName MergeJDLName (self w) /\ ok' = ok)
           \/ (executed new = [snapshot_command runNumber]
               /\ current_local_files RunJDLName MergeJDLName (self w')
                  = (current_local_files RunJDLName MergeJDLName (self w) ++ [snapshot_path (self w) runNumber "sim";
                                    snapshot_path (self w) runNumber "rec"])%list
               /\ (ok' = true -> ok = true))).
Proof.
  intros H. unfold Snapshot_run in H.
  apply bind_inv in H as (s & w0 & Hs & H). follow Hs.
  apply bind_inv in H as (there & w1 & Hthere & H).
  destruct there.
  - follow H. follow Hthere; try discriminate.
    cbn [self gGrid trace ext]. split; [reflexivity|]. split; [reflexivity|].
    eexists. split; [rewrite <- !app_assoc; reflexivity|]. left. auto.
  - assert (gGrid w1 = gGrid w /\ self w1 = self w
            /\ exists new, trace w1 = (trace w ++ new)%list /\ executed new = [])
      as (Hg1 & Hs1 & new1 & Ht1 & He1).
    { follow Hthere; cbn [self gGrid trace ext]; (split; [reflexivity|]);
        (split; [reflexivity|]); eexists;
        (split; [rewrite <- ?app_assoc; reflexivity|reflexivity]). }
    apply bind_inv in H as (rc & w2 & Hexec & H). follow Hexec.
    apply bind_inv in H as (noSim & w3 & Hsim & H). follow Hsim.
    apply bind_inv in H as (ok1 & w4 & Hok1 & H).
    apply bind_inv in H as (noRec & w5 & Hrec & H).
    apply bind_inv in H as (ok2 & w6 & Hok2 & H).
    apply bind_inv in H as ([] & w7 & Hadd1 & H).
    apply bind_inv in H as ([] & w8 & Hadd2 & H). follow H.
    destruct (LocalFileList_Add_run RunJDLName MergeJDLName
                (fSnapshotDir (self w) ++ "/OCDB/" ++ TStr.of_int runNumber
                 ++ "/OCDB_sim.root") w6) as (s7 & Heq7 & Hl7 & Hn7).
    rewrite Heq7 in Hadd1. apply Done_inj in Hadd1 as (_ & <-).
    destruct (LocalFileList_Add_run RunJDLName MergeJDLName
                (fSnapshotDir (self w) ++ "/OCDB/" ++ TStr.of_int runNumber
                 ++ "/OCDB_rec.root")
                (mkWorld (ext w6) (trace w6) (gGrid w6) s7)) as (s8 & Heq8 & Hl8 & Hn8).
    rewrite Heq8 in Hadd2. apply Done_inj in Hadd2 as (_ & <-).
    cbn [self gGrid trace ext] in *.
    assert (gGrid w6 = gGrid w /\ self w6 = self w
            /\ (ok2 = true -> ok = true)
            /\ exists new, trace w6 = (trace w ++ new)%list
                           /\ executed new = [snapshot_command runNumber])
      as (Hg6 & Hs6 & Hok & new6 & Ht6 & He6).
    { follow Hok1; follow Hrec; follow Hok2; cbn [self gGrid trace ext];
        (split; [exact Hg1|]); (split; [exact Hs1|]);
        (split; [congruence|]);
        rewrite Ht1; eexists;
        (split; [rewrite <- ?app_assoc; reflexivity|]);
        rewrite executed_app, He1; reflexivity. }
    split; [exact Hg6|]. split; [rewrite Hn8, Hn7, Hs6; reflexivity|].
    exists new6. split; [exact Ht6|]. right. split; [exact He6|].
    split; [|exact Hok]. rewrite Hl8, Hl7, Hs6, <- app_assoc. reflexivity.
Qed.

Lemma Snapshot_runs_inv (s : Submitter) (runs : list Z) :
  forall (ok ok' : bool) (w w' : World E),
    fSnapshotDir (self w) = fSnapshotDir s ->
    fold_each runs (Snapshot_run env RunJDLName MergeJDLName) ok w = Done ok' w' ->
    gGrid w' = gGrid w
    /\ no_lists (self w') = no_lists (self w)
    /\ (ok' = true -> ok = true)
    /\ exists new attempted,
         trace w' = (trace w ++ new)%list
         /\ sublist attempted runs
         /\ executed new = map snapshot_command attempted
         /\ current_local_files RunJDLName MergeJDLName (self w') = (current_local_files RunJDLName MergeJDLName (self w) ++ snapshot_paths s attempted)%list
         /\ (attempted = [] -> ok' = ok).
Proof.
  induction runs as [|run runs IH]; intros ok ok' w w' Hdir H; cbn [fold_each] in H.
  - apply Done_inj in H as (<- & <-). split; [reflexivity|]. split; [reflexivity|].
    split; [auto|]. exists [], []. rewrite !app_nil_r. repeat split; constructor.
  - apply bind_inv in H as (ok1 & w1 & Hrun & Hrest).
    apply Snapshot_run_inv in Hrun as (Hg1 & Hn1 & new1 & Ht1 & Hcase).
    assert (fSnapshotDir (self w1) = fSnapshotDir s) as Hdir1.
    { apply (f_equal fSnapshotDir) in Hn1. cbn in Hn1. congruence. }
    apply (IH _ _ _ _ Hdir1) in Hrest
      as (Hg & Hn & Hok & new & attempted & Ht & Hsub & He & Hl & Hnone).
    split; [congruence|]. split; [congruence|].
    assert (snapshot_path (self w) run = snapshot_path s run) as Hpath.
    { unfold snapshot_path. now rewrite Hdir. }
    destruct Hcase as [(He1 & Hl1 & ->)|(He1 & Hl1 & Hok1)].
    + split; [exact Hok|]. exists (new1 ++ new)%list, attempted.
      split; [rewrite Ht, Ht1, app_assoc; reflexivity|].
      split; [now apply sublist_cons|].
      split; [rewrite executed_app, He1; exact He|].
      split; [rewrite Hl, Hl1; reflexivity|exact Hnone].
    + split; [auto|]. exists (new1 ++ new)%list, (run :: attempted).
      split; [rewrite Ht, Ht1, app_assoc; reflexivity|].
      split; [now apply sublist_skip|].
      split; [rewrite executed_app, He1, He; reflexivity|].
      split; [|discriminate].
      rewrite Hl, Hl1, Hpath, <- app_assoc. reflexivity.
Qed.
End Snapshots.

(** X15.  MakeOCDBSnapshots, whatever the system answers: the runs for which the
    snapshot command is run are a sub-list of the run list, in its order,
    and for each of them both snapshot paths are appended to the list of
    local files, whether or not the files came to exist and whether or not
    the paths were already listed; the runs that are passed over add
    nothing.  When no command is run the result is kTRUE. *)
Theorem MakeOCDBSnapshots_lists_attempted_runs {E : Type} (env : E -> Call -> Resp * E)
    (RunJDLName : string) (MergeJDLName : bool -> string)
    (w w' : World E) (ok : bool) (runs : list Z) :
  fIsValid (self w) = true ->
  fUseOCDBSnapshots (self w) = true ->
  fScalers (self w) = Some runs ->
  MakeOCDBSnapshots env RunJDLName MergeJDLName w = Done ok w' ->
  exists attempted,
    sublist attempted runs
    /\ executed (drop (length (trace w)) (trace w')) = map snapshot_command attempted
    /\ current_local_files RunJDLName MergeJDLName (self w')
       = (current_local_files RunJDLName MergeJDLName (self w)
          ++ snapshot_paths (self w) attempted)%list
    /\ no_lists (self w') = no_lists (self w)
    /\ (attempted = [] -> ok = true).
Proof.
  intros Hvalid Huse Hruns H. unfold MakeOCDBSnapshots, IsValid in H.
  rewrite bind_assoc_Done in H. unfold bind at 1, get_self at 1 in H.
  unfold bind at 1, ret at 1 in H. rewrite Hvalid in H. cbn [negb] in H.
  unfold bind at 1, get_self at 1 in H. rewrite Huse, Hruns in H. cbn [negb] in H.
  apply bind_inv in H as ([] & w1 & Hdebug & H). follow Hdebug.
  apply (Snapshot_runs_inv env RunJDLName MergeJDLName (self w)) in H;
    [|reflexivity].
  destruct H as (Hg & Hn & _ & new & attempted & Ht & Hsub & Hex & Hl & Hnone).
  cbn [self gGrid trace ext] in *.
  exists attempted. split; [exact Hsub|]. split.
  { rewrite Ht, <- app_assoc, drop_app_length. cbn [app executed omap].
    exact Hex. }
  split; [exact Hl|]. split; [exact Hn|exact Hnone].
Qed.

Lemma MakeOCDBSnapshots_lists_attempted_runs_witness :
  exists ok w' attempted,
    MakeOCDBSnapshots local_disk Scenario.RunJDLName Scenario.MergeJDLName
      Setup.empty_disk_world = Done ok w'
    /\ sublist attempted [1000; 1001]
    /\ executed (drop (length (trace Setup.empty_disk_world)) (trace w'))
       = map snapshot_command attempted
    /\ current_local_files Scenario.RunJDLName Scenario.MergeJDLName (self w')
       = (current_local_files Scenario.RunJDLName Scenario.MergeJDLName
            (self Setup.empty_disk_world)
          ++ snapshot_paths (self Setup.empty_disk_world) attempted)%list
    /\ no_lists (self w') = no_lists (self Setup.empty_disk_world)
    /\ (attempted = [] -> ok = true).
Proof.
  assert (exists ok w',
             MakeOCDBSnapshots local_disk Scenario.RunJDLName Scenario.MergeJDLName
               Setup.empty_disk_world = Done ok w') as (ok & w' & H).
  { eexists _, _. vm_compute. reflexivity. }
  exists ok, w'.
  destruct (MakeOCDBSnapshots_lists_attempted_runs local_disk Scenario.RunJDLName
              Scenario.MergeJDLName Setup.empty_disk_world w' ok [1000; 1001]
              eq_refl eq_refl eq_refl H) as (attempted & Hrest).
  exists attempted. split; [exact H|exact Hrest].
Defined.

Section SnapshotsOnDisk.
Variable RunJDLName : string.
Variable MergeJDLName : bool -> string.

Lemma Snapshot_run_disk (ok : bool) (runNumber : Z) (w : World (gset string)) :
  exists s' new,
    Snapshot_run local_disk RunJDLName MergeJDLName ok runNumber w
    = Done (ok && snapshots_present (ext w) (self w) runNumber)%bool
        (mkWorld (ext w) (trace w ++ new)%list (gGrid w) s')
    /\ current_local_files RunJDLName MergeJDLName s' = (current_local_files RunJDLName MergeJDLName (self w)
               ++ if snapshots_present (ext w) (self w) runNumber then []
                  else [snapshot_path (self w) runNumber "sim";
                        snapshot_path (self w) runNumber "rec"])%list
    /\ no_lists s' = no_lists (self w).
Proof.
  unfold snapshots_present.
  change (snapshot_path (self w) runNumber "sim")
    with (fSnapshotDir (self w) ++ "/OCDB/" ++ TStr.of_int runNumber ++ "/OCDB_sim.root").
  change (snapshot_path (self w) runNumber "rec")
    with (fSnapshotDir (self w) ++ "/OCDB/" ++ TStr.of_int runNumber ++ "/OCDB_rec.root").
  set (ocdbSim := fSnapshotDir (self w) ++ "/OCDB/" ++ TStr.of_int runNumber
                  ++ "/OCDB_sim.root").
  set (ocdbRec := fSnapshotDir (self w) ++ "/OCDB/" ++ TStr.of_int runNumber
                  ++ "/OCDB_rec.root").
  unfold Snapshot_run. unfold bind at 1, get_self at 1.
  fold ocdbSim ocdbRec.
  assert (forall (t : list Event) (f : bool),
             exists s',
               bind (LocalFileList_Add RunJDLName MergeJDLName ocdbSim)
                 (fun _ => bind (LocalFileList_Add RunJDLName MergeJDLName ocdbRec)
                             (fun _ => ret f))
                 (mkWorld (ext w) t (gGrid w) (self w))
               = Done f (mkWorld (ext w) t (gGrid w) s')
               /\ current_local_files RunJDLName MergeJDLName s' = (current_local_files RunJDLName MergeJDLName (self w) ++ [ocdbSim; ocdbRec])%list
               /\ no_lists s' = no_lists (self w)) as Hadd.
  { intros t f.
    destruct (LocalFileList_Add_run RunJDLName MergeJDLName ocdbSim
                (mkWorld (ext w) t (gGrid w) (self w))) as (s1 & H1 & Hl1 & Hn1).
    destruct (LocalFileList_Add_run RunJDLName MergeJDLName ocdbRec
                (mkWorld (ext w) t (gGrid w) s1)) as (s2 & H2 & Hl2 & Hn2).
    cbn [self ext trace gGrid] in *.
    exists s2. rewrite (bind_Done _ _ _ _ _ H1), (bind_Done _ _ _ _ _ H2).
    split; [reflexivity|]. split; [|congruence].
    rewrite Hl2, Hl1, <- app_assoc. reflexivity. }
  unfold and_then, access_path_name, exec, AliWarning, AliError, bind, ret in *.
  destruct (bool_decide (ocdbSim ∈ ext w)) eqn:Hsim;
    destruct (bool_decide (ocdbRec ∈ ext w)) eqn:Hrec;
    repeat (first [rewrite call_eq | rewrite Hsim | rewrite Hrec];
            cbn [local_disk fst snd as_bool negb andb ext trace gGrid self]).
  1: { exists (self w). eexists.
       split; [rewrite andb_true_r, <- !app_assoc; reflexivity|].
       split; [now rewrite app_nil_r|reflexivity]. }
  all: edestruct Hadd as (s' & Heq & Hl & Hn); rewrite Heq; exists s'; eexists;
    (split; [rewrite andb_false_r, <- !app_assoc; reflexivity|]); auto.
Qed.

Lemma Snapshot_runs_disk (s : Submitter) (runs : list Z) :
  forall (ok : bool) (w : World (gset string)),
    fSnapshotDir (self w) = fSnapshotDir s ->
    exists s' new,
      fold_each runs (Snapshot_run local_disk RunJDLName MergeJDLName) ok w
      = Done (ok && forallb (snapshots_present (ext w) s) runs)%bool
          (mkWorld (ext w) (trace w ++ new)%list (gGrid w) s')
      /\ current_local_files RunJDLName MergeJDLName s' = (current_local_files RunJDLName MergeJDLName (self w)
                 ++ snapshot_paths s
                      (List.filter (fun run => negb (snapshots_present (ext w) s run))
                         runs))%list
      /\ no_lists s' = no_lists (self w).
Proof.
  induction runs as [|run runs IH]; intros ok w Hdir; cbn [fold_each forallb List.filter].
  - exists (self w), []. rewrite andb_true_r, !app_nil_r. destruct w; auto.
  - destruct (Snapshot_run_disk ok run w) as (s1 & new1 & Hrun & Hl1 & Hn1).
    assert (snapshots_present (ext w) (self w) run = snapshots_present (ext w) s run
            /\ snapshot_path (self w) run = snapshot_path s run) as (Hp & Hpath).
    { unfold snapshots_present, snapshot_path. now rewrite Hdir. }
    rewrite Hp, Hpath in *.
    rewrite (bind_Done _ _ _ _ _ Hrun).
    destruct (IH (ok && snapshots_present (ext w) s run)%bool
                (mkWorld (ext w) (trace w ++ new1)%list (gGrid w) s1))
      as (s' & new & Hrest & Hl & Hn).
    { apply (f_equal fSnapshotDir) in Hn1. cbn in Hn1. cbn [self]. congruence. }
    cbn [self ext trace gGrid] in *.
    exists s', (new1 ++ new)%list. split.
    { rewrite Hrest, app_assoc, andb_assoc. reflexivity. }
    split; [|congruence]. rewrite Hl, Hl1.
    destruct (snapshots_present (ext w) s run); cbn [negb];
      [now rewrite app_nil_r|].
    cbn [snapshot_paths flat_map app]. rewrite <- app_assoc. reflexivity.
Qed.
End SnapshotsOnDisk.

(** X16.  MakeOCDBSnapshots on a disk where the snapshot command creates no
    file: it returns, leaves the disk as it is, and its result is kTRUE
    exactly when both snapshot files of every run are already there; the
    runs that lack one have both their paths appended to the list of local
    files all the same. *)
Theorem MakeOCDBSnapshots_when_nothing_is_created (RunJDLName : string)
    (MergeJDLName : bool -> string) (w : World (gset string)) (runs : list Z) :
  fIsValid (self w) = true ->
  fUseOCDBSnapshots (self w) = true ->
  fScalers (self w) = Some runs ->
  exists w',
    MakeOCDBSnapshots local_disk RunJDLName MergeJDLName w
    = Done (forallb (snapshots_present (ext w) (self w)) runs) w'
    /\ ext w' = ext w
    /\ current_local_files RunJDLName MergeJDLName (self w')
       = (current_local_files RunJDLName MergeJDLName (self w)
          ++ snapshot_paths (self w)
               (List.filter (fun run => negb (snapshots_present (ext w) (self w) run))
                  runs))%list.
Proof.
  intros Hvalid Huse Hruns. unfold MakeOCDBSnapshots, IsValid.
  rewrite bind_assoc_Done. unfold bind at 1, get_self at 1.
  unfold bind at 1, ret at 1. rewrite Hvalid. cbn [negb].
  unfold bind at 1, get_self at 1. rewrite Huse, Hruns. cbn [negb].
  unfold AliDebug. rewrite bind_assoc_Done.
  rewrite (bind_Done _ _ _ _ _ (call_eq local_disk _ _)).
  unfold bind at 1, ret at 1. cbn [local_disk fst snd].
  edestruct (Snapshot_runs_disk RunJDLName MergeJDLName (self w) runs true)
    as (s' & new & Hrest & Hl & Hn); [|rewrite Hrest]; [reflexivity|].
  cbn [self ext trace gGrid andb] in *. eexists. split; [reflexivity|].
  cbn [self ext]. split; [reflexivity|exact Hl].
Qed.

Lemma MakeOCDBSnapshots_when_nothing_is_created_witness :
  exists w',
    MakeOCDBSnapshots local_disk Scenario.RunJDLName Scenario.MergeJDLName
      Setup.empty_disk_world = Done false w'
    /\ ext w' = ∅
    /\ current_local_files Scenario.RunJDLName Scenario.MergeJDLName (self w')
       = ["CheckESD.C"; "run.jdl";
          "/home/user/work/OCDB/1000/OCDB_sim.root";
          "/home/user/work/OCDB/1000/OCDB_rec.root";
          "/home/user/work/OCDB/1000/OCDB_sim.root";
          "/home/user/work/OCDB/1000/OCDB_rec.root";
          "/home/user/work/OCDB/1001/OCDB_sim.root";
          "/home/user/work/OCDB/1001/OCDB_rec.root"].
Proof.
  exact (MakeOCDBSnapshots_when_nothing_is_created Scenario.RunJDLName
           Scenario.MergeJDLName Setup.empty_disk_world [1000; 1001]
           eq_refl eq_refl eq_refl).
Defined.

(** ** UseAODMerging *)

(** X17.  UseAODMerging after a generator has been accepted: SetGenerator has
    created the template file list, so that the list handed out afterwards
    is the one of before the call followed by the generator macro, whatever
    the flag given to UseAODMerging; the local list, when it did not exist
    yet, is a copy of it.  For an object that had no template list and no
    AOD merging when the generator was set, these are the nine standard
    names and the macro: the merging JDLs and scripts are not in it. *)
Theorem UseAODMerging_after_generator {E : Type} (env : E -> Call -> Resp * E)
    (interp : E -> Interpreter -> Z * E) (fuel : nat) (RunJDLName : string)
    (MergeJDLName : bool -> string) (hash_place : string -> list (string * string) -> nat)
    (generator : string) (w w1 : World E) (flag : bool) :
  SetGenerator env interp fuel RunJDLName MergeJDLName hash_place generator w
  = Done true w1 ->
  let files := (current_template_files RunJDLName MergeJDLName (self w)
                ++ [(generator ++ ".C")%string])%list in
  (exists w2,
      bind (UseAODMerging flag) (fun _ => TemplateFileList RunJDLName MergeJDLName) w1
      = Done files w2
      /\ fUseAODMerging (self w2) = flag)
  /\ (fLocalFileList (self w) = None ->
      exists w2,
        bind (UseAODMerging flag) (fun _ => LocalFileList RunJDLName MergeJDLName) w1
        = Done files w2)
  /\ (fTemplateFileList (self w) = None -> fUseAODMerging (self w) = false ->
      files = ["CheckESD.C"; "CheckAOD.C"; "AODtrain.C"; "validation.sh";
               if (0 <? String.length (fExternalConfig (self w)))%nat
               then fExternalConfig (self w) else "Config.C";
               "rec.C"; "sim.C"; "simrun.C"; RunJDLName;
               (generator ++ ".C")%string]).
Proof.
  intros H files. apply SetGenerator_inv in H as (_ & _ & Htrue).
  destruct (Htrue eq_refl) as (Hs & _). clear Htrue. cbv zeta in Hs.
  split; [|split].
  - unfold UseAODMerging, TemplateFileList, bind, modify_self, get_self.
    cbn [self]. rewrite Hs. cbn [fTemplateFileList set_fUseAODMerging
      set_fTemplateFileList]. unfold ret. eexists. split; [reflexivity|].
    reflexivity.
  - intros Hnone.
    unfold UseAODMerging, LocalFileList, TemplateFileList, bind, modify_self, get_self.
    cbn [self]. rewrite Hs.
    cbn [fLocalFileList fTemplateFileList set_fUseAODMerging set_fTemplateFileList
         set_fVars set_fIsValid].
    rewrite Hnone. cbn [fTemplateFileList]. unfold ret. eexists. reflexivity.
  - intros Hnone Hflag. unfold files, current_template_files, default_template_files.
    rewrite Hnone, Hflag. reflexivity.
Qed.

Lemma UseAODMerging_after_generator_witness :
  exists w1 w2,
    SetGenerator Setup.workstation Setup.interp_ok 1023 Scenario.RunJDLName
      Scenario.MergeJDLName Setup.in_order "GenParamCustom" Setup.configured_world
    = Done true w1
    /\ bind (UseAODMerging true)
         (fun _ => TemplateFileList Scenario.RunJDLName Scenario.MergeJDLName) w1
       = Done ["CheckESD.C"; "CheckAOD.C"; "AODtrain.C"; "validation.sh"; "Config.C";
               "rec.C"; "sim.C"; "simrun.C"; "run.jdl"; "GenParamCustom.C"] w2
    /\ fUseAODMerging (self w2) = true.
Proof.
  assert (exists w1,
    SetGenerator Setup.workstation Setup.interp_ok 1023 Scenario.RunJDLName
      Scenario.MergeJDLName Setup.in_order "GenParamCustom" Setup.configured_world
    = Done true w1) as (w1 & H).
  { eexists. vm_compute. reflexivity. }
  destruct (UseAODMerging_after_generator _ _ _ _ _ _ _ _ _ true H)
    as ((w2 & Hlist & Hflag) & _).
  exists w1, w2. split; [exact H|]. split; [exact Hlist|exact Hflag].
Defined.

(** ** The packages of the constructor *)

Section Keeps.
Context {E : Type} {X : Type}.
Variable env : E -> Call -> Resp * E.
Variable interp : E -> Interpreter -> Z * E.
Variable fuel : nat.
Variable RunJDLName : string.
Variable MergeJDLName : bool -> string.
Variable hash_place : string -> list (string * string) -> nat.
Variable f : Submitter -> X.
Hypothesis f_valid : forall s v, f (set_fIsValid v s) = f s.
Hypothesis f_vars : forall s v, f (set_fVars v s) = f s.
Hypothesis f_template : forall s l, f (set_fTemplateFileList l s) = f s.
Hypothesis f_local : forall s l, f (set_fLocalFileList l s) = f s.
Hypothesis f_snapshots : forall s v, f (set_fUseOCDBSnapshots v s) = f s.

Lemma f_no_vars (s : Submitter) : f (no_vars s) = f s.
Proof. apply f_vars. Qed.

Lemma f_no_lists (s : Submitter) : f (no_lists s) = f s.
Proof. unfold no_lists. now rewrite f_template, f_local. Qed.

Lemma keeps_no_vars (s s' : Submitter) : keeps no_vars s s' -> keeps f s s'.
Proof.
  unfold keeps. intros H. rewrite <- (f_no_vars s'), H. apply f_no_vars.
Qed.

Lemma keeps_no_lists (s s' : Submitter) : keeps no_lists s s' -> keeps f s s'.
Proof.
  unfold keeps. intros H. rewrite <- (f_no_lists s'), H. apply f_no_lists.
Qed.

Lemma SetVar_keeps (varname value : string) :
  confined (fun _ => True) (keeps f) (SetVar env hash_place varname value).
Proof.
  eapply confined_weaken; [| |apply SetVar_confined]; [auto|apply keeps_no_vars].
Qed.

Lemma UseOCDBSnapshots_keeps (clearSnapshots flag : bool) :
  confined (fun _ => True) (keeps f)
    (UseOCDBSnapshots env RunJDLName MergeJDLName hash_place clearSnapshots flag).
Proof.
  eapply confined_weaken; [| |apply UseOCDBSnapshots_confined]; [auto|].
  unfold keeps. intros s s' H.
  rewrite <- (f_snapshots s' false), <- (f_no_vars (set_fUseOCDBSnapshots false s')),
    <- (f_no_lists (no_vars (set_fUseOCDBSnapshots false s'))), H.
  now rewrite f_no_lists, f_no_vars, f_snapshots.
Qed.

Lemma SetGenerator_keeps (generator : string) :
  confined (fun _ => True) (keeps f)
    (SetGenerator env interp fuel RunJDLName MergeJDLName hash_place generator).
Proof.
  unfold SetGenerator, count_missing.
  repeat first
    [ apply confined_modify_self; intros; unfold keeps; apply f_valid
    | eapply confined_weaken; [| |apply GetVariables_confined];
      [auto|intros ? ? <-; reflexivity]
    | eapply confined_weaken; [| |apply CheckCompilation_confined];
      [auto|intros ? ? <-; reflexivity]
    | apply SetVar_keeps
    | eapply confined_weaken;
      [| |apply TemplateFileList_Add_confined with (P := fun _ => True)];
      [auto|apply keeps_no_lists]
    | confine_step ].
  all: try exact I.
  all: try (unfold keeps; intros; congruence).
Qed.
End Keeps.

(** X8.  The constructor hands its package names to SetPackages in the order
    AliRoot, GEANT3, ROOT, while the parameters of SetPackages are aliroot,
    root, geant3: whatever happens afterwards in the constructor, the object
    it leaves has the GEANT3 package in fPackageRoot and the ROOT package in
    fPackageGeant3. *)
Theorem Construct_packages {E : Type} (env : E -> Call -> Resp * E)
    (interp : E -> Interpreter -> Z * E) (fuel : nat) (RunJDLName : string)
    (MergeJDLName : bool -> string) (hash_place : string -> list (string * string) -> nat)
    (default_api : string) (default_clearSnapshots : bool)
    (generator : string) (w w' : World E) :
  Construct env interp fuel RunJDLName MergeJDLName hash_place default_api
    default_clearSnapshots generator w = Done tt w' ->
  fPackageAliroot (self w') = "VO_ALICE@AliRoot::v5-03-Rev-18"
  /\ fPackageRoot (self w') = "VO_ALICE@GEANT3::v1-14-8"
  /\ fPackageGeant3 (self w') = "VO_ALICE@ROOT::v5-34-05-1"
  /\ fPackageApi (self w') = default_api.
Proof.
  intros H. unfold Construct in H.
  apply bind_inv in H as (r & w1 & Hc & H).
  apply bind_inv in H as (u & w2 & Hif & H).
  apply bind_inv in H as (u' & w3 & Hp & H).
  unfold SetPackages in Hp. follow Hp.
  match type of H with
  | ?rest _ = _ =>
      assert (confined (fun _ => True) (keeps packages) rest) as Hrest
  end.
  { clear H Hc Hif.
    repeat lazymatch goal with
           | |- confined _ _ (SetVar _ _ _ _) =>
               apply SetVar_keeps; intros; reflexivity
           | |- confined _ _ (UseOCDBSnapshots _ _ _ _ _ _) =>
               apply UseOCDBSnapshots_keeps; intros; reflexivity
           | |- confined _ _ (SetGenerator _ _ _ _ _ _ _) =>
               apply SetGenerator_keeps; intros; reflexivity
           | |- confined _ _ (bind _ _) =>
               apply confined_bind;
               [unfold keeps; intros; congruence| |intros ?]
           | |- confined _ _ (ret _) => apply confined_ret; reflexivity
           end. }
  apply Hrest in H as (Hk & _). unfold keeps, packages in Hk. cbn in Hk.
  injection Hk as -> -> -> ->. auto.
Qed.

Lemma Construct_packages_witness :
  exists w',
    Construct Setup.workstation Setup.interp_ok 1023 Scenario.RunJDLName
      Scenario.MergeJDLName Setup.in_order "VO_ALICE@APISCONFIG::V1.1x" false
      "GenParamCustom" Setup.fresh_world = Done tt w'
    /\ fPackageAliroot (self w') = "VO_ALICE@AliRoot::v5-03-Rev-18"
    /\ fPackageRoot (self w') = "VO_ALICE@GEANT3::v1-14-8"
    /\ fPackageGeant3 (self w') = "VO_ALICE@ROOT::v5-34-05-1"
    /\ fPackageApi (self w') = "VO_ALICE@APISCONFIG::V1.1x".
Proof.
  assert (exists w',
    Construct Setup.workstation Setup.interp_ok 1023 Scenario.RunJDLName
      Scenario.MergeJDLName Setup.in_order "VO_ALICE@APISCONFIG::V1.1x" false
      "GenParamCustom" Setup.fresh_world = Done tt w') as (w' & H).
  { eexists. vm_compute. reflexivity. }
  exists w'. split; [exact H|].
  exact (Construct_packages _ _ _ _ _ _ _ _ _ _ _ H).
Defined.

(** ** Failures and error messages *)

Lemma errors_app (l1 l2 : list Event) : errors (l1 ++ l2) = (errors l1 ++ errors l2)%list.
Proof. unfold errors. apply omap_app. Qed.

Lemma written_app (l1 l2 : list Event) :
  written (l1 ++ l2) = (written l1 ++ written l2)%list.
Proof. unfold written. apply omap_app. Qed.

Lemma copy_answers_app (l1 l2 : list Event) :
  copy_answers (l1 ++ l2) = (copy_answers l1 ++ copy_answers l2)%list.
Proof. unfold copy_answers. apply omap_app. Qed.

Section JDLReports.
Context {E : Type}.
Variable env : E -> Call -> Resp * E.
Variable RunJDLName : string.
Variable MergeJDLName : bool -> string.
Variable GetSplitMaxInputFileNumber : Submitter -> string.

Ltac trace_tail :=
  eexists; split; [rewrite <- ?app_assoc; reflexivity|];
  cbn [app errors written copy_answers omap list_omap fst snd].

Lemma CreateJDLFile_reports (name : string) (w w' : World E) (os : option string) :
  CreateJDLFile env name w = Done os w' ->
  self w' = self w /\ gGrid w' = gGrid w
  /\ exists new, trace w' = (trace w ++ new)%list
                 /\ (os <> None <-> errors new = [])
                 /\ written new = [] /\ copy_answers new = [].
Proof.
  intros H. unfold CreateJDLFile in H. follow H; cbn [self gGrid trace].
  all: split; [reflexivity|]; split; [reflexivity|]; trace_tail.
  all: split; [split; intros; first [discriminate|congruence]|auto].
Qed.

Lemma output_inv (os key v1 : string) (others : list string) (w w' : World E) (u : unit) :
  output env os key v1 others w = Done u w' ->
  exists text r e,
    Output_args key v1 others = Some text
    /\ w' = mkWorld e (trace w ++ [(StreamWrite os text, r)])%list (gGrid w) (self w).
Proof.
  unfold output. destruct (Output_args key v1 others) as [text|]; [|discriminate].
  intros H. follow H. eauto.
Qed.

Lemma output_array_inv (os key : string) (values : list string) (w w' : World E)
    (u : unit) :
  output_array env os key values w = Done u w' ->
  exists text r e,
    Output key values = Some text
    /\ w' = mkWorld e (trace w ++ [(StreamWrite os text, r)])%list (gGrid w) (self w).
Proof.
  unfold output_array. destruct (Output key values) as [text|]; [|discriminate].
  intros H. follow H. eauto.
Qed.

(** A chain of Output calls only writes. *)
Ltac outputs :=
  repeat match goal with
         | Ho : output _ _ _ _ _ _ = Done _ _ |- _ =>
             let text := fresh "text" in let r := fresh "r" in let e := fresh "e" in
             let Ht := fresh "Htext" in let Hw := fresh "Hw" in
             apply output_inv in Ho as (text & r & e & Ht & Hw); subst_world Hw;
             cbn [self gGrid trace ext] in *
         | Ho : output_array _ _ _ _ _ = Done _ _ |- _ =>
             let text := fresh "text" in let r := fresh "r" in let e := fresh "e" in
             let Ht := fresh "Htext" in let Hw := fresh "Hw" in
             apply output_array_inv in Ho as (text & r & e & Ht & Hw); subst_world Hw;
             cbn [self gGrid trace ext] in *
         end.

Lemma GenerateMergeJDL_reports (name : string) (w w' : World E) (b : bool) :
  GenerateMergeJDL env GetSplitMaxInputFileNumber name w = Done b w' ->
  self w' = self w /\ gGrid w' = gGrid w
  /\ exists new, trace w' = (trace w ++ new)%list
                 /\ (b = true <-> errors new = [])
                 /\ copy_answers new = [].
Proof.
  intros H. unfold GenerateMergeJDL in H.
  apply bind_inv in H as (u & w1 & Hd & H). follow Hd.
  apply bind_inv in H as (os & w2 & Hos & H).
  apply CreateJDLFile_reports in Hos as (Hs & Hg & new & Ht & Herr & _ & Hcopy).
  cbn [self gGrid trace] in *.
  destruct os as [os|].
  - assert (errors new = []) as Hnone by (apply Herr; discriminate).
    follow H; outputs; cbn [self gGrid trace] in *.
    all: split; [exact Hs|]; split; [exact Hg|]; rewrite Ht.
    all: eexists; split; [rewrite <- ?app_assoc; reflexivity|].
    all: rewrite ?errors_app, ?copy_answers_app, Hnone, Hcopy.
    all: cbn [app errors copy_answers omap list_omap fst snd].
    all: split; [split; intros; reflexivity|reflexivity].
  - follow H. cbn [self gGrid trace]. split; [exact Hs|]. split; [exact Hg|].
    rewrite Ht. eexists. split; [rewrite <- ?app_assoc; reflexivity|].
    rewrite ?errors_app, ?copy_answers_app, Hcopy. cbn [app errors copy_answers omap fst].
    split; [|reflexivity]. split; [discriminate|].
    intros Hnone. exfalso. now apply Herr in Hnone.
Qed.

Lemma GenerateRunJDL_reports (name : string) (w w' : World E) (b : bool) :
  GenerateRunJDL env RunJDLName MergeJDLName name w = Done b w' ->
  no_lists (self w') = no_lists (self w) /\ gGrid w' = gGrid w
  /\ exists new,
       trace w' = (trace w ++ new)%list
       /\ (b = true <-> errors new = [])
       /\ copy_answers new = []
       /\ ((written new = [] /\ b = false)
           \/ (length (written new) = 13%nat /\ b = true
               /\ (fCompactMode (self w) = 0 \/ fCompactMode (self w) = 1))
           \/ (length (written new) = 7%nat /\ b = false
               /\ fCompactMode (self w) <> 0 /\ fCompactMode (self w) <> 1
               /\ errors new
                  = ["Unknown CompactMode " ++ TStr.of_int (fCompactMode (self w))])).
Proof.
  intros H. unfold GenerateRunJDL in H.
  apply bind_inv in H as (u & w1 & Hd & H). follow Hd.
  apply bind_inv in H as (os & w2 & Hos & H).
  apply CreateJDLFile_reports in Hos as (Hs & Hg & new & Ht & Herr & Hwr & Hcopy).
  cbn [self gGrid trace] in *.
  destruct os as [os|].
  - assert (errors new = []) as Hnone by (apply Herr; discriminate).
    follow H; outputs.
    all: match goal with
         | HT : TemplateFileList _ _ _ = Done _ _ |- _ =>
             rewrite TemplateFileList_run in HT; cbn [self gGrid trace ext] in HT;
             apply Done_inj in HT as (? & HwT); subst_world HwT
         end.
    all: subst; cbn [self gGrid trace ext] in *.
    all: rewrite Hs in *.
    all: (split; [reflexivity|]); (split; [exact Hg|]); rewrite Ht.
    all: eexists; split; [rewrite <- ?app_assoc; reflexivity|].
    all: rewrite ?errors_app, ?copy_answers_app, ?written_app, Hnone, Hcopy, Hwr.
    all: cbn [app errors copy_answers written omap list_omap fst snd length].
    all: split; [split; intros; first [reflexivity|discriminate]|].
    all: split; [reflexivity|].
    all: repeat match goal with
                | Hq : Z.eqb _ _ = true |- _ => apply Z.eqb_eq in Hq
                | Hq : Z.eqb _ _ = false |- _ => apply Z.eqb_neq in Hq
                end.
    all: first [ right; left; solve [repeat split; auto]
               | right; right; solve [repeat split; auto] ].
  - follow H. cbn [self gGrid trace]. rewrite Hs. split; [reflexivity|].
    split; [exact Hg|]. rewrite Ht.
    eexists. split; [rewrite <- ?app_assoc; reflexivity|].
    rewrite ?errors_app, ?copy_answers_app, ?written_app, Hcopy, Hwr.
    cbn [app errors copy_answers written omap list_omap fst snd].
    split; [|auto]. split; [discriminate|].
    intros Hnone. exfalso. now apply Herr in Hnone.
Qed.
End JDLReports.

(** ** CopyTemplateFilesToLocal *)

Lemma copy_report_refl (st : Z * bool) : copy_report st st [].
Proof.
  unfold copy_report. cbn. split; [auto|]. split; [auto|]. split; [congruence|].
  intros _. split; [lia|auto].
Qed.

Lemma copy_report_trans (st st1 st' : Z * bool) (new1 new2 : list Event) :
  copy_report st st1 new1 -> copy_report st1 st' new2 ->
  copy_report st st' (new1 ++ new2).
Proof.
  intros (A1 & B1 & C1 & D1) (A2 & B2 & C2 & D2). unfold copy_report.
  rewrite errors_app, copy_answers_app.
  assert (forall l1 l2 : list string, l1 <> [] \/ l2 <> [] -> (l1 ++ l2)%list <> [])
    as Happ.
  { intros l1 l2 Hl Heq. apply app_eq_nil in Heq as (-> & ->). tauto. }
  split; [auto|]. split; [|split].
  - intros Ht. destruct (B2 Ht) as [Hs|He]; [|apply or_intror, Happ; auto].
    destruct (B1 Hs) as [?|He]; [now left|]. apply or_intror, Happ. auto.
  - intros Hne. apply Happ. destruct (Z.eq_dec (fst st1) (fst st)) as [Heq|Hne1].
    + right. apply C2. congruence.
    + left. now apply C1.
  - intros Hall. apply Forall_app in Hall as (H1 & H2).
    destruct (D1 H1) as (Hle1 & E1). destruct (D2 H2) as (Hle2 & E2).
    split; [lia|]. intros Hf Hs.
    assert (fst st1 = fst st) as Hf1 by lia.
    assert (snd st1 = false) as Hs1.
    { destruct (snd st1) eqn:Hst1; [|reflexivity].
      rewrite (A2 eq_refl) in Hs. discriminate. }
    rewrite (E1 Hf1 Hs1), (E2 ltac:(congruence) Hs). reflexivity.
Qed.

Lemma quiet_calls (P : Call -> Prop) (new : list Event) :
  Forall (fun e => P (fst e)) new ->
  (forall c, P c -> (forall msg, c <> Log LError msg)
                    /\ (forall a b o, c <> SysCopyFile a b o)) ->
  errors new = [] /\ copy_answers new = [].
Proof.
  intros Hall HP. induction Hall as [|[c r] new Hc _ IH]; [auto|].
  destruct IH as (He & Hc'). cbn [fst] in Hc. destruct (HP c Hc) as (Hlog & Hcp).
  unfold errors, copy_answers in *. cbn [omap list_omap fst snd].
  destruct c; try match goal with l : LogLevel |- _ => destruct l end;
    cbn [omap list_omap fst snd]; rewrite ?He, ?Hc'; try (split; reflexivity).
  all: exfalso; first [eapply Hlog; reflexivity | eapply Hcp; reflexivity].
Qed.

Section CopyTemplates.
Context {E : Type}.
Variable env : E -> Call -> Resp * E.
Variable fuel : nat.
Variable RunJDLName : string.
Variable MergeJDLName : bool -> string.
Variable GetSplitMaxInputFileNumber : Submitter -> string.

Lemma CopyTemplate_file_reports (st st' : Z * bool) (file : string) (w w' : World E) :
  CopyTemplate_file env fuel RunJDLName MergeJDLName GetSplitMaxInputFileNumber st file w
  = Done st' w' ->
  no_lists (self w') = no_lists (self w) /\ gGrid w' = gGrid w
  /\ exists new, trace w' = (trace w ++ new)%list /\ copy_report st st' new.
Proof.
  intros H. unfold CopyTemplate_file, HasVars in H. follow H.
  all: repeat match goal with
         | Hm : GenerateMergeJDL _ _ _ _ = Done _ _ |- _ =>
             let new := fresh "gen" in
             apply GenerateMergeJDL_reports
               in Hm as (?Hs & ?Hg & new & ?Ht & ?Herr & ?Hcopy)
         | Hr : GenerateRunJDL _ _ _ _ _ = Done _ _ |- _ =>
             let new := fresh "gen" in
             apply GenerateRunJDL_reports
               in Hr as (?Hs & ?Hg & new & ?Ht & ?Herr & ?Hcopy & _)
         | Hv : ReplaceVars _ _ _ _ = Done _ _ |- _ =>
             let new := fresh "gen" in
             let Hq := fresh "Hq" in let Hall := fresh "Hall" in
             pose proof (proj1 (ReplaceVars_inv env fuel _ _ _ _ Hv)) as Hq;
             apply (ReplaceVars_confined env fuel) in Hv as (?Hs & ?Hg & new & ?Ht & Hall);
             apply quiet_calls in Hall as (?Herr & ?Hcopy);
             [|intros ? [->|[->|(? & ->)]]; split; intros; discriminate]
         end.
  all: open_worlds w; subst; cbn [fst snd] in *.
  all: try discriminate.
  all: repeat match goal with
              | Hq : Z.eqb _ _ = true |- _ => apply Z.eqb_eq in Hq
              | Hq : Z.eqb _ _ = false |- _ => apply Z.eqb_neq in Hq
              | Hq : negb _ = true |- _ => apply negb_true_iff in Hq
              | Hq : negb _ = false |- _ => apply negb_false_iff in Hq
              | Hq : true = true <-> errors ?g = [] |- _ =>
                  apply proj1 in Hq; specialize (Hq eq_refl)
              | Hq : false = true <-> errors ?g = [] |- _ =>
                  apply proj2 in Hq
              end.
  all: (split; [first [reflexivity|assumption]|]); (split; [reflexivity|]).
  all: eexists;
    (split; [first [symmetry; apply app_nil_r|rewrite <- ?app_assoc; reflexivity]|]).
  all: unfold copy_report; rewrite ?errors_app, ?copy_answers_app;
    cbn [app errors copy_answers omap list_omap fst snd].
  all: repeat match goal with
              | Hq : errors ?g = [] |- _ => rewrite Hq
              | Hq : copy_answers ?g = [] |- _ => rewrite Hq
              end; cbn [app].
  all: split; [auto|].
  all: split; [intros; first [left; assumption | right; discriminate
                             | right; intros Hx; apply app_eq_nil in Hx as (_ & Hx);
                               discriminate Hx]|].
  all: split;
    [intros; first [discriminate | lia
                   | intros Hx; apply app_eq_nil in Hx as (_ & Hx); discriminate Hx]|].
  all: intros Hall; try (apply Forall_cons in Hall as (Hle & _)).
  all: split; [lia|intros; first [reflexivity|lia|congruence]].
Qed.

Lemma CopyTemplate_files_reports (files : list string) :
  forall (st st' : Z * bool) (w w' : World E),
    fold_each files
      (CopyTemplate_file env fuel RunJDLName MergeJDLName GetSplitMaxInputFileNumber) st w
    = Done st' w' ->
    no_lists (self w') = no_lists (self w) /\ gGrid w' = gGrid w
    /\ exists new, trace w' = (trace w ++ new)%list /\ copy_report st st' new.
Proof.
  induction files as [|file files IH]; intros st st' w w' H; cbn [fold_each] in H.
  - apply Done_inj in H as (<- & <-). split; [reflexivity|]. split; [reflexivity|].
    exists []. split; [now rewrite app_nil_r|apply copy_report_refl].
  - apply bind_inv in H as (st1 & w1 & Hstep & Hrest).
    apply CopyTemplate_file_reports in Hstep as (Hs1 & Hg1 & new1 & Ht1 & Hr1).
    apply IH in Hrest as (Hs & Hg & new2 & Ht & Hr).
    split; [congruence|]. split; [congruence|].
    exists (new1 ++ new2)%list. split; [rewrite Ht, Ht1, app_assoc; reflexivity|].
    now apply copy_report_trans with (st1 := st1).
Qed.
End CopyTemplates.

(** X18.  CopyTemplateFilesToLocal tells its failures: it returns kTRUE only on a
    valid object, and a kFALSE on a valid object comes with at least one
    AliError.  The converse needs the answers of TSystem::CopyFile to be
    zero or negative, as they are documented to be: then kTRUE means that no
    AliError was issued.  (The codes are summed in err, so that answers of
    both signs could cancel.)  The object is left as it was but for the
    creation of the template file list, and gGrid is not touched. *)
Theorem CopyTemplateFilesToLocal_reports {E : Type} (env : E -> Call -> Resp * E)
    (fuel : nat) (RunJDLName : string) (MergeJDLName : bool -> string)
    (GetSplitMaxInputFileNumber : Submitter -> string) (w w' : World E) (b : bool) :
  CopyTemplateFilesToLocal env fuel RunJDLName MergeJDLName GetSplitMaxInputFileNumber w
  = Done b w' ->
  let new := drop (length (trace w)) (trace w') in
  no_lists (self w') = no_lists (self w) /\ gGrid w' = gGrid w
  /\ (b = true -> fIsValid (self w) = true)
  /\ (b = false -> fIsValid (self w) = false \/ errors new <> [])
  /\ (b = true -> Forall (fun c => c <= 0) (copy_answers new) -> errors new = []).
Proof.
  intros H new. subst new. unfold CopyTemplateFilesToLocal, IsValid in H.
  apply bind_inv in H as (valid & w0 & Hv & H). follow Hv.
  destruct (fIsValid (self w)) eqn:Hvalid; cbn [negb] in H.
  - apply bind_inv in H as (u & w1 & Hd & H). follow Hd.
    apply bind_inv in H as (files & w2 & Hl & H).
    rewrite TemplateFileList_run in Hl. cbn [self gGrid trace ext] in Hl.
    apply Done_inj in Hl as (_ & <-).
    apply bind_inv in H as (st & w3 & Hloop & H).
    apply CopyTemplate_files_reports in Hloop as (Hs & Hg & new & Ht & Hr).
    cbn [self gGrid trace ext] in *.
    destruct Hr as (_ & Hpp & Herr & Hle). cbn [fst snd] in *.
    assert (no_lists (self w3) = no_lists (self w)) as Hs'.
    { rewrite Hs. unfold no_lists. destruct (self w). reflexivity. }
    destruct (snd st) eqn:Hsnd.
    + follow H. cbn [self gGrid trace]. split; [exact Hs'|]. split; [exact Hg|].
      split; [reflexivity|]. split; [|discriminate]. intros _. right.
      rewrite Ht, <- !app_assoc, drop_app_length, !errors_app.
      destruct (Hpp eq_refl) as [?|Hne]; [discriminate|].
      intros Hx. apply app_eq_nil in Hx as (_ & Hx).
      apply app_eq_nil in Hx as (Hx & _). contradiction.
    + follow H. split; [exact Hs'|]. split; [exact Hg|].
      split; [reflexivity|].
      rewrite Ht, <- !app_assoc, drop_app_length, !errors_app, !copy_answers_app.
      cbn [app errors copy_answers omap list_omap fst snd].
      split.
      * intros Hz. right. apply Z.eqb_neq in Hz. apply Herr. exact Hz.
      * intros Hz Hall. apply Z.eqb_eq in Hz. destruct (Hle Hall) as (_ & Hnone).
        apply Hnone; [exact Hz|reflexivity].
  - follow H. rewrite drop_all. split; [reflexivity|]. split; [reflexivity|].
    split; [discriminate|]. split; [auto|discriminate].
Qed.

Lemma CopyTemplateFilesToLocal_reports_witness :
  exists w',
    CopyTemplateFilesToLocal local_disk 10 Scenario.RunJDLName Scenario.MergeJDLName
      Scenario.GetSplitMaxInputFileNumber Setup.empty_disk_world = Done true w'
    /\ Forall (fun c => c <= 0) (copy_answers (trace w'))
    /\ errors (trace w') = [].
Proof.
  assert (exists w',
    CopyTemplateFilesToLocal local_disk 10 Scenario.RunJDLName Scenario.MergeJDLName
      Scenario.GetSplitMaxInputFileNumber Setup.empty_disk_world = Done true w'
    /\ Forall (fun c => c <= 0) (copy_answers (trace w'))) as (w' & H & Hall).
  { eexists. split; [vm_compute; reflexivity|].
    cbn. repeat constructor; discriminate. }
  exists w'. split; [exact H|]. split; [exact Hall|].
  destruct (CopyTemplateFilesToLocal_reports _ _ _ _ _ _ _ _ H) as (_ & _ & _ & _ & Hnone).
  exact (Hnone eq_refl Hall).
Defined.

(** ** The question of Merge *)

Lemma questions_app (l1 l2 : list Event) :
  questions (l1 ++ l2) = (questions l1 + questions l2)%nat.
Proof. unfold questions. now rewrite omap_app, length_app. Qed.

Lemma no_questions (new : list Event) :
  Forall (fun e => fst e <> StdinGets) new -> questions new = 0%nat.
Proof.
  induction 1 as [|[c r] new Hc _ IH]; [reflexivity|].
  change ((c, r) :: new) with ([(c, r)] ++ new)%list. rewrite questions_app, IH.
  cbn [fst] in Hc. destruct c; try reflexivity. congruence.
Qed.

Section Question.
Context {E : Type}.
Variable env : E -> Call -> Resp * E.
Variable fuel : nat.

Lemma RemoteDirectoryExists_asks_nothing (dirname : string) :
  confined (fun c => c <> StdinGets) eq (RemoteDirectoryExists env dirname).
Proof.
  unfold RemoteDirectoryExists. repeat confine_step. all: discriminate.
Qed.

Lemma RemoteFileExists_asks_nothing (lfn : string) :
  confined (fun c => c <> StdinGets) eq (RemoteFileExists env lfn).
Proof.
  unfold RemoteFileExists. repeat confine_step. all: discriminate.
Qed.

Lemma stage_loop_asks_nothing (k : nat) :
  forall n lastStage : Z,
    confined (fun c => c <> StdinGets) eq (stage_loop env k n lastStage).
Proof.
  induction k as [|k IH]; intros n lastStage; cbn [stage_loop];
    (destruct (Z.gtb n 0); [|apply confined_ret; reflexivity]).
  - apply confined_diverge.
  - repeat first [apply IH | confine_step]. all: discriminate.
Qed.

Lemma GetLastStage_asks_nothing (remoteDir : string) :
  confined (fun c => c <> StdinGets) eq (GetLastStage env fuel remoteDir).
Proof.
  unfold GetLastStage, GetLastStage_count.
  repeat first [apply stage_loop_asks_nothing | confine_step]. all: discriminate.
Qed.

Lemma grown_refl (w : World E) : grown w w 0.
Proof. exists []. split; [now rewrite app_nil_r|reflexivity]. Qed.

Lemma grown_trans (w w1 w' : World E) (n1 n2 : nat) :
  grown w w1 n1 -> grown w1 w' n2 -> grown w w' (n1 + n2).
Proof.
  intros (new1 & T1 & Q1) (new2 & T2 & Q2). exists (new1 ++ new2)%list.
  split; [rewrite T2, T1, app_assoc; reflexivity|].
  rewrite questions_app. congruence.
Qed.

Lemma quiet_block {A} (m : M E A) (w w' : World E) (a : A) :
  confined (fun c => c <> StdinGets) eq m -> m w = Done a w' -> grown w w' 0.
Proof.
  intros Hm H. apply Hm in H as (_ & _ & new & Ht & Hall).
  exists new. split; [exact Ht|]. now apply no_questions.
Qed.

Lemma ask_grown (w w' : World E) (r : Resp) :
  call env StdinGets w = Done r w' -> grown w w' 1.
Proof.
  intros H. apply call_inv in H as (e & _ & ->). cbn [trace].
  exists [(StdinGets, r)]. split; reflexivity.
Qed.
End Question.

Ltac quiet_side :=
  repeat lazymatch goal with
         | |- confined _ _ (RemoteDirectoryExists _ _) =>
             apply RemoteDirectoryExists_asks_nothing
         | |- confined _ _ (RemoteFileExists _ _) => apply RemoteFileExists_asks_nothing
         | |- confined _ _ (GetLastStage _ _ _) => apply GetLastStage_asks_nothing
         | |- confined _ _ _ => confine_step
         end;
  discriminate.

(** A method that returned is followed along its binds and tests; what is
    kept of each part is how many times it read the terminal. *)
Ltac trail H :=
  cbv beta iota in H;
  lazymatch type of H with
  | ret _ _ = Done _ _ =>
      let Ha := fresh "Ha" in let Hw := fresh "Hw" in
      unfold ret in H; apply Done_inj in H as (Ha & Hw); subst_world Hw; subst_world Ha
  | get_self _ = Done _ _ =>
      let Ha := fresh "Ha" in let Hw := fresh "Hw" in
      unfold get_self in H; apply Done_inj in H as (Ha & Hw); subst_world Hw;
      subst_world Ha
  | crash _ = Done _ _ => unfold crash in H; discriminate H
  | diverge _ = Done _ _ => unfold diverge in H; discriminate H
  | fold_each _ _ _ _ = Done _ _ => idtac
  | Merge_report _ _ _ = Done _ _ => unfold Merge_report in H; trail H
  | call _ StdinGets _ = Done _ _ => apply ask_grown in H
  | bind _ _ _ = Done _ _ =>
      let a := fresh "a" in
      let w := fresh "w" in
      let Hm := fresh "Hm" in
      apply bind_inv in H as (a & w & Hm & H);
      trail Hm;
      trail H
  | (if negb true then _ else ?m) ?w = ?r => change (m w = r) in H; trail H
  | (if negb false then ?m else _) ?w = ?r => change (m w = r) in H; trail H
  | (if negb ?c then _ else _) _ = Done _ _ => destruct c eqn:?; cbn [negb] in H; trail H
  | (if ?c then _ else _) _ = Done _ _ => destruct c eqn:?; trail H
  | (match ?x with _ => _ end) _ = Done _ _ => destruct x eqn:?; trail H
  | ?m _ = Done _ _ => apply (quiet_block m) in H; [|quiet_side]
  end.

Ltac grown_chain :=
  first [ eassumption
        | apply grown_refl
        | eapply grown_trans; [eassumption | grown_chain] ].

Section QuestionOfMerge.
Context {E : Type}.
Variable env : E -> Call -> Resp * E.
Variable fuel : nat.

(** One round of the loop of Merge: the terminal is read at most once, only
    when the reply is not settled yet, and the reply is settled afterwards. *)
Lemma Merge_run_question (jdl : string) (stage : Z) (dryRun : bool)
    (st st' : string * bool) (run : Z) (w w' : World E) :
  Merge_run env fuel jdl stage dryRun st run w = Done st' w' ->
  exists new,
    trace w' = (trace w ++ new)%list
    /\ ((questions new = 0%nat
         /\ (answered (fst st) = true -> fst st' = fst st \/ fst st' = "y"))
        \/ (questions new = 1%nat /\ answered (fst st) = false
            /\ answered (fst st') = true /\ 0 < stage)).
Proof.
  intros H. unfold Merge_run in H. cbv zeta in H. trail H.
  all: match goal with
       | |- exists new, trace ?w' = (trace ?w ++ new)%list /\ _ =>
           eassert (grown w w' _) as (new & Ht & Hq) by grown_chain
       end.
  all: exists new; (split; [exact Ht|]); cbn [Nat.add] in Hq.
  all: cbn [fst snd] in *.
  all: repeat match goal with
              | Hc : andb _ _ = true |- _ => apply andb_prop in Hc as (? & ?)
              end.
  all: repeat match goal with
              | Hc : negb _ = true |- _ => apply negb_true_iff in Hc
              | Hc : Z.gtb _ _ = true |- _ => apply Z.gtb_lt in Hc
              end.
  all: first
         [ left; split; [exact Hq|]; intros _;
           first [left; reflexivity | right; reflexivity]
         | right; split; [exact Hq|]; unfold answered;
           repeat match goal with
                  | Hb : TStr.BeginsWith _ _ = _ |- _ => rewrite Hb
                  end;
           split; [reflexivity|]; split; [first [reflexivity|apply orb_true_r]|lia] ].
Qed.

Lemma Merge_runs_question (jdl : string) (stage : Z) (dryRun : bool) (runs : list Z) :
  forall (st st' : string * bool) (w w' : World E),
    fold_each runs (Merge_run env fuel jdl stage dryRun) st w = Done st' w' ->
    exists n,
      grown w w' n /\ (n <= 1)%nat
      /\ (answered (fst st) = true -> n = 0%nat)
      /\ (stage <= 0 -> n = 0%nat).
Proof.
  induction runs as [|run runs IH]; intros st st' w w' H; cbn [fold_each] in H.
  - apply Done_inj in H as (_ & <-). exists 0%nat.
    split; [apply grown_refl|]. auto.
  - apply bind_inv in H as (st1 & w1 & Hrun & Hrest).
    apply Merge_run_question in Hrun as (new1 & Ht1 & Hcase).
    apply IH in Hrest as (n & Hg & Hle & Hans & Hfinal).
    assert (answered "y" = true) as Hy by reflexivity.
    destruct Hcase as [(Hq & Hkeep)|(Hq & Hno & Hyes & Hstage)].
    + exists n. split.
      { apply (grown_trans w w1 w' 0 n); [exists new1; auto|exact Hg]. }
      split; [exact Hle|]. split; [|exact Hfinal].
      intros Ha. apply Hans. destruct (Hkeep Ha) as [->| ->]; auto.
    + exists 1%nat. rewrite (Hans Hyes) in Hg. split.
      { apply (grown_trans w w1 w' 1 0); [exists new1; auto|exact Hg]. }
      split; [lia|]. split; [congruence|lia].
Qed.
End QuestionOfMerge.

(** X20.  Merge reads the terminal at most once, whatever the number of runs:
    the answer to its question about runs with few files to merge is kept
    for the runs that follow.  A final merging (stage 0 or less) never
    reads it. *)
Theorem Merge_asks_once {E : Type} (env : E -> Call -> Resp * E) (fuel : nat)
    (MergeJDLName : bool -> string) (stage : Z) (dryRun : bool) (w w' : World E)
    (b : bool) :
  Merge env fuel MergeJDLName stage dryRun w = Done b w' ->
  (questions (drop (length (trace w)) (trace w')) <= 1)%nat
  /\ (stage <= 0 -> questions (drop (length (trace w)) (trace w')) = 0%nat).
Proof.
  intros H. unfold Merge, Merge_loop in H. cbv zeta in H. trail H.
  all: repeat match goal with
              | Hf : fold_each _ _ _ _ = Done _ _ |- _ =>
                  let n := fresh "n" in
                  apply Merge_runs_question in Hf as (n & ?Hg & ?Hle & _ & ?Hfinal)
              end.
  all: match goal with
       | |- (questions (drop (length (trace ?w)) (trace ?w')) <= 1)%nat /\ _ =>
           eassert (grown w w' _) as (new & Ht & Hq) by grown_chain
       end.
  all: rewrite Ht, drop_app_length, Hq; cbn [Nat.add]; rewrite ?Nat.add_0_r.
  all: split; [first [lia|assumption]|intros; first [reflexivity|auto]].
Qed.

Lemma Merge_asks_once_witness :
  exists b w',
    Merge Scenario.grid_ok 10 Scenario.MergeJDLName 1 false Scenario.valid_world
    = Done b w'
    /\ questions (trace w') = 1%nat
    /\ (questions (drop (length (trace Scenario.valid_world)) (trace w')) <= 1)%nat.
Proof.
  assert (exists b w',
    Merge Scenario.grid_ok 10 Scenario.MergeJDLName 1 false Scenario.valid_world
    = Done b w' /\ questions (trace w') = 1%nat) as (b & w' & H & Hone).
  { eexists _, _. split; [vm_compute; reflexivity|]. vm_compute. reflexivity. }
  exists b, w'. split; [exact H|]. split; [exact Hone|].
  exact (proj1 (Merge_asks_once _ _ _ _ _ _ _ _ H)).
Defined.

(** ** The outcome of GenerateRunJDL *)



(** Without the sign condition the codes can cancel: two copies fail, one
    with code 1 and one with code -1, and the result is kTRUE all the
    same. *)
Lemma copy_codes_of_both_signs_cancel :
  exists w',
    CopyTemplateFilesToLocal Setup.copy_codes 10 Scenario.RunJDLName Scenario.MergeJDLName
      Scenario.GetSplitMaxInputFileNumber Scenario.valid_world = Done true w'
    /\ errors (trace w')
       = ["Error 1 copying file /opt/AccEffTemplates/CheckESD.C";
          "Error -1 copying file /opt/AccEffTemplates/CheckAOD.C"].
Proof. eexists. split; vm_compute; reflexivity. Qed.

(** ** The upload *)

Lemma copied_app (l1 l2 : list Event) : copied (l1 ++ l2) = (copied l1 ++ copied l2)%list.
Proof. unfold copied. apply omap_app. Qed.

Lemma no_copies (new : list Event) :
  Forall (fun e => forall src dst, fst e <> TFileCp src dst) new -> copied new = [].
Proof.
  induction 1 as [|[c r] new Hc _ IH]; [reflexivity|].
  change ((c, r) :: new) with ([(c, r)] ++ new)%list. rewrite copied_app, IH.
  cbn [fst] in Hc. destruct c; try reflexivity. now destruct (Hc src dst).
Qed.

Section Upload.
Context {E : Type}.
Variable env : E -> Call -> Resp * E.
Variable RunJDLName : string.
Variable MergeJDLName : bool -> string.

Lemma RemoteDirectoryExists_copies_nothing (dirname : string) :
  confined (fun c => forall src dst, c <> TFileCp src dst) eq
    (RemoteDirectoryExists env dirname).
Proof.
  unfold RemoteDirectoryExists. repeat confine_step. all: discriminate.
Qed.

Lemma RemoteDirectoryExists_true (dirname : string) (w w' : World E) :
  RemoteDirectoryExists env dirname w = Done true w' -> gGrid w = true.
Proof.
  intros H. destruct (gGrid w) eqn:Hg; [reflexivity|].
  rewrite (RemoteDirectoryExists_no_grid env dirname w Hg) in H.
  apply Done_inj in H as (H & _). discriminate H.
Qed.

(** CopyFile returns the answer of TFile::Cp.  The copy is attempted at
    most once, to the remote name of the file, and needs gGrid. *)
Lemma CopyFile_copied (localFile : string) (w w' : World E) (b : bool) :
  CopyFile env localFile w = Done b w' ->
  self w' = self w /\ gGrid w' = gGrid w
  /\ exists new,
       trace w' = (trace w ++ new)%list
       /\ (copied new = [("alien://" ++ remote_name (self w) localFile, b)]
           /\ gGrid w = true
           \/ copied new = [] /\ b = false).
Proof.
  intros H. unfold CopyFile in H. follow H.
  all: repeat match goal with
              | Hx : RemoteDirectoryExists _ _ _ = Done true _ |- _ =>
                  pose proof (RemoteDirectoryExists_true _ _ _ Hx) as ?Hgrid;
                  let new := fresh "sub" in let Hall := fresh "Hall" in
                  apply RemoteDirectoryExists_copies_nothing
                    in Hx as (?Hs & ?Hg & new & ?Ht & Hall);
                  apply no_copies in Hall
              | Hx : RemoteDirectoryExists _ _ _ = Done false _ |- _ =>
                  let new := fresh "sub" in let Hall := fresh "Hall" in
                  apply RemoteDirectoryExists_copies_nothing
                    in Hx as (?Hs & ?Hg & new & ?Ht & Hall);
                  apply no_copies in Hall
              end.
  all: open_worlds w; subst.
  all: (split; [reflexivity|]); (split; [reflexivity|]).
  all: eexists; (split; [rewrite <- ?app_assoc; reflexivity|]).
  all: rewrite ?copied_app;
    repeat match goal with
           | Hq : copied ?g = [] |- _ => rewrite Hq; clear Hq
           end;
    cbn [app copied omap list_omap fst snd].
  all: unfold remote_name;
    repeat match goal with
           | Hq : IsAbsoluteFileName _ = _ |- _ => rewrite Hq
           end.
  all: first [ right; split; reflexivity
             | left; split; [reflexivity|assumption] ].
Qed.

Lemma upload_loop_copied (files : list string) :
  forall (allok b : bool) (w w' : World E),
    fold_each files (fun allok ftc => and_then (ret allok) (CopyFile env ftc)) allok w
    = Done b w' ->
    self w' = self w /\ gGrid w' = gGrid w
    /\ exists new,
         trace w' = (trace w ++ new)%list
         /\ (b = true ->
             allok = true
             /\ copied new
                = map (fun f => ("alien://" ++ remote_name (self w) f, true)) files).
Proof.
  induction files as [|f files IH]; intros allok b w w' H; cbn [fold_each] in H.
  - apply Done_inj in H as (<- & <-). split; [reflexivity|]. split; [reflexivity|].
    exists []. split; [now rewrite app_nil_r|]. auto.
  - apply bind_inv in H as (b1 & w1 & Hstep & Hrest).
    apply IH in Hrest as (Hs & Hg & new2 & Ht2 & Hall).
    unfold and_then in Hstep. apply bind_inv in Hstep as (x & w0 & Hx & Hstep).
    apply Done_inj in Hx as (<- & <-).
    destruct allok.
    + apply CopyFile_copied in Hstep as (Hs1 & Hg1 & new1 & Ht1 & Hcase).
      split; [congruence|]. split; [congruence|].
      exists (new1 ++ new2)%list. split; [rewrite Ht2, Ht1, app_assoc; reflexivity|].
      intros Hb. destruct (Hall Hb) as (-> & Hcopied). split; [reflexivity|].
      rewrite copied_app, Hcopied, Hs1. cbn [map].
      destruct Hcase as [(-> & _)|(_ & Hf)]; [reflexivity|discriminate].
    + apply Done_inj in Hstep as (<- & <-).
      split; [exact Hs|]. split; [exact Hg|]. exists new2. split; [exact Ht2|].
      intros Hb. destruct (Hall Hb) as (Hf & _). discriminate.
Qed.
End Upload.

(** X21.  CopyLocalFilesToRemote returns kTRUE only when every file of the local
    list has been copied: the TFile::Cp calls it made are, in the order of
    the list, one per file, each to the remote name of the file and each
    answered by kTRUE.  The object is then valid with a remote directory,
    gGrid is set, and nothing of the object changes but the creation of
    the file lists. *)
Theorem CopyLocalFilesToRemote_copies_every_file {E : Type}
    (env : E -> Call -> Resp * E) (RunJDLName : string) (MergeJDLName : bool -> string)
    (w w' : World E) :
  CopyLocalFilesToRemote env RunJDLName MergeJDLName w = Done true w' ->
  fIsValid (self w) = true
  /\ fRemoteDir (self w) <> EmptyString
  /\ gGrid w' = true
  /\ no_lists (self w') = no_lists (self w)
  /\ copied (drop (length (trace w)) (trace w'))
     = map (fun f => ("alien://" ++ remote_name (self w) f, true))
         (current_local_files RunJDLName MergeJDLName (self w)).
Proof.
  intros H. unfold CopyLocalFilesToRemote, CheckRemoteDir, IsValid in H. follow H.
  all: try discriminate.
  all: repeat match goal with
              | Hx : RemoteDirectoryExists _ _ _ = Done true _ |- _ =>
                  pose proof (RemoteDirectoryExists_true _ _ _ _ Hx) as ?Hgrid;
                  let new := fresh "sub" in let Hall := fresh "Hall" in
                  apply RemoteDirectoryExists_copies_nothing
                    in Hx as (?Hs & ?Hg & new & ?Ht & Hall);
                  apply no_copies in Hall
              | Hl : LocalFileList _ _ ?wl = Done _ _ |- _ =>
                  let s' := fresh "s" in
                  let Hlist := fresh "Hlist" in let Hn := fresh "Hn" in
                  destruct (LocalFileList_run RunJDLName MergeJDLName wl)
                    as (s' & Hlist & _ & Hn & _);
                  rewrite Hlist in Hl; clear Hlist;
                  let Hw := fresh "Hw" in
                  apply Done_inj in Hl as (?Hfiles & Hw); subst_world Hw
              | Hf : fold_each _ _ _ _ = Done true _ |- _ =>
                  let new := fresh "sub" in
                  apply upload_loop_copied
                    in Hf as (?Hs & ?Hg & new & ?Ht & ?Hcopied);
                  specialize (Hcopied eq_refl) as (_ & Hcopied)
              end.
  all: cbn [self gGrid trace ext] in *.
  all: open_worlds w; subst.
  all: split; [reflexivity|].
  all: split; [intros Heq; rewrite Heq in *; discriminate|].
  all: split; [first [assumption|reflexivity]|].
  all: split; [assumption|].
  all: rewrite <- !app_assoc, drop_app_length, !copied_app.
  all: repeat match goal with
              | Hq : copied ?g = _ |- _ => rewrite Hq; clear Hq
              end.
  all: cbn [app copied omap list_omap fst snd].
  all: apply map_ext; intros f; unfold remote_name.
  all: match goal with
       | Hn : no_lists ?s = no_lists _ |- _ =>
           pose proof (f_equal fRemoteDir Hn) as Hr;
           pose proof (f_equal fSnapshotDir Hn) as Hd; cbn in Hr, Hd
       end.
  all: rewrite Hr, Hd; reflexivity.
Qed.

Lemma CopyLocalFilesToRemote_copies_every_file_witness :
  exists w',
    CopyLocalFilesToRemote Setup.grid_store Scenario.RunJDLName Scenario.MergeJDLName
      Scenario.valid_world = Done true w'
    /\ copied (trace w')
       = [("alien:///alice/sim/CheckESD.C", true);
          ("alien:///alice/sim/run.jdl", true);
          ("alien:///alice/sim//OCDB/1000/OCDB_sim.root", true);
          ("alien:///alice/sim//OCDB/1000/OCDB_rec.root", true)].
Proof.
  assert (exists w',
    CopyLocalFilesToRemote Setup.grid_store Scenario.RunJDLName Scenario.MergeJDLName
      Scenario.valid_world = Done true w') as (w' & H).
  { eexists. vm_compute. reflexivity. }
  exists w'. split; [exact H|].
  destruct (CopyLocalFilesToRemote_copies_every_file _ _ _ _ _ H)
    as (_ & _ & _ & _ & Hcopied).
  exact Hcopied.
Defined.
